(** * tf2onnx.rewriter.unit_rnn_rewriter_base

    A shallow embedding of [UnitRnnRewriterBase] and [UnitRnnContext]
    (src/tf2onnx/rewriter/unit_rnn_rewriter_base.py) together with the
    properties of the rewriting skeleton: cell matching, state-variable
    handler selection, sequence-length detection and synthesis, and the
    reconciliation of the fused node's output.

    The rewriter is stateful Python: it mutates the graph [self.g], the
    per-loop context and one field of [self], and node names come from a
    global counter.  The embedding threads these through a
    state-and-exception monad [M].  Calls to [logger.debug] have no effect
    on any value and are left out. *)

From Stdlib Require Import String Ascii ZArith Lia Bool Arith.
From Stdlib Require Import DecimalString DecimalNat.
From Stdlib Require Import List.
Import ListNotations.

Local Open Scope string_scope.
Local Open Scope list_scope.

(** ** Python dictionaries

    Dictionaries keep insertion order, and the code relies on it
    ([list(d.values())[0]], [handler.items()]), so they are association
    lists in insertion order with at most one entry per key. *)

Module Dict.

Definition dict (V : Type) : Type := list (string * V).

Fixpoint get {V} (k : string) (d : dict V) : option V :=
  match d with
  | [] => None
  | (k', v) :: r => if String.eqb k k' then Some v else get k r
  end.

(** [d[k] = v]: an existing key keeps its position, a new key goes last. *)
Fixpoint set {V} (k : string) (v : V) (d : dict V) : dict V :=
  match d with
  | [] => [(k, v)]
  | (k', v') :: r =>
      if String.eqb k k' then (k, v) :: r else (k', v') :: set k v r
  end.

Definition keys {V} (d : dict V) : list string := map fst d.
Definition values {V} (d : dict V) : list V := map snd d.

End Dict.

Import Dict.

(** ** The graph *)

(** Tensor identifiers are the strings [name:port] of the graph. *)
Definition Id : Type := string.

Definition Shape : Type := list Z.

Inductive AttrValue : Type :=
| AInt (z : Z)
| AInts (l : list Z).

Record Node : Type := mkNode {
  name : string;
  type : string;
  input : list Id;
  output : list Id;
  attr : dict AttrValue
}.

Record Graph : Type := mkGraph {
  nodes : list Node;
  output_shapes : dict (option Shape);
  output_dtypes : dict (option Z)
}.

(** [onnx.TensorProto] element types: the values of the ONNX enumeration. *)
Module TensorProto.
Definition FLOAT : Z := 1.
Definition INT32 : Z := 6.
Definition INT64 : Z := 7.
End TensorProto.

(** Modelled from the spec: the target-graph builder's shape and dtype
    queries ([Graph.get_shape], [Graph.get_dtype]); an output without a
    recorded shape has none. *)
Definition get_shape (gr : Graph) (i : Id) : option Shape :=
  match get i (output_shapes gr) with
  | Some s => s
  | None => None
  end.

Definition get_dtype (gr : Graph) (i : Id) : option Z :=
  match get i (output_dtypes gr) with
  | Some d => d
  | None => None
  end.

(** Modelled from the spec: [Graph.get_nodes], all the nodes of the graph. *)
Definition get_nodes (gr : Graph) : list Node := nodes gr.

(** Modelled from the spec: [Graph.get_node_by_output], the node that
    produces a tensor, or [None]. *)
Definition get_node_by_output (gr : Graph) (i : Id) : option Node :=
  find (fun n => existsb (String.eqb i) (output n)) (nodes gr).

(** Modelled from the spec: [utils.make_name], the name of an inserted node:
    the operator name, two underscores and a running number. *)
Definition string_of_nat (n : nat) : string :=
  NilEmpty.string_of_uint (Nat.to_uint n).

Definition make_name (op_type : string) (counter : nat) : string :=
  (op_type ++ ("__" ++ string_of_nat counter))%string.

Definition output_name (node_name : string) (port : nat) : Id :=
  (node_name ++ (":" ++ string_of_nat port))%string.

Definition replace_input (old new : Id) (n : Node) : Node :=
  {| name := name n;
     type := type n;
     input := map (fun i => if String.eqb i old then new else i) (input n);
     output := output n;
     attr := attr n |}.

(** ** Loop properties and the context *)

Record TensorValueInfo : Type := mkTensorValueInfo {
  id : Id
}.

Record StateVariable : Type := mkStateVariable {
  next_iteration_input : TensorValueInfo;
  switch_true_identity_output : TensorValueInfo
}.

(** Modelled from the spec: the [LoopProperties] object of the external
    loop extractor, with the attributes this file reads. *)
Record LoopProperties : Type := mkLoopProperties {
  state_inputs : list TensorValueInfo;
  state_outputs : list TensorValueInfo;
  scan_inputs : list TensorValueInfo;
  scan_outputs : list TensorValueInfo;
  scan_inputs_initial_values : list Id;
  scan_outputs_exits : list TensorValueInfo
}.

(** A match of the structural matcher: operand name to graph node. *)
Definition MatchResult : Type := dict Node.

(** [MatchResult.get_op]. *)
Definition get_op (m : MatchResult) (k : string) : option Node := get k m.

(** [UnitRnnContext], with the two fields of the base [Context] that this
    file reads ([while_context_scope], [loop_properties]) and [rnn_node],
    which [rewrite] adds. *)
Record UnitRnnContext : Type := mkUnitRnnContext {
  while_context_scope : string;
  loop_properties : LoopProperties;
  rnn_scope : option string;
  cell_match : option MatchResult;
  weights : dict Id;
  seq_len_node : option Node;
  state_variables : dict StateVariable;
  input_size : option Z;
  hidden_size : option Z;
  attributes : dict AttrValue;
  onnx_input_ids : dict Id;
  rnn_node : option Node
}.

(** [UnitRnnContext.__init__] (lines 27-39), for a loop whose scope and
    properties the driver has filled in. *)
Definition create_context (scope : string) (lp : LoopProperties)
  : UnitRnnContext :=
  {| while_context_scope := scope;
     loop_properties := lp;
     rnn_scope := None;
     cell_match := None;
     weights := [];
     seq_len_node := None;
     state_variables := [];
     input_size := None;
     hidden_size := None;
     attributes := [];
     onnx_input_ids := [];
     rnn_node := None |}.

(** ** The state of a rewriter run

    [g] is [self.g]; [context] is the context object every stage receives;
    [state_variable_handler] is [self.state_variable_handler], a reference to
    one of the dictionaries of [self.state_variable_handlers], kept as its
    position in that list; [INTERNAL_NAME] is the running number of
    [utils.make_name]. *)
Record World : Type := mkWorld {
  g : Graph;
  context : UnitRnnContext;
  state_variable_handler : option nat;
  INTERNAL_NAME : nat
}.

Inductive Exception : Type :=
| RuntimeError (msg : string)
| NotImplementedError
| IndexError
| KeyError (k : string)
| TypeError
| AttributeError.

Inductive Outcome (A : Type) : Type :=
| Returned (a : A) (w : World)
| Raised (e : Exception) (w : World).

Arguments Returned {A} a w.
Arguments Raised {A} e w.

Definition M (A : Type) : Type := World -> Outcome A.

Definition ret {A} (a : A) : M A := fun w => Returned a w.

Definition raise {A} (e : Exception) : M A := fun w => Raised e w.

Definition bind {A B} (m : M A) (k : A -> M B) : M B :=
  fun w =>
    match m w with
    | Returned a w' => k a w'
    | Raised e w' => Raised e w'
    end.

Declare Scope rewriter_scope.
Delimit Scope rewriter_scope with rw.
Notation "x <- m ;; k" := (bind m (fun x => k))
  (at level 61, m at next level, right associativity) : rewriter_scope.
Notation "m ;; k" := (bind m (fun _ => k))
  (at level 61, right associativity) : rewriter_scope.
Local Open Scope rewriter_scope.

(** The world an outcome leaves behind, whether it returned or raised. *)
Definition world_of {A} (o : Outcome A) : World :=
  match o with
  | Returned _ w => w
  | Raised _ w => w
  end.

Definition get_context : M UnitRnnContext := fun w => Returned (context w) w.

Definition get_graph : M Graph := fun w => Returned (g w) w.

(** [l[0]] on a Python list. *)
Definition first {A} (l : list A) : M A :=
  match l with
  | x :: _ => ret x
  | [] => raise IndexError
  end.

(** [d[k]] on a Python dictionary. *)
Definition lookup {V} (k : string) (d : dict V) : M V :=
  match get k d with
  | Some v => ret v
  | None => raise (KeyError k)
  end.

(** Assignments to the attributes of the context object. *)
Definition with_rnn_scope (v : option string) (c : UnitRnnContext) :=
  {| while_context_scope := while_context_scope c;
     loop_properties := loop_properties c;
     rnn_scope := v;
     cell_match := cell_match c;
     weights := weights c;
     seq_len_node := seq_len_node c;
     state_variables := state_variables c;
     input_size := input_size c;
     hidden_size := hidden_size c;
     attributes := attributes c;
     onnx_input_ids := onnx_input_ids c;
     rnn_node := rnn_node c |}.

Definition with_cell_match (v : option MatchResult) (c : UnitRnnContext) :=
  {| while_context_scope := while_context_scope c;
     loop_properties := loop_properties c;
     rnn_scope := rnn_scope c;
     cell_match := v;
     weights := weights c;
     seq_len_node := seq_len_node c;
     state_variables := state_variables c;
     input_size := input_size c;
     hidden_size := hidden_size c;
     attributes := attributes c;
     onnx_input_ids := onnx_input_ids c;
     rnn_node := rnn_node c |}.

Definition with_weights (v : dict Id) (c : UnitRnnContext) :=
  {| while_context_scope := while_context_scope c;
     loop_properties := loop_properties c;
     rnn_scope := rnn_scope c;
     cell_match := cell_match c;
     weights := v;
     seq_len_node := seq_len_node c;
     state_variables := state_variables c;
     input_size := input_size c;
     hidden_size := hidden_size c;
     attributes := attributes c;
     onnx_input_ids := onnx_input_ids c;
     rnn_node := rnn_node c |}.

Definition with_seq_len_node (v : option Node) (c : UnitRnnContext) :=
  {| while_context_scope := while_context_scope c;
     loop_properties := loop_properties c;
     rnn_scope := rnn_scope c;
     cell_match := cell_match c;
     weights := weights c;
     seq_len_node := v;
     state_variables := state_variables c;
     input_size := input_size c;
     hidden_size := hidden_size c;
     attributes := attributes c;
     onnx_input_ids := onnx_input_ids c;
     rnn_node := rnn_node c |}.

Definition with_state_variables (v : dict StateVariable)
  (c : UnitRnnContext) :=
  {| while_context_scope := while_context_scope c;
     loop_properties := loop_properties c;
     rnn_scope := rnn_scope c;
     cell_match := cell_match c;
     weights := weights c;
     seq_len_node := seq_len_node c;
     state_variables := v;
     input_size := input_size c;
     hidden_size := hidden_size c;
     attributes := attributes c;
     onnx_input_ids := onnx_input_ids c;
     rnn_node := rnn_node c |}.

Definition with_onnx_input_ids (v : dict Id) (c : UnitRnnContext) :=
  {| while_context_scope := while_context_scope c;
     loop_properties := loop_properties c;
     rnn_scope := rnn_scope c;
     cell_match := cell_match c;
     weights := weights c;
     seq_len_node := seq_len_node c;
     state_variables := state_variables c;
     input_size := input_size c;
     hidden_size := hidden_size c;
     attributes := attributes c;
     onnx_input_ids := v;
     rnn_node := rnn_node c |}.

Definition with_rnn_node (v : option Node) (c : UnitRnnContext) :=
  {| while_context_scope := while_context_scope c;
     loop_properties := loop_properties c;
     rnn_scope := rnn_scope c;
     cell_match := cell_match c;
     weights := weights c;
     seq_len_node := seq_len_node c;
     state_variables := state_variables c;
     input_size := input_size c;
     hidden_size := hidden_size c;
     attributes := attributes c;
     onnx_input_ids := onnx_input_ids c;
     rnn_node := v |}.

(** [context.attr = ...] as a step of the monad. *)
Definition update_context (f : UnitRnnContext -> UnitRnnContext) : M unit :=
  fun w =>
    Returned tt {| g := g w; context := f (context w);
                   state_variable_handler := state_variable_handler w;
                   INTERNAL_NAME := INTERNAL_NAME w |}.

(** [self.state_variable_handler = handler]. *)
Definition set_state_variable_handler (i : nat) : M unit :=
  fun w =>
    Returned tt {| g := g w; context := context w;
                   state_variable_handler := Some i;
                   INTERNAL_NAME := INTERNAL_NAME w |}.

(** ** The graph builder *)

Definition set_shape (o : Id) (s : option Shape) (gr : Graph) : Graph :=
  {| nodes := nodes gr;
     output_shapes := set o s (output_shapes gr);
     output_dtypes := output_dtypes gr |}.

Definition set_dtype (o : Id) (d : option Z) (gr : Graph) : Graph :=
  {| nodes := nodes gr;
     output_shapes := output_shapes gr;
     output_dtypes := set o d (output_dtypes gr) |}.

Definition add_node (n : Node) (gr : Graph) : Graph :=
  {| nodes := nodes gr ++ [n];
     output_shapes := output_shapes gr;
     output_dtypes := output_dtypes gr |}.

(** Modelled from the spec: the target-graph builder's node-creation
    primitive [Graph.make_node], taking an operator name, the input
    identifiers and an attribute, shape and dtype bundle.  The node gets a
    fresh name from [utils.make_name] and one output, [name:0]; it is
    appended to the graph; the shape and the dtype of the output are
    recorded when the caller gives them ([shapes=[s]], [dtypes=[d]]).  The
    builder's own shape inference for an output the caller leaves
    undescribed is not part of this model. *)
Definition make_node (op_type : string) (inputs : list Id)
  (attrs : dict AttrValue) (shapes : list (option Shape))
  (dtypes : list (option Z)) : M Node :=
  fun w =>
    let counter := S (INTERNAL_NAME w) in
    let node_name := make_name op_type counter in
    let out := output_name node_name 0 in
    let n := {| name := node_name; type := op_type; input := inputs;
                output := [out]; attr := attrs |} in
    let g1 := match shapes with
              | s :: _ => set_shape out s (g w)
              | [] => g w
              end in
    let g2 := match dtypes with
              | d :: _ => set_dtype out d g1
              | [] => g1
              end in
    Returned n {| g := add_node n g2; context := context w;
                  state_variable_handler := state_variable_handler w;
                  INTERNAL_NAME := counter |}.

(** The keyword arguments [make_slice] receives. *)
Record SliceArgs : Type := mkSliceArgs {
  data : Id;
  axes : list Z;
  starts : list Z;
  ends : list Z
}.

(** Modelled from the spec: the slice-builder helper
    [GraphBuilder(g).make_slice], in the form it has for the operator sets
    in which [Slice] carries [axes], [starts] and [ends] as attributes (the
    form the comment at line 230 refers to): it makes one [Slice] node over
    [data] and returns the identifier of its output. *)
Definition make_slice (a : SliceArgs) : M Id :=
  n <- make_node "Slice" [data a]
         [("starts", AInts (starts a)); ("ends", AInts (ends a));
          ("axes", AInts (axes a))] [] [] ;;
  first (output n).

(** Modelled from the spec: the consumer-rewiring primitive
    [Graph.replace_all_inputs(ops, old, new)]: in each node of [ops] (nodes
    are identified by their names) every input [old] becomes [new]. *)
Definition replace_all_inputs (ops : list Node) (old new : Id) : M unit :=
  fun w =>
    let rewire n :=
      if existsb (fun o => String.eqb (name o) (name n)) ops
      then replace_input old new n else n in
    Returned tt {| g := {| nodes := map rewire (nodes (g w));
                           output_shapes := output_shapes (g w);
                           output_dtypes := output_dtypes (g w) |};
                   context := context w;
                   state_variable_handler := state_variable_handler w;
                   INTERNAL_NAME := INTERNAL_NAME w |}.

(** ** External collaborators

    The loop extractor, the pattern registry, the structural matcher and the
    node predicate of [tf2onnx.utils] are outside this file; the rewriter
    only calls them.  They are queries on their arguments. *)
Record Collaborators : Type := mkCollaborators {
  Pattern : Type;
  (** [rnn_utils.get_rnn_scope_name] *)
  get_rnn_scope_name : string -> string;
  (** [rnn_utils.parse_rnn_loop], by the truth value of its result *)
  parse_rnn_loop : Graph -> LoopProperties -> string -> string -> bool;
  (** [rnn_utils.get_pattern], keyed by the unit-type tag *)
  get_pattern : string -> Pattern;
  (** [rnn_utils.seq_len_pattern] *)
  seq_len_pattern : Pattern;
  (** [GraphMatcher(pattern, allow_reorder).match_ops(ops)] *)
  match_ops : Pattern -> bool -> list Node -> list MatchResult;
  (** [GraphMatcher(pattern, allow_reorder).match_op(op)] *)
  match_op : Pattern -> bool -> Node -> option MatchResult;
  (** [LoopRewriterBase.find_subgraph(inputs, outputs, g, merge_as_end)],
      by the first component of its result *)
  find_subgraph : list Id -> list Id -> Graph -> bool -> list Node;
  (** [utils.is_tf_select_op] *)
  is_tf_select_op : Node -> bool
}.

(** ** The variant interface

    The operations a concrete rewriter (LSTM, GRU, ...) supplies.  Each is a
    method of the rewriter: it receives the context and can reach [self.g],
    so it is a computation on the whole state.  A state-variable handler
    maps a variable name to its finder and its output connector. *)
Definition Handler : Type :=
  dict (M (option StateVariable) * M unit).

Record Variant : Type := mkVariant {
  find_cell : M (option MatchResult);
  get_weight_and_bias : M (option (dict Id));
  parse_attributes : M bool;
  is_valid : M bool;
  process_weights_and_bias : M unit;
  process_var_init_nodes : M unit;
  create_rnn_node : M Node;
  state_variable_handlers : option (list Handler)
}.

(** [UnitRnnRewriterBase] itself: the abstract operations raise, the two
    optional ones answer [True], and [__init__] leaves the handlers unset. *)
Definition base_variant : Variant :=
  {| find_cell := raise NotImplementedError;
     get_weight_and_bias := raise NotImplementedError;
     parse_attributes := ret true;
     is_valid := ret true;
     process_weights_and_bias := raise NotImplementedError;
     process_var_init_nodes := raise NotImplementedError;
     create_rnn_node := raise NotImplementedError;
     state_variable_handlers := None |}.

(** [rnn_utils.REWRITER_RESULT]. *)
Inductive REWRITER_RESULT : Type := SKIP | OK | FAIL.

(** The truth value of what [get_weight_and_bias] returns: [None] and the
    empty dictionary are both false. *)
Definition has_weights (r : option (dict Id)) : option (dict Id) :=
  match r with
  | Some (_ :: _) => r
  | _ => None
  end.

(** ** UnitRnnRewriterBase *)

Section UnitRnnRewriterBase.

Variable E : Collaborators.
Variable V : Variant.

(** The matches [_match_cell] obtains (lines 138-152): the cell pattern
    matched, operand order free, over the loop body between the loop's
    inputs and outputs.  The identifier lists are handed to [find_subgraph]
    as they are; it reads them as sets. *)
Definition match_results (unittype : string) (ctx : UnitRnnContext)
  (gr : Graph) : list MatchResult :=
  let cell_pattern := get_pattern E unittype in
  let loop_props := loop_properties ctx in
  let inputs := state_inputs loop_props ++ scan_inputs loop_props in
  let input_ids := map id inputs in
  let outputs := state_outputs loop_props ++ scan_outputs loop_props in
  let output_ids := map id outputs in
  let body_graph_ops := find_subgraph E input_ids output_ids gr true in
  match_ops E cell_pattern true body_graph_ops.

(** [_match_cell] (lines 136-155). *)
Definition _match_cell (unittype : string) : M (option MatchResult) :=
  ctx <- get_context ;;
  gr <- get_graph ;;
  let match_results := match_results unittype ctx gr in
  if negb (length match_results =? 1)%nat then ret None
  else (m <- first match_results ;; ret (Some m)).

(** The inner loop of [get_state_variables] (lines 194-203): the finders of
    one handler, in the order of its items, up to the first that fails. *)
Fixpoint try_handler (handler : Handler) : M bool :=
  match handler with
  | [] => ret true
  | (var_name, (finder, _)) :: rest =>
      state_variable <- finder ;;
      match state_variable with
      | Some sv =>
          update_context
            (fun c => with_state_variables
                        (set var_name sv (state_variables c)) c) ;;
          try_handler rest
      | None => ret false
      end
  end.

(** The outer loop of [get_state_variables] (lines 192-207); [i] is the
    position of the head of [handlers] in [self.state_variable_handlers]. *)
Fixpoint try_handlers (handlers : list Handler) (i : nat) : M bool :=
  match handlers with
  | [] => ret false
  | handler :: rest =>
      can_handle <- try_handler handler ;;
      if (can_handle : bool)
      then (set_state_variable_handler i ;; ret true)
      else try_handlers rest (S i)
  end.

(** [get_state_variables] (lines 185-207). *)
Definition get_state_variables : M bool :=
  match state_variable_handlers V with
  | None => raise TypeError
  | Some handlers => try_handlers handlers 0
  end.

(** [find_sequence_length_node] (lines 209-220).  [is_tf_select_op] reads
    the type of the node it is given, which raises when the identifier has
    no producer and [get_node_by_output] answers [None]. *)
Definition find_sequence_length_node : M (option Node) :=
  ctx <- get_context ;;
  state_variable <- first (values (state_variables ctx)) ;;
  gr <- get_graph ;;
  match get_node_by_output gr (id (next_iteration_input state_variable)) with
  | None => raise AttributeError
  | Some next_iter_input_node =>
      if negb (is_tf_select_op E next_iter_input_node) then ret None
      else
        match match_op E (seq_len_pattern E) false next_iter_input_node with
        | None => raise (RuntimeError "failed to find sequence length.")
        | Some match_result => ret (get_op match_result "seq_len_node")
        end
  end.

(** [parse_unit_rnn] (lines 85-131). *)
Definition parse_unit_rnn : M bool :=
  cell_match <- find_cell V ;;
  match cell_match with
  | None => ret false
  | Some _ =>
      update_context (with_cell_match cell_match) ;;
      weights <- get_weight_and_bias V ;;
      match has_weights weights with
      | None => ret false
      | Some ws =>
          update_context (with_weights ws) ;;
          found <- get_state_variables ;;
          if negb found then ret false
          else
            seq_len_node <- find_sequence_length_node ;;
            match seq_len_node with
            | Some _ => update_context (with_seq_len_node seq_len_node)
            | None => ret tt
            end ;;
            ctx <- get_context ;;
            let inputs := scan_inputs_initial_values (loop_properties ctx) in
            if negb (length inputs =? 1)%nat then ret false
            else
              x <- first inputs ;;
              update_context
                (fun c => with_onnx_input_ids
                            (set "X" x (onnx_input_ids c)) c) ;;
              ok <- parse_attributes V ;;
              if negb ok then ret false else ret true
      end
  end.

(** [need_rewrite] (lines 65-80). *)
Definition need_rewrite : M bool :=
  ctx <- get_context ;;
  let scope := get_rnn_scope_name E (while_context_scope ctx) in
  update_context (with_rnn_scope (Some scope)) ;;
  gr <- get_graph ;;
  if negb (parse_rnn_loop E gr (loop_properties ctx) scope
             (while_context_scope ctx))
  then ret false
  else
    parsed <- parse_unit_rnn ;;
    if negb parsed then ret false
    else
      valid <- is_valid V ;;
      if negb valid then ret false else ret true.

(** [process_seq_length] (lines 225-257), over the slice builder it calls
    at lines 237 and 246: how many nodes [make_slice] adds depends on the
    operator set of the graph, which this file does not fix. *)
Definition process_seq_length_with (make_slice : SliceArgs -> M Id)
  : M unit :=
  ctx <- get_context ;;
  let seq_len_node := seq_len_node ctx in
  x <- lookup "X" (onnx_input_ids ctx) ;;
  shape_node <- make_node "Shape" [x] [] [] [] ;;
  shape_out <- first (output shape_node) ;;
  gr <- get_graph ;;
  cast_shape_node <-
    make_node "Cast" [shape_out] [("to", AInt TensorProto.FLOAT)]
      [get_shape gr shape_out] [] ;;
  cast_out <- first (output cast_shape_node) ;;
  batchsize_node <-
    make_slice {| data := cast_out; axes := [0%Z]; starts := [1%Z];
                  ends := [2%Z] |} ;;
  seq_len_node <-
    match seq_len_node with
    | Some n => ret n
    | None =>
        repeat_node <-
          make_node "Cast" [batchsize_node]
            [("to", AInt TensorProto.INT64)] [] [] ;;
        cast_out <- first (output cast_shape_node) ;;
        timestep_node <-
          make_slice {| data := cast_out; axes := [0%Z]; starts := [0%Z];
                        ends := [1%Z] |} ;;
        repeat_out <- first (output repeat_node) ;;
        tile_node <- make_node "Tile" [timestep_node; repeat_out] [] [] [] ;;
        tile_out <- first (output tile_node) ;;
        make_node "Cast" [tile_out] [("to", AInt TensorProto.INT32)] [] []
    end ;;
  seq_out <- first (output seq_len_node) ;;
  update_context
    (fun c => with_onnx_input_ids
                (set "sequence_lens" seq_out (onnx_input_ids c)) c).

(** [process_seq_length] with the slice builder in its attribute form. *)
Definition process_seq_length : M unit :=
  process_seq_length_with make_slice.

(** [rnn_output_shape[i]]. *)
Definition index {A} (l : list A) (i : nat) : M A :=
  match nth_error l i with
  | Some x => ret x
  | None => raise IndexError
  end.

(** [connect_unit_rnn_output_to_graph] (lines 273-293). *)
Definition connect_unit_rnn_output_to_graph : M unit :=
  ctx <- get_context ;;
  let outputs := scan_outputs_exits (loop_properties ctx) in
  match outputs with
  | [] => ret tt
  | first_exit :: _ =>
      let gather_output_id := id first_exit in
      rnn_node <- match rnn_node ctx with
                  | Some n => ret n
                  | None => raise AttributeError
                  end ;;
      output_id <- first (output rnn_node) ;;
      gr <- get_graph ;;
      rnn_output_shape <- match get_shape gr output_id with
                          | Some s => ret s
                          | None => raise TypeError
                          end ;;
      d0 <- index rnn_output_shape 0 ;;
      d2 <- index rnn_output_shape 2 ;;
      d3 <- index rnn_output_shape 3 ;;
      let squeeze_output_shape := [d0; d2; d3] in
      squeeze_node <-
        make_node "Squeeze" [output_id] [("axes", AInts [1%Z])]
          [Some squeeze_output_shape] [get_dtype gr output_id] ;;
      gr <- get_graph ;;
      squeeze_out <- first (output squeeze_node) ;;
      replace_all_inputs (get_nodes gr) gather_output_id squeeze_out
  end.

(** The loop of [process_outputs] over the items of the chosen handler. *)
Fixpoint connect_outputs (handler : Handler) : M unit :=
  match handler with
  | [] => ret tt
  | (_, (_, output_connector)) :: rest =>
      output_connector ;; connect_outputs rest
  end.

(** [process_outputs] (lines 265-271). *)
Definition process_outputs : M unit :=
  fun w =>
    match state_variable_handler w, state_variable_handlers V with
    | Some i, Some handlers =>
        match nth_error handlers i with
        | Some handler =>
            (connect_outputs handler ;; connect_unit_rnn_output_to_graph) w
        | None => Raised AttributeError w
        end
    | _, _ => Raised AttributeError w
    end.

(** [rewrite] (lines 163-183). *)
Definition rewrite : M REWRITER_RESULT :=
  process_weights_and_bias V ;;
  process_seq_length ;;
  process_var_init_nodes V ;;
  rnn_node <- create_rnn_node V ;;
  update_context (with_rnn_node (Some rnn_node)) ;;
  process_outputs ;;
  ret OK.

End UnitRnnRewriterBase.

(** ** What the synthesized nodes compute

    The sequence-length operand is built from ONNX operators.  To say what
    tensor it holds, the four operators involved are given their ONNX
    meaning on the tensors that occur here: one-axis tensors whose elements
    are whole numbers.  A float32 tensor holds the whole numbers that
    float32 can represent; [f32_round] is the rounding (to nearest, ties to
    even, 24 significant bits) that a cast to float32 applies. *)

Record Tensor : Type := mkTensor {
  dtype : Z;
  dims : list Z;
  elems : list Z
}.

Definition f32_round (z : Z) : Z :=
  let a := Z.abs z in
  if (a <? 2 ^ 24)%Z then z
  else
    let e := (Z.log2 a - 23)%Z in
    let q := (a / 2 ^ e)%Z in
    let r := (a mod 2 ^ e)%Z in
    let half := (2 ^ (e - 1))%Z in
    let q' := if ((half <? r) || ((r =? half) && Z.odd q))%Z
              then (q + 1)%Z else q in
    (Z.sgn z * (q' * 2 ^ e))%Z.

(** One element through [Cast]; a whole number outside the range of the
    integer type it is cast to has no defined result. *)
Definition cast_elem (to v : Z) : option Z :=
  if (to =? TensorProto.FLOAT)%Z then Some (f32_round v)
  else if (to =? TensorProto.INT32)%Z then
    if ((- 2 ^ 31 <=? v) && (v <? 2 ^ 31))%Z then Some v else None
  else if (to =? TensorProto.INT64)%Z then
    if ((- 2 ^ 63 <=? v) && (v <? 2 ^ 63))%Z then Some v else None
  else None.

Fixpoint cast_elems (to : Z) (l : list Z) : option (list Z) :=
  match l with
  | [] => Some []
  | v :: r =>
      match cast_elem to v, cast_elems to r with
      | Some v', Some r' => Some (v' :: r')
      | _, _ => None
      end
  end.

Definition onnx_Shape (t : Tensor) : Tensor :=
  {| dtype := TensorProto.INT64;
     dims := [Z.of_nat (length (dims t))];
     elems := dims t |}.

Definition onnx_Cast (to : Z) (t : Tensor) : option Tensor :=
  match cast_elems to (elems t) with
  | Some l => Some {| dtype := to; dims := dims t; elems := l |}
  | None => None
  end.

(** A slice bound: negative bounds count from the end, and the result is
    clamped to the axis. *)
Definition slice_bound (n i : Z) : nat :=
  let i' := if (i <? 0)%Z then (i + n)%Z else i in
  Z.to_nat (Z.max 0 (Z.min n i')).

(** [Slice] of a one-axis tensor along axis 0. *)
Definition onnx_Slice (axes starts ends : list Z) (t : Tensor)
  : option Tensor :=
  match dims t, axes, starts, ends with
  | [_], [0%Z], [s], [e] =>
      let n := Z.of_nat (length (elems t)) in
      let s' := slice_bound n s in
      let e' := slice_bound n e in
      let l := firstn (e' - s') (skipn s' (elems t)) in
      Some {| dtype := dtype t;
              dims := [Z.of_nat (length l)];
              elems := l |}
  | _, _, _, _ => None
  end.

(** [Tile] of a one-axis tensor; the repeat counts are an int64 tensor with
    one count per axis. *)
Definition onnx_Tile (t repeats : Tensor) : option Tensor :=
  match dims t, elems repeats with
  | [_], [k] =>
      if ((dtype repeats =? TensorProto.INT64) && (0 <=? k))%Z then
        let l := concat (repeat (elems t) (Z.to_nat k)) in
        Some {| dtype := dtype t;
                dims := [Z.of_nat (length l)];
                elems := l |}
      else None
  | _, _ => None
  end.

Definition attr_ints (n : Node) (k : string) : option (list Z) :=
  match get k (attr n) with
  | Some (AInts l) => Some l
  | _ => None
  end.

Definition attr_int (n : Node) (k : string) : option Z :=
  match get k (attr n) with
  | Some (AInt z) => Some z
  | _ => None
  end.

(** The value of a node's output, given the values of the tensors computed
    so far. *)
Definition eval_node (env : dict Tensor) (n : Node) : option Tensor :=
  if String.eqb (type n) "Shape" then
    match input n with
    | [x] => option_map onnx_Shape (get x env)
    | _ => None
    end
  else if String.eqb (type n) "Cast" then
    match input n, attr_int n "to" with
    | [x], Some to =>
        match get x env with
        | Some t => onnx_Cast to t
        | None => None
        end
    | _, _ => None
    end
  else if String.eqb (type n) "Slice" then
    match input n, attr_ints n "axes", attr_ints n "starts",
          attr_ints n "ends" with
    | [x], Some a, Some s, Some e =>
        match get x env with
        | Some t => onnx_Slice a s e t
        | None => None
        end
    | _, _, _, _ => None
    end
  else if String.eqb (type n) "Tile" then
    match input n with
    | [x; r] =>
        match get x env, get r env with
        | Some t, Some rt => onnx_Tile t rt
        | _, _ => None
        end
    | _ => None
    end
  else None.

Definition eval_step (env : dict Tensor) (n : Node) : dict Tensor :=
  match eval_node env n, output n with
  | Some t, o :: _ => (o, t) :: env
  | _, _ => env
  end.

(** Nodes are evaluated in the order in which they were added, which is an
    order in which every node comes after the producers of its inputs. *)
Definition eval_nodes (ns : list Node) (env : dict Tensor) : dict Tensor :=
  fold_left eval_step ns env.

(** The nodes a step added to the graph. *)
Definition added_nodes (before after : World) : list Node :=
  skipn (length (nodes (g before))) (nodes (g after)).

(** The seven nodes of lines 228-256, for input [x], when the running
    number of [utils.make_name] stands at [c]. *)
Definition synthesized_subgraph (x : Id) (c : nat) : list Node :=
  let out op k := output_name (make_name op (k + c)) 0 in
  let node op k ins attrs :=
    {| name := make_name op (k + c); type := op; input := ins;
       output := [out op k]; attr := attrs |} in
  [ node "Shape" 1 [x] [];
    node "Cast" 2 [out "Shape" 1] [("to", AInt TensorProto.FLOAT)];
    node "Slice" 3 [out "Cast" 2]
      [("starts", AInts [1%Z]); ("ends", AInts [2%Z]);
       ("axes", AInts [0%Z])];
    node "Cast" 4 [out "Slice" 3] [("to", AInt TensorProto.INT64)];
    node "Slice" 5 [out "Cast" 2]
      [("starts", AInts [0%Z]); ("ends", AInts [1%Z]);
       ("axes", AInts [0%Z])];
    node "Tile" 6 [out "Slice" 5; out "Cast" 4] [];
    node "Cast" 7 [out "Tile" 6] [("to", AInt TensorProto.INT32)] ].

(** The tensor bound to role [sequence_lens] after [process_seq_length],
    when the tensors of the graph before the call have the values [env]. *)
Definition synthesized_lengths (w : World) (env : dict Tensor)
  : option Tensor :=
  match process_seq_length w with
  | Returned _ w' =>
      match get "sequence_lens" (onnx_input_ids (context w')) with
      | Some sl => get sl (eval_nodes (added_nodes w w') env)
      | None => None
      end
  | Raised _ _ => None
  end.

(** ** Frame conditions *)

(** [preserves f m]: whatever [m] does, it leaves the part [f] of the state
    as it found it, also when it raises. *)
Definition preserves {A B} (f : World -> B) (m : M A) : Prop :=
  forall w, f (world_of (m w)) = f w.

(** The finders of a handler, in the order of its items, and those of a
    list of handlers. *)
Definition finders (handler : Handler) : list (M (option StateVariable)) :=
  map (fun e => fst (snd e)) handler.

Definition finders_of_handlers (handlers : list Handler)
  : list (M (option StateVariable)) :=
  flat_map finders handlers.

(** The finders of the handlers a variant declares. *)
Definition finders_of (V : Variant) : list (M (option StateVariable)) :=
  match state_variable_handlers V with
  | None => []
  | Some handlers => finders_of_handlers handlers
  end.

(** The operations of a variant that the feasibility check calls. *)
Definition hooks_preserve {B} (f : World -> B) (V : Variant) : Prop :=
  preserves f (find_cell V) /\
  preserves f (get_weight_and_bias V) /\
  preserves f (parse_attributes V) /\
  preserves f (is_valid V) /\
  Forall (preserves f) (finders_of V).




(** The part of the state the feasibility check never writes to: the
    graph and the counter that names new nodes. *)
Definition graph_and_names (w : World) : Graph * nat :=
  (g w, INTERNAL_NAME w).

(** The state variables recorded in the context. *)
Definition recorded (w : World) : dict StateVariable :=
  state_variables (context w).

(** ** What the finders return in a run

    [get_state_variables] looks only at what each [finder(context)] returns
    when it is called (line 196), in the state the calls before it have
    left.  The relations below describe such a run by the answers of the
    finders alone. *)

(** The state after [context.state_variables[var_name] = state_variable]
    (line 199). *)
Definition with_state_variable (var_name : string) (sv : StateVariable)
  (w : World) : World :=
  {| g := g w;
     context := with_state_variables
                  (set var_name sv (state_variables (context w)))
                  (context w);
     state_variable_handler := state_variable_handler w;
     INTERNAL_NAME := INTERNAL_NAME w |}.

(** [resolves_from items w found w']: called in order from the state [w],
    each finder of [items] returns a variable, each next finder being
    called once the variable before it has been recorded; [found] lists
    the variables returned under their names, and [w'] is the state after
    the last one has been recorded. *)
Inductive resolves_from
  : Handler -> World -> dict StateVariable -> World -> Prop :=
| resolves_from_nil : forall w, resolves_from [] w [] w
| resolves_from_cons :
    forall var_name finder connector rest w sv w1 found w',
      finder w = Returned (Some sv) w1 ->
      resolves_from rest (with_state_variable var_name sv w1) found w' ->
      resolves_from ((var_name, (finder, connector)) :: rest) w
                    ((var_name, sv) :: found) w'.

(** [fails_from handler w found w']: tried from the state [w], the handler
    has a variable whose finder returns [None], in the state [w'], after
    the finders of the variables before it have returned [found]. *)
Definition fails_from (handler : Handler) (w : World)
  (found : dict StateVariable) (w' : World) : Prop :=
  exists before var_name finder connector after wm,
    handler = before ++ (var_name, (finder, connector)) :: after /\
    resolves_from before w found wm /\
    finder wm = Returned None w'.

(** [all_fail_from handlers w w']: tried one after the other from the
    state [w], each of the handlers fails, the last of them in [w']. *)
Inductive all_fail_from : list Handler -> World -> World -> Prop :=
| all_fail_from_nil : forall w, all_fail_from [] w w
| all_fail_from_cons :
    forall handler handlers w found w1 w',
      fails_from handler w found w1 ->
      all_fail_from handlers w1 w' ->
      all_fail_from (handler :: handlers) w w'.

(** ** Concrete loops

    A small [dynamic_rnn] loop body in the shape the extractor hands over:
    one scan input, one state variable ["h"], and collaborators whose
    answers are fixed per example. *)
Module Examples.

Definition select_node : Node :=
  {| name := "rnn/while/Select";
     type := "Select";
     input := ["rnn/while/GreaterEqual:0"; "rnn/while/Identity_2:0";
               "rnn/while/gru_cell/add:0"];
     output := ["rnn/while/Select:0"];
     attr := [] |}.

Definition add_node_h : Node :=
  {| name := "rnn/while/gru_cell/add";
     type := "Add";
     input := ["rnn/while/gru_cell/mul_1:0"; "rnn/while/gru_cell/mul_2:0"];
     output := ["rnn/while/gru_cell/add:0"];
     attr := [] |}.

Definition gather_consumer : Node :=
  {| name := "dense/Tensordot";
     type := "MatMul";
     input := ["rnn/TensorArrayStack/TensorArrayGatherV3:0";
               "dense/kernel:0"];
     output := ["dense/Tensordot:0"];
     attr := [] |}.

Definition seq_len_producer : Node :=
  {| name := "rnn/sequence_length";
     type := "Identity";
     input := ["seq_len:0"];
     output := ["rnn/sequence_length:0"];
     attr := [] |}.

Definition graph_of (ns : list Node) : Graph :=
  {| nodes := ns; output_shapes := []; output_dtypes := [] |}.

Definition loop_props (inputs : list Id) (exits : list TensorValueInfo)
  : LoopProperties :=
  {| state_inputs := [mkTensorValueInfo "rnn/while/Identity_2:0"];
     state_outputs := [mkTensorValueInfo "rnn/while/Select:0"];
     scan_inputs := map (fun _ => mkTensorValueInfo
                                    "rnn/while/TensorArrayReadV3:0") inputs;
     scan_outputs := [mkTensorValueInfo "rnn/while/gru_cell/add:0"];
     scan_inputs_initial_values := inputs;
     scan_outputs_exits := exits |}.

(** Collaborators whose matcher finds [cell_matches] in any loop body and
    answers [seq_len_match] around any node. *)
Definition collaborators (cell_matches : list MatchResult)
  (seq_len_match : option MatchResult) : Collaborators :=
  {| Pattern := string;
     get_rnn_scope_name := fun s => s;
     parse_rnn_loop := fun _ _ _ _ => true;
     get_pattern := fun unittype => unittype;
     seq_len_pattern := "seq_len_pattern";
     match_ops := fun _ _ _ => cell_matches;
     match_op := fun _ _ _ => seq_len_match;
     find_subgraph := fun _ _ gr _ => nodes gr;
     is_tf_select_op := fun n => String.eqb (type n) "Select" |}.

Definition h_select : StateVariable :=
  {| next_iteration_input := mkTensorValueInfo "rnn/while/Select:0";
     switch_true_identity_output :=
       mkTensorValueInfo "rnn/while/Identity_2:0" |}.

Definition h_plain : StateVariable :=
  {| next_iteration_input := mkTensorValueInfo "rnn/while/gru_cell/add:0";
     switch_true_identity_output :=
       mkTensorValueInfo "rnn/while/Identity_2:0" |}.

Definition c_plain : StateVariable :=
  {| next_iteration_input := mkTensorValueInfo "rnn/while/lstm_cell/add_1:0";
     switch_true_identity_output :=
       mkTensorValueInfo "rnn/while/Identity_3:0" |}.

(** A finder that answers the same on every state, and a connector that
    leaves the graph alone. *)
Definition finds (sv : StateVariable) : M (option StateVariable) :=
  ret (Some sv).
Definition no_connector : M unit := ret tt.

(** A variant in the manner of the LSTM rewriter: [find_cell] is one call
    to [_match_cell]. *)
Definition variant (E : Collaborators) (handlers : list Handler) : Variant :=
  {| find_cell := _match_cell E "GRUCell";
     get_weight_and_bias :=
       ret (Some [("gate_kernel", "rnn/gru_cell/gates/kernel/read:0")]);
     parse_attributes := ret true;
     is_valid := ret true;
     process_weights_and_bias := ret tt;
     process_var_init_nodes := ret tt;
     create_rnn_node := make_node "GRU" [] [] [] [];
     state_variable_handlers := Some handlers |}.

Definition one_match : MatchResult := [("cell_output", add_node_h)].

Definition world (gr : Graph) (c : UnitRnnContext) : World :=
  {| g := gr; context := c; state_variable_handler := None;
     INTERNAL_NAME := 0 |}.

Definition fresh_world (ns : list Node) (inputs : list Id) : World :=
  world (graph_of ns)
    (create_context "rnn/while/" (loop_props inputs [])).

(** A context part-way through the pipeline. *)
Definition context_with (inputs : list Id) (exits : list TensorValueInfo)
  (svs : dict StateVariable) (seq_len : option Node) (ids : dict Id)
  (rnn : option Node) : UnitRnnContext :=
  {| while_context_scope := "rnn/while/";
     loop_properties := loop_props inputs exits;
     rnn_scope := Some "rnn/while/";
     cell_match := Some one_match;
     weights := [("gate_kernel", "rnn/gru_cell/gates/kernel/read:0")];
     seq_len_node := seq_len;
     state_variables := svs;
     input_size := None;
     hidden_size := None;
     attributes := [];
     onnx_input_ids := ids;
     rnn_node := rnn |}.

Definition other_match : MatchResult := [("cell_output", select_node)].

Definition no_match : Collaborators := collaborators [] None.
Definition ambiguous : Collaborators :=
  collaborators [one_match; other_match] None.
Definition single_match : Collaborators := collaborators [one_match] None.

Definition body : list Node := [add_node_h; select_node].

(** One handler, for ["h"] alone. *)
Definition h_handler (sv : StateVariable) : Handler :=
  [("h", (finds sv, no_connector))].

(** The state after the state variables were resolved: [h] is produced by
    the select node, or by the cell's last addition. *)
Definition masked_world : World :=
  world (graph_of body)
    (context_with ["rnn/transpose:0"] [] [("h", h_select)] None [] None).

(** A loop with two scan inputs, and one with none; a variant whose ["h"] is produced by a
    select node, which the sequence-length pattern of [single_match] does
    not recognise; and one whose ["h"] is not masked. *)
Definition two_inputs : World :=
  fresh_world body ["rnn/transpose:0"; "rnn/transpose_1:0"].

Definition no_inputs : World := fresh_world body [].


Definition unmasked_variant : Variant :=
  variant single_match [h_handler h_plain].

Definition unmasked_world : World :=
  world (graph_of body)
    (context_with ["rnn/transpose:0"] [] [("h", h_plain)] None [] None).

(** The state [rewrite] hands to [process_seq_length]: ["X"] bound, and no
    sequence-length node found, or one found. *)
Definition transpose_node : Node :=
  {| name := "rnn/transpose";
     type := "Transpose";
     input := ["inputs:0"];
     output := ["rnn/transpose:0"];
     attr := [("perm", AInts [1; 0; 2]%Z)] |}.

Definition ready : World :=
  world (graph_of (transpose_node :: body))
    (context_with ["rnn/transpose:0"] [] [("h", h_plain)] None
       [("X", "rnn/transpose:0")] None).

Definition ready_with_lengths : World :=
  world (graph_of (transpose_node :: seq_len_producer :: body))
    (context_with ["rnn/transpose:0"] [] [("h", h_select)]
       (Some seq_len_producer) [("X", "rnn/transpose:0")] None).

(** The state [process_outputs] hands to
    [connect_unit_rnn_output_to_graph]: the fused node is in the graph, its
    first output has shape [20, 1, 4, 16], and the scan output of the loop
    either has an exit that [dense/Tensordot] consumes, or has none. *)
Definition gru_node : Node :=
  {| name := "GRU__8";
     type := "GRU";
     input := ["rnn/transpose:0"; "W__5:0"; "R__6:0"; "B__7:0"];
     output := ["GRU__8:0"; "GRU__8:1"];
     attr := [("hidden_size", AInt 16)] |}.

Definition rewritten_graph : Graph :=
  {| nodes := [transpose_node; gru_node; gather_consumer];
     output_shapes := [("GRU__8:0", Some [20; 1; 4; 16]%Z)];
     output_dtypes := [("GRU__8:0", Some TensorProto.FLOAT)] |}.

Definition gather_exit : TensorValueInfo :=
  mkTensorValueInfo "rnn/TensorArrayStack/TensorArrayGatherV3:0".

Definition rewritten (exits : list TensorValueInfo) : World :=
  {| g := rewritten_graph;
     context := context_with ["rnn/transpose:0"] exits [("h", h_plain)] None
                  [("X", "rnn/transpose:0")] (Some gru_node);
     state_variable_handler := Some 0;
     INTERNAL_NAME := 8 |}.

(** Values for the input of [ready]: a float32 tensor of shape
    [5, 2, 3], and one of shape [16777217, 2, 3], whose data play no part. *)
Definition x_small : dict Tensor :=
  [("rnn/transpose:0",
    {| dtype := TensorProto.FLOAT; dims := [5; 2; 3]%Z; elems := [] |})].

Definition x_long : dict Tensor :=
  [("rnn/transpose:0",
    {| dtype := TensorProto.FLOAT; dims := [16777217; 2; 3]%Z;
       elems := [] |})].

End Examples.

(** ** The select-aware state-variable finder

    [_find_state_variable_with_select] (lines 295-335) is the building block
    of the finders a variant supplies.  It reads the graph and the loop
    properties, and it appends to the list of consumers its caller passes
    in; the list after the call is returned beside the result. *)

(** Modelled from the spec: the graph query [Graph.find_output_consumers],
    the nodes of the graph that have the tensor among their inputs. *)
Definition find_output_consumers (gr : Graph) (i : Id) : list Node :=
  filter (fun n => existsb (String.eqb i) (input n)) (nodes gr).

(** What the finder asks of the loop extractor and of [tf2onnx.utils]
    beyond [Collaborators]: the table of variable descriptors behind
    [LoopProperties.get_variables], and [utils.is_tf_tensor_array_write_op]. *)
Record LoopQueries : Type := mkLoopQueries {
  all_variables : LoopProperties -> list StateVariable;
  is_tf_tensor_array_write_op : Node -> bool
}.

(** Modelled from the spec: [LoopProperties.get_variables(checker)], all the
    variable descriptors that satisfy the predicate. *)
Definition get_variables (Q : LoopQueries) (lp : LoopProperties)
  (checker : StateVariable -> bool) : list StateVariable :=
  filter checker (all_variables Q lp).

Section StateVariableWithSelect.

Variable E : Collaborators.
Variable Q : LoopQueries.

(** The loop of lines 303-312 over the consumers of the next-iteration
    input: the select nodes whose output no TensorArrayWrite consumes. *)
Fixpoint selects_without_writer (gr : Graph) (consumers : list Node)
  : M (list Node) :=
  match consumers with
  | [] => ret []
  | c :: rest =>
      if negb (is_tf_select_op E c) then selects_without_writer gr rest
      else
        o <- first (output c) ;;
        let out_ta_writer :=
          filter (is_tf_tensor_array_write_op Q)
                 (find_output_consumers gr o) in
        match out_ta_writer with
        | _ :: _ => selects_without_writer gr rest
        | [] => select <- selects_without_writer gr rest ;; ret (c :: select)
        end
  end.

(** [checker] (lines 323-329), closed over the identifier and the consumers
    in force when it is defined. *)
Definition checker (next_id : Id) (consumers : list Node)
  (state_variable : StateVariable) : bool :=
  if negb (String.eqb (id (next_iteration_input state_variable)) next_id)
  then false
  else
    forallb
      (fun consumer =>
         existsb
           (String.eqb (id (switch_true_identity_output state_variable)))
           (input consumer))
      consumers.

(** [_find_state_variable_with_select] (lines 295-335). *)
Definition _find_state_variable_with_select (next_id : Id)
  (switch_true_identity_consumers : list Node)
  : M (option StateVariable * list Node) :=
  gr <- get_graph ;;
  select <- selects_without_writer gr (find_output_consumers gr next_id) ;;
  redirected <-
    (if (length select =? 1)%nat
     then (s <- first select ;;
           o <- first (output s) ;;
           ret (o, switch_true_identity_consumers ++ [s]))
     else ret (next_id, switch_true_identity_consumers)) ;;
  let next_id' := fst redirected in
  let consumers' := snd redirected in
  ctx <- get_context ;;
  let state_variables :=
    get_variables Q (loop_properties ctx) (checker next_id' consumers') in
  if negb (length state_variables =? 1)%nat then ret (None, consumers')
  else (sv <- first state_variables ;; ret (Some sv, consumers')).

(** A finder in the manner of the LSTM rewriter's: the result of one call,
    the consumer list being the finder's own. *)
Definition select_finder (next_id : Id) (consumers : list Node)
  : M (option StateVariable) :=
  r <- _find_state_variable_with_select next_id consumers ;;
  ret (fst r).

End StateVariableWithSelect.

(** ** Further notions used in the properties *)

(** What of a node no step of the rewriter is meant to change: everything
    but its inputs. *)
Definition node_header (n : Node)
  : string * string * list Id * dict AttrValue :=
  (name n, type n, output n, attr n).

(** [w'] has every node of [w], in place and with the same header, and
    possibly more nodes after them. *)
Definition keeps_nodes (w w' : World) : Prop :=
  exists extra,
    map node_header (nodes (g w')) =
    map node_header (nodes (g w)) ++ extra.

(** A computation that never removes, reorders or renames a node. *)
Definition only_adds_nodes {A} (m : M A) : Prop :=
  forall w, keeps_nodes w (world_of (m w)).

(** What [rewrite] relies on from a successful [need_rewrite]: the loop
    properties, the operand table and the reference to the chosen
    handler. *)
Definition operands_and_handler (w : World)
  : LoopProperties * dict Id * option nat :=
  (loop_properties (context w), onnx_input_ids (context w),
   state_variable_handler w).

Module MoreExamples.

(** The state [rewrite] starts from once [need_rewrite] has chosen the
    first handler. *)
Definition accepted : World :=
  {| g := g Examples.ready;
     context := context Examples.ready;
     state_variable_handler := Some 0;
     INTERNAL_NAME := 0 |}.


(** A loop body in which the new state goes through a select node before
    the next iteration, and one in which it also goes to a
    TensorArrayWrite. *)
Definition switch_consumer : Node :=
  {| name := "rnn/while/gru_cell/mul";
     type := "Mul";
     input := ["rnn/while/gru_cell/Sigmoid:0"; "rnn/while/Identity_2:0"];
     output := ["rnn/while/gru_cell/mul:0"];
     attr := [] |}.

Definition masking_select : Node :=
  {| name := "rnn/while/Select";
     type := "Select";
     input := ["rnn/while/GreaterEqual:0"; "rnn/while/Identity_2:0";
               "rnn/while/gru_cell/add:0"];
     output := ["rnn/while/Select:0"];
     attr := [] |}.

Definition queries : LoopQueries :=
  {| all_variables := fun _ => [Examples.h_select; Examples.c_plain];
     is_tf_tensor_array_write_op :=
       fun n => String.eqb (type n) "TensorArrayWriteV3" |}.

Definition masked_body : World :=
  Examples.world
    (Examples.graph_of [Examples.add_node_h; switch_consumer; masking_select])
    (Examples.context_with ["rnn/transpose:0"] [] [] None [] None).

(** A slice builder in the manner of the operator sets in which [Slice]
    takes [starts], [ends] and [axes] as inputs: three constant nodes and
    the [Slice] node over them. *)
Definition slice_over_constants (a : SliceArgs) : M Id :=
  starts_node <- make_node "Const" [] [("value", AInts (starts a))] [] [] ;;
  starts_out <- first (output starts_node) ;;
  ends_node <- make_node "Const" [] [("value", AInts (ends a))] [] [] ;;
  ends_out <- first (output ends_node) ;;
  axes_node <- make_node "Const" [] [("value", AInts (axes a))] [] [] ;;
  axes_out <- first (output axes_node) ;;
  n <- make_node "Slice" [data a; starts_out; ends_out; axes_out] [] [] [] ;;
  first (output n).

(** Finders that read the graph, in the manner of the LSTM rewriter's: for
    the hidden state and for the cell state, each through
    [_find_state_variable_with_select], given the consumers that have to
    read the variable's switch output. *)
Definition find_h (consumers : list Node) : M (option StateVariable) :=
  select_finder Examples.single_match queries "rnn/while/gru_cell/add:0"
    consumers.

Definition find_c (consumers : list Node) : M (option StateVariable) :=
  select_finder Examples.single_match queries "rnn/while/lstm_cell/add_1:0"
    consumers.

(** Three handlers over [masked_body]: the first finds ["c"] and then
    cannot find ["h"], because the node it expects to read the switch
    output of ["h"] does not; the second wants ["h"] alone and finds it
    behind the select node; the third is never reached. *)
Definition lstm_handler : Handler :=
  [("c", (find_c [], Examples.no_connector));
   ("h", (find_h [Examples.add_node_h], Examples.no_connector))].

Definition gru_handler : Handler :=
  [("h", (find_h [switch_consumer], Examples.no_connector))].

Definition spare_handler : Handler :=
  [("h", (find_h [], Examples.no_connector))].

Definition loop_handlers : list Handler :=
  [lstm_handler; gru_handler; spare_handler].

(** The states of a run of [loop_handlers] from [masked_body]: once ["c"]
    is recorded, and once ["h"] is. *)
Definition c_recorded : World :=
  with_state_variable "c" Examples.c_plain masked_body.

Definition h_recorded : World :=
  with_state_variable "h" Examples.h_select c_recorded.

(** A sequence-length node that has no output, and the state in which it
    has been found. *)
Definition outputless : Node :=
  {| name := "rnn/sequence_length";
     type := "NoOp";
     input := ["seq_len:0"];
     output := [];
     attr := [] |}.

Definition no_lengths_output : World :=
  Examples.world
    (Examples.graph_of (Examples.transpose_node :: Examples.body))
    (Examples.context_with ["rnn/transpose:0"] [] [("h", Examples.h_select)]
       (Some outputless) [("X", "rnn/transpose:0")] None).

(** The state before output reconciliation, for a fused node whose first
    output has the recorded shape [shape]. *)
Definition fused (shape : option Shape) : World :=
  {| g := {| nodes := [Examples.transpose_node; Examples.gru_node;
                       Examples.gather_consumer];
             output_shapes := [("GRU__8:0", shape)];
             output_dtypes := [("GRU__8:0", Some TensorProto.FLOAT)] |};
     context := Examples.context_with ["rnn/transpose:0"]
                  [Examples.gather_exit] [("h", Examples.h_plain)] None
                  [("X", "rnn/transpose:0")] (Some Examples.gru_node);
     state_variable_handler := Some 0;
     INTERNAL_NAME := 8 |}.

End MoreExamples.

(** * Properties *)

(** ** Reasoning about the monad *)

Lemma bind_returned {A B} (m : M A) (k : A -> M B) w a w' :
  m w = Returned a w' -> bind m k w = k a w'.
Proof. intros H. unfold bind. now rewrite H. Qed.

Lemma bind_raised {A B} (m : M A) (k : A -> M B) w e w' :
  m w = Raised e w' -> bind m k w = Raised e w'.
Proof. intros H. unfold bind. now rewrite H. Qed.

Lemma bind_ret_l {A B} (a : A) (k : A -> M B) : bind (ret a) k = k a.
Proof. reflexivity. Qed.

Lemma bind_inversion {A B} (m : M A) (k : A -> M B) w b w' :
  bind m k w = Returned b w' ->
  exists a w1, m w = Returned a w1 /\ k a w1 = Returned b w'.
Proof.
  unfold bind. destruct (m w) as [a w1|e w1]; [|discriminate].
  intros H. now exists a, w1.
Qed.

Lemma preserves_ret {A B} (f : World -> B) (a : A) : preserves f (ret a).
Proof. now intros w. Qed.

Lemma preserves_raise {A B} (f : World -> B) e :
  preserves f (@raise A e).
Proof. now intros w. Qed.

Lemma preserves_bind {A B C} (f : World -> C) (m : M A) (k : A -> M B) :
  preserves f m -> (forall a, preserves f (k a)) -> preserves f (bind m k).
Proof.
  intros Hm Hk w. unfold bind.
  specialize (Hm w). destruct (m w) as [a w'|e w']; simpl in *.
  - now rewrite Hk.
  - exact Hm.
Qed.

Lemma preserves_first {A B} (f : World -> B) (l : list A) :
  preserves f (first l).
Proof. destruct l; [apply preserves_raise | apply preserves_ret]. Qed.

Lemma preserves_get_context {B} (f : World -> B) : preserves f get_context.
Proof. now intros w. Qed.

Lemma preserves_get_graph {B} (f : World -> B) : preserves f get_graph.
Proof. now intros w. Qed.

(** Writing to the context or to [self.state_variable_handler] does not
    touch the graph. *)
Lemma update_context_graph h : preserves g (update_context h).
Proof. now intros w. Qed.

Lemma set_state_variable_handler_graph i :
  preserves g (set_state_variable_handler i).
Proof. now intros w. Qed.

Lemma set_state_variable_handler_context {B} (f : UnitRnnContext -> B) i :
  preserves (fun w => f (context w)) (set_state_variable_handler i).
Proof. now intros w. Qed.

(** ** Cell matching *)

Lemma match_cell_none E unittype w :
  length (match_results E unittype (context w) (g w)) <> 1 ->
  _match_cell E unittype w = Returned None w.
Proof.
  intros Hlen. unfold _match_cell, bind, get_context, get_graph.
  destruct (Nat.eqb_spec
              (length (match_results E unittype (context w) (g w))) 1)
    as [Heq|_]; [contradiction | reflexivity].
Qed.

Lemma match_cell_single E unittype w m :
  match_results E unittype (context w) (g w) = [m] ->
  _match_cell E unittype w = Returned (Some m) w.
Proof.
  intros Hm. unfold _match_cell, bind, get_context, get_graph.
  now rewrite Hm.
Qed.

(** C1.  When the structural matcher finds no match or more than one match
    in the loop body, [_match_cell] returns [None]; a rewriter whose
    [find_cell] is [_match_cell] then answers [False] from [need_rewrite],
    and the context's [cell_match] is what it was before the call (unset,
    for a context fresh from [create_context]); the graph is untouched. *)
Theorem match_cell_needs_exactly_one_match :
  forall E V unittype w,
    find_cell V = _match_cell E unittype ->
    length (match_results E unittype (context w) (g w)) <> 1 ->
    _match_cell E unittype w = Returned None w /\
    exists w',
      need_rewrite E V w = Returned false w' /\
      cell_match (context w') = cell_match (context w) /\
      g w' = g w.
Proof.
  intros E V unittype w Hfind Hlen. split.
  - now apply match_cell_none.
  - unfold need_rewrite, bind, get_context, update_context, get_graph.
    cbn [g context].
    match goal with
    | |- context [negb ?b] => destruct b
    end; cbn [negb].
    + set (w1 := {| g := g w; context := _;
                    state_variable_handler := _; INTERNAL_NAME := _ |}).
      assert (Hcell : parse_unit_rnn E V w1 = Returned false w1).
      { unfold parse_unit_rnn. rewrite Hfind.
        erewrite bind_returned by (apply match_cell_none; exact Hlen).
        reflexivity. }
      rewrite Hcell. cbn [negb]. exists w1. now repeat split.
    + eexists. split; [reflexivity|]. now split.
Qed.

(** ** The feasibility check writes to the context and to the handler
    reference only *)

Lemma try_handler_preserves {B} (f : World -> B) handler :
  (forall k sv,
     preserves f
       (update_context
          (fun c => with_state_variables (set k sv (state_variables c)) c)))
  ->
  Forall (preserves f) (finders handler) ->
  preserves f (try_handler handler).
Proof.
  intros Hupd. induction handler as [|[var_name [finder connector]] rest IH];
    intros Hall; cbn [try_handler].
  - apply preserves_ret.
  - cbn [finders map fst snd] in Hall. inversion Hall as [|? ? Hf Hrest]; subst.
    apply preserves_bind; [exact Hf|].
    intros [sv|]; [|apply preserves_ret].
    apply preserves_bind; [apply Hupd|]. intros _. now apply IH.
Qed.

Lemma try_handlers_preserves {B} (f : World -> B) handlers i :
  (forall k sv,
     preserves f
       (update_context
          (fun c => with_state_variables (set k sv (state_variables c)) c)))
  ->
  (forall j, preserves f (set_state_variable_handler j)) ->
  Forall (preserves f)
    (finders_of_handlers handlers) ->
  preserves f (try_handlers handlers i).
Proof.
  intros Hupd Hset. revert i.
  induction handlers as [|handler rest IH]; intros i Hall;
    cbn [try_handlers].
  - apply preserves_ret.
  - cbn [finders_of_handlers flat_map] in Hall. apply Forall_app in Hall as [Hh Hrest].
    apply preserves_bind; [now apply try_handler_preserves|].
    intros [|].
    + apply preserves_bind; [apply Hset|]. intros _. apply preserves_ret.
    + now apply IH.
Qed.

Lemma get_state_variables_preserves {B} (f : World -> B) V :
  (forall k sv,
     preserves f
       (update_context
          (fun c => with_state_variables (set k sv (state_variables c)) c)))
  ->
  (forall j, preserves f (set_state_variable_handler j)) ->
  Forall (preserves f) (finders_of V) ->
  preserves f (get_state_variables V).
Proof.
  intros Hupd Hset Hall. unfold get_state_variables, finders_of in *.
  destruct (state_variable_handlers V) as [handlers|].
  - now apply try_handlers_preserves.
  - apply preserves_raise.
Qed.

Lemma find_sequence_length_node_preserves {B} (f : World -> B) E :
  preserves f (find_sequence_length_node E).
Proof.
  unfold find_sequence_length_node.
  apply preserves_bind; [apply preserves_get_context|]. intros ctx.
  apply preserves_bind; [apply preserves_first|]. intros sv.
  apply preserves_bind; [apply preserves_get_graph|]. intros gr.
  destruct (get_node_by_output gr (id (next_iteration_input sv)));
    [|apply preserves_raise].
  destruct (negb (is_tf_select_op E n)); [apply preserves_ret|].
  destruct (match_op E (seq_len_pattern E) false n);
    [apply preserves_ret | apply preserves_raise].
Qed.

Lemma parse_unit_rnn_preserves {B} (f : World -> B) E V :
  (forall h, preserves f (update_context h)) ->
  (forall j, preserves f (set_state_variable_handler j)) ->
  hooks_preserve f V -> preserves f (parse_unit_rnn E V).
Proof.
  intros Hupd Hset (Hcell & Hweights & Hattr & _ & Hfinders).
  unfold parse_unit_rnn.
  apply preserves_bind; [exact Hcell|]. intros [m|]; [|apply preserves_ret].
  apply preserves_bind; [apply Hupd|]. intros _.
  apply preserves_bind; [exact Hweights|]. intros ws.
  destruct (has_weights ws); [|apply preserves_ret].
  apply preserves_bind; [apply Hupd|]. intros _.
  apply preserves_bind.
  { apply get_state_variables_preserves;
      [intros k sv; apply Hupd | exact Hset | exact Hfinders]. }
  intros [|]; cbn [negb]; [|apply preserves_ret].
  apply preserves_bind; [apply find_sequence_length_node_preserves|].
  intros sl. apply preserves_bind.
  { destruct sl; [apply Hupd | apply preserves_ret]. }
  intros _. apply preserves_bind; [apply preserves_get_context|]. intros ctx.
  destruct (negb _); [apply preserves_ret|].
  apply preserves_bind; [apply preserves_first|]. intros x.
  apply preserves_bind; [apply Hupd|]. intros _.
  apply preserves_bind; [exact Hattr|].
  intros [|]; apply preserves_ret.
Qed.

Lemma need_rewrite_preserves {B} (f : World -> B) E V :
  (forall h, preserves f (update_context h)) ->
  (forall j, preserves f (set_state_variable_handler j)) ->
  hooks_preserve f V -> preserves f (need_rewrite E V).
Proof.
  intros Hupd Hset Hhooks. unfold need_rewrite.
  apply preserves_bind; [apply preserves_get_context|]. intros ctx.
  apply preserves_bind; [apply Hupd|]. intros _.
  apply preserves_bind; [apply preserves_get_graph|]. intros gr.
  destruct (negb _); [apply preserves_ret|].
  apply preserves_bind; [now apply parse_unit_rnn_preserves|].
  intros [|]; cbn [negb]; [|apply preserves_ret].
  apply preserves_bind; [apply Hhooks|].
  intros [|]; apply preserves_ret.
Qed.

(** C2.  [need_rewrite] does not mutate the graph, and it writes to two
    places: the context, and the rewriter's own field
    [self.state_variable_handler] (line 205).  Provided the operations the
    variant supplies (cell finder, weight extraction, attribute parsing,
    validity predicate, state-variable finders) leave the graph and the
    counter of node names as they find them, the state after [need_rewrite]
    is the state before it with another context and another handler
    reference: the graph -- nodes, inputs, recorded shapes and dtypes -- is
    the graph before the call and no node name has been drawn, whether the
    call returns [True], returns [False] or raises. *)
Theorem need_rewrite_writes_context_and_handler_only :
  forall E V w,
    hooks_preserve graph_and_names V ->
    exists c h,
      world_of (need_rewrite E V w) =
      {| g := g w; context := c; state_variable_handler := h;
         INTERNAL_NAME := INTERNAL_NAME w |}.
Proof.
  intros E V w Hhooks.
  assert (H : graph_and_names (world_of (need_rewrite E V w)) =
              graph_and_names w).
  { apply need_rewrite_preserves; trivial; now intros ? ?. }
  destruct (world_of (need_rewrite E V w)) as [g' c h n'].
  unfold graph_and_names in H. cbn [g INTERNAL_NAME] in H.
  injection H as -> ->. now exists c, h.
Qed.

(** ** Sequence-length detection *)

(** C3.  Let the first state variable of the context have its
    next-iteration input produced by node [n].  If [n] is a select operator
    and the sequence-length pattern does not match around it,
    [find_sequence_length_node] raises [RuntimeError]; if [n] is not a
    select operator, it returns [None] and raises nothing.  Neither case
    changes the state. *)
Theorem find_sequence_length_node_select_or_absent :
  forall E w var_name sv rest n,
    state_variables (context w) = (var_name, sv) :: rest ->
    get_node_by_output (g w) (id (next_iteration_input sv)) = Some n ->
    (is_tf_select_op E n = true ->
     match_op E (seq_len_pattern E) false n = None ->
     find_sequence_length_node E w =
       Raised (RuntimeError "failed to find sequence length.") w) /\
    (is_tf_select_op E n = false ->
     find_sequence_length_node E w = Returned None w).
Proof.
  intros E w var_name sv rest n Hvars Hnode.
  unfold find_sequence_length_node, bind, get_context, get_graph.
  rewrite Hvars. cbn [values map snd first ret]. rewrite Hnode.
  split.
  - intros Hsel Hmatch. now rewrite Hsel, Hmatch.
  - intros Hsel. now rewrite Hsel.
Qed.

Lemma match_cell_needs_exactly_one_match_witness :
  (* two matches *)
  ((find_cell (Examples.variant Examples.ambiguous []) =
      _match_cell Examples.ambiguous "GRUCell" /\
    length (match_results Examples.ambiguous "GRUCell"
              (context (Examples.fresh_world Examples.body
                          ["rnn/transpose:0"]))
              (g (Examples.fresh_world Examples.body ["rnn/transpose:0"])))
      <> 1) /\
   (_match_cell Examples.ambiguous "GRUCell"
      (Examples.fresh_world Examples.body ["rnn/transpose:0"]) =
      Returned None (Examples.fresh_world Examples.body ["rnn/transpose:0"])
    /\
    exists w',
      need_rewrite Examples.ambiguous (Examples.variant Examples.ambiguous [])
        (Examples.fresh_world Examples.body ["rnn/transpose:0"]) =
        Returned false w' /\
      cell_match (context w') =
        cell_match (context (Examples.fresh_world Examples.body
                               ["rnn/transpose:0"])) /\
      g w' = g (Examples.fresh_world Examples.body ["rnn/transpose:0"]))) /\
  (* no match *)
  ((find_cell (Examples.variant Examples.no_match []) =
      _match_cell Examples.no_match "GRUCell" /\
    length (match_results Examples.no_match "GRUCell"
              (context (Examples.fresh_world Examples.body
                          ["rnn/transpose:0"]))
              (g (Examples.fresh_world Examples.body ["rnn/transpose:0"])))
      <> 1) /\
   (_match_cell Examples.no_match "GRUCell"
      (Examples.fresh_world Examples.body ["rnn/transpose:0"]) =
      Returned None (Examples.fresh_world Examples.body ["rnn/transpose:0"])
    /\
    exists w',
      need_rewrite Examples.no_match (Examples.variant Examples.no_match [])
        (Examples.fresh_world Examples.body ["rnn/transpose:0"]) =
        Returned false w' /\
      cell_match (context w') = None /\
      g w' = g (Examples.fresh_world Examples.body ["rnn/transpose:0"]))).
Proof.
  assert (H1 : find_cell (Examples.variant Examples.ambiguous []) =
               _match_cell Examples.ambiguous "GRUCell") by reflexivity.
  assert (H2 : length (match_results Examples.ambiguous "GRUCell"
             (context (Examples.fresh_world Examples.body
                         ["rnn/transpose:0"]))
             (g (Examples.fresh_world Examples.body ["rnn/transpose:0"])))
     <> 1) by (vm_compute; lia).
  assert (H3 : find_cell (Examples.variant Examples.no_match []) =
               _match_cell Examples.no_match "GRUCell") by reflexivity.
  assert (H4 : length (match_results Examples.no_match "GRUCell"
             (context (Examples.fresh_world Examples.body
                         ["rnn/transpose:0"]))
             (g (Examples.fresh_world Examples.body ["rnn/transpose:0"])))
     <> 1) by (vm_compute; lia).
  split.
  - split; [split; assumption|].
    exact (match_cell_needs_exactly_one_match Examples.ambiguous
             (Examples.variant Examples.ambiguous []) "GRUCell"
             (Examples.fresh_world Examples.body ["rnn/transpose:0"]) H1 H2).
  - split; [split; assumption|].
    exact (match_cell_needs_exactly_one_match Examples.no_match
             (Examples.variant Examples.no_match []) "GRUCell"
             (Examples.fresh_world Examples.body ["rnn/transpose:0"]) H3 H4).
Defined.

(** With exactly one match, and the rest of the loop in order, the same
    rewriter answers [True] and records the match. *)
Example need_rewrite_single_match :
  exists w',
    need_rewrite Examples.single_match Examples.unmasked_variant
      (Examples.fresh_world Examples.body ["rnn/transpose:0"]) =
      Returned true w' /\
    cell_match (context w') = Some Examples.one_match /\
    get "X" (onnx_input_ids (context w')) = Some "rnn/transpose:0".
Proof. eexists. split; [vm_compute; reflexivity|]. now split. Qed.

(** The base class on its own cannot match a cell: [find_cell] raises. *)
Example need_rewrite_base_class :
  exists w',
    need_rewrite Examples.single_match base_variant
      (Examples.fresh_world Examples.body ["rnn/transpose:0"]) =
      Raised NotImplementedError w'.
Proof. eexists. vm_compute. reflexivity. Qed.

Lemma need_rewrite_writes_context_and_handler_only_witness :
  hooks_preserve graph_and_names
    (Examples.variant Examples.single_match
       [Examples.h_handler Examples.h_plain]) /\
  exists c h,
    world_of
      (need_rewrite Examples.single_match
         (Examples.variant Examples.single_match
            [Examples.h_handler Examples.h_plain])
         (Examples.fresh_world Examples.body ["rnn/transpose:0"])) =
    {| g := g (Examples.fresh_world Examples.body ["rnn/transpose:0"]);
       context := c; state_variable_handler := h;
       INTERNAL_NAME :=
         INTERNAL_NAME
           (Examples.fresh_world Examples.body ["rnn/transpose:0"]) |}.
Proof.
  assert (H : hooks_preserve graph_and_names
    (Examples.variant Examples.single_match
       [Examples.h_handler Examples.h_plain])).
  { repeat split; try (intros w; reflexivity).
    repeat constructor. }
  split; [exact H|].
  exact (need_rewrite_writes_context_and_handler_only Examples.single_match _
           (Examples.fresh_world Examples.body ["rnn/transpose:0"]) H).
Defined.

(** C2, the claim as worded.  The context is not the only object written:
    on a loop with two scan inputs [need_rewrite] returns [False], and by
    then [get_state_variables] has stored the handler it chose in
    [self.state_variable_handler], a field of the rewriter. *)
Lemma need_rewrite_writes_the_handler_reference :
  exists w',
    need_rewrite Examples.single_match Examples.unmasked_variant
      Examples.two_inputs = Returned false w' /\
    g w' = g Examples.two_inputs /\
    state_variable_handler Examples.two_inputs = None /\
    state_variable_handler w' = Some 0.
Proof. eexists. split; [vm_compute; reflexivity|]. now repeat split. Qed.

Lemma find_sequence_length_node_select_or_absent_witness :
  (state_variables (context Examples.masked_world) =
     [("h", Examples.h_select)] /\
   get_node_by_output (g Examples.masked_world)
     (id (next_iteration_input Examples.h_select)) =
     Some Examples.select_node /\
   is_tf_select_op Examples.single_match Examples.select_node = true /\
   match_op Examples.single_match (seq_len_pattern Examples.single_match)
     false Examples.select_node = None /\
   find_sequence_length_node Examples.single_match Examples.masked_world =
     Raised (RuntimeError "failed to find sequence length.")
       Examples.masked_world) /\
  (state_variables (context Examples.unmasked_world) =
     [("h", Examples.h_plain)] /\
   get_node_by_output (g Examples.unmasked_world)
     (id (next_iteration_input Examples.h_plain)) =
     Some Examples.add_node_h /\
   is_tf_select_op Examples.single_match Examples.add_node_h = false /\
   find_sequence_length_node Examples.single_match Examples.unmasked_world =
     Returned None Examples.unmasked_world).
Proof.
  split.
  - repeat (split; [reflexivity|]).
    exact (proj1 (find_sequence_length_node_select_or_absent
                    Examples.single_match Examples.masked_world "h"
                    Examples.h_select [] Examples.select_node
                    eq_refl eq_refl) eq_refl eq_refl).
  - repeat (split; [reflexivity|]).
    exact (proj2 (find_sequence_length_node_select_or_absent
                    Examples.single_match Examples.unmasked_world "h"
                    Examples.h_plain [] Examples.add_node_h
                    eq_refl eq_refl) eq_refl).
Defined.

(** ** Dictionaries *)

Lemma get_set_same {V} k (v : V) d : get k (set k v d) = Some v.
Proof.
  induction d as [|[k' v'] r IH]; cbn [set get].
  - now rewrite String.eqb_refl.
  - destruct (String.eqb_spec k k') as [->|Hne]; cbn [get].
    + now rewrite String.eqb_refl.
    + destruct (String.eqb_spec k k'); [contradiction | exact IH].
Qed.

Lemma get_set_other {V} k k' (v : V) d :
  k' <> k -> get k' (set k v d) = get k' d.
Proof.
  intros Hne. induction d as [|[k0 v0] r IH]; cbn [set get].
  - destruct (String.eqb_spec k' k); [contradiction | reflexivity].
  - destruct (String.eqb_spec k k0) as [->|Hk]; cbn [get].
    + destruct (String.eqb_spec k' k0); [contradiction | reflexivity].
    + destruct (String.eqb_spec k' k0); [reflexivity | exact IH].
Qed.

Lemma keys_set_same {V} k (v : V) d : In k (keys (set k v d)).
Proof.
  induction d as [|[k' v'] r IH]; cbn [set].
  - now left.
  - destruct (String.eqb_spec k k'); cbn [keys map fst]; [now left|].
    right. exact IH.
Qed.



(** ** Finders that only read the graph *)

Lemma selects_without_writer_preserves {B} (f : World -> B) E Q gr
  consumers :
  preserves f (selects_without_writer E Q gr consumers).
Proof.
  induction consumers as [|c rest IH]; cbn [selects_without_writer].
  - apply preserves_ret.
  - destruct (negb (is_tf_select_op E c)); [exact IH|].
    apply preserves_bind; [apply preserves_first|]. intros o.
    destruct (filter _ _); [|exact IH].
    apply preserves_bind; [exact IH|]. intros select. apply preserves_ret.
Qed.

Lemma select_finder_preserves {B} (f : World -> B) E Q next_id consumers :
  preserves f (select_finder E Q next_id consumers).
Proof.
  unfold select_finder, _find_state_variable_with_select.
  apply preserves_bind; [|intros r; apply preserves_ret].
  apply preserves_bind; [apply preserves_get_graph|]. intros gr.
  apply preserves_bind; [apply selects_without_writer_preserves|].
  intros select. apply preserves_bind.
  { destruct (length select =? 1)%nat; [|apply preserves_ret].
    apply preserves_bind; [apply preserves_first|]. intros s.
    apply preserves_bind; [apply preserves_first|]. intros o.
    apply preserves_ret. }
  intros redirected.
  apply preserves_bind; [apply preserves_get_context|]. intros ctx.
  destruct (negb _); [apply preserves_ret|].
  apply preserves_bind; [apply preserves_first|]. intros sv.
  apply preserves_ret.
Qed.

(** ** State-variable handler selection *)

(** What the loops of [get_state_variables] do on a run in which the
    finders answer as [resolves_from], [fails_from] and [all_fail_from]
    say. *)
Lemma try_handler_resolves_from handler w found w' :
  resolves_from handler w found w' ->
  try_handler handler w = Returned true w'.
Proof.
  induction 1 as [w|var_name finder connector rest w sv w1 found w'
                    Hfind _ IH].
  - reflexivity.
  - cbn [try_handler]. rewrite (bind_returned _ _ _ _ _ Hfind).
    unfold bind at 1, update_context at 1. exact IH.
Qed.

Lemma try_handler_fails_from handler w found w' :
  fails_from handler w found w' ->
  try_handler handler w = Returned false w'.
Proof.
  intros (before & var_name & finder & connector & after & wm & -> & Hres
          & Hnone).
  revert Hnone.
  induction Hres as [w|var_name0 finder0 connector0 rest w sv w1 found wm
                       Hfind _ IH]; intros Hnone; cbn [app try_handler].
  - now rewrite (bind_returned _ _ _ _ _ Hnone).
  - rewrite (bind_returned _ _ _ _ _ Hfind).
    unfold bind at 1, update_context at 1. now apply IH.
Qed.

Lemma try_handlers_all_fail_from handlers w w' :
  all_fail_from handlers w w' ->
  forall rest i,
    try_handlers (handlers ++ rest) i w =
    try_handlers rest (i + length handlers) w'.
Proof.
  induction 1 as [w|handler handlers w found w1 w' Hfail _ IH];
    intros rest i; cbn [app length].
  - now rewrite Nat.add_0_r.
  - cbn [try_handlers].
    rewrite (bind_returned _ _ _ _ _ (try_handler_fails_from _ _ _ _ Hfail)).
    rewrite IH. now rewrite Nat.add_succ_r.
Qed.

Lemma try_handlers_first_wins earlier handler later i w w1 found w2 :
  all_fail_from earlier w w1 ->
  resolves_from handler w1 found w2 ->
  try_handlers (earlier ++ handler :: later) i w =
  Returned true {| g := g w2; context := context w2;
                   state_variable_handler := Some (i + length earlier);
                   INTERNAL_NAME := INTERNAL_NAME w2 |}.
Proof.
  intros Hfail Hres.
  rewrite (try_handlers_all_fail_from _ _ _ Hfail). cbn [try_handlers].
  now rewrite (bind_returned _ _ _ _ _ (try_handler_resolves_from _ _ _ _ Hres)).
Qed.

(** C5.  Handler selection is first-fully-resolving-wins.  Take a run of
    [get_state_variables] in which every handler before [handler] comes to
    a variable whose finder returns [None] and in which every finder of
    [handler] then returns a variable.  The call returns [True];
    [self.state_variable_handler] refers to [handler] itself, the entry at
    its position in the list; the context and the graph are those the
    finders of [handler] and the recording of their finds left; and the
    handlers after [handler] are not tried: the outcome and the final state
    are the same whatever handlers follow. *)
Theorem first_fully_resolving_handler_wins :
  forall V earlier handler later w w1 found w2,
    state_variable_handlers V = Some (earlier ++ handler :: later) ->
    all_fail_from earlier w w1 ->
    resolves_from handler w1 found w2 ->
    exists w',
      get_state_variables V w = Returned true w' /\
      state_variable_handler w' = Some (length earlier) /\
      nth_error (earlier ++ handler :: later) (length earlier) =
        Some handler /\
      context w' = context w2 /\
      g w' = g w2 /\
      forall V' later',
        state_variable_handlers V' = Some (earlier ++ handler :: later') ->
        get_state_variables V' w = Returned true w'.
Proof.
  intros V earlier handler later w w1 found w2 HV Hfail Hres.
  eexists. unfold get_state_variables. rewrite HV.
  split; [apply (try_handlers_first_wins _ _ _ _ _ _ _ _ Hfail Hres)|].
  cbn [state_variable_handler context g Nat.add].
  split; [reflexivity|]. split.
  { rewrite nth_error_app2 by apply Nat.le_refl. now rewrite Nat.sub_diag. }
  split; [reflexivity|]. split; [reflexivity|].
  intros V' later' HV'. rewrite HV'.
  exact (try_handlers_first_wins earlier handler later' 0 w w1 found w2
           Hfail Hres).
Qed.

(** The finders of [MoreExamples.loop_handlers] read the graph of
    [MoreExamples.masked_body]: the first handler finds ["c"] and fails on
    ["h"], the second finds ["h"]. *)
Lemma lstm_handler_fails_from :
  fails_from MoreExamples.lstm_handler MoreExamples.masked_body
    [("c", Examples.c_plain)] MoreExamples.c_recorded.
Proof.
  exists [("c", (MoreExamples.find_c [], Examples.no_connector))], "h",
    (MoreExamples.find_h [Examples.add_node_h]), Examples.no_connector, [],
    MoreExamples.c_recorded.
  split; [reflexivity|]. split.
  - apply (resolves_from_cons "c" _ _ [] MoreExamples.masked_body
             Examples.c_plain MoreExamples.masked_body [] _).
    + reflexivity.
    + apply resolves_from_nil.
  - reflexivity.
Defined.

Lemma gru_handler_resolves_from :
  resolves_from MoreExamples.gru_handler MoreExamples.c_recorded
    [("h", Examples.h_select)] MoreExamples.h_recorded.
Proof.
  apply (resolves_from_cons "h" _ _ [] MoreExamples.c_recorded
           Examples.h_select MoreExamples.c_recorded [] _).
  - reflexivity.
  - apply resolves_from_nil.
Defined.

Lemma loop_handlers_run :
  all_fail_from [MoreExamples.lstm_handler] MoreExamples.masked_body
    MoreExamples.c_recorded.
Proof.
  eapply all_fail_from_cons;
    [exact lstm_handler_fails_from | apply all_fail_from_nil].
Defined.

Lemma first_fully_resolving_handler_wins_witness :
  (state_variable_handlers
     (Examples.variant Examples.single_match MoreExamples.loop_handlers) =
     Some ([MoreExamples.lstm_handler] ++
           MoreExamples.gru_handler :: [MoreExamples.spare_handler]) /\
   all_fail_from [MoreExamples.lstm_handler] MoreExamples.masked_body
     MoreExamples.c_recorded /\
   resolves_from MoreExamples.gru_handler MoreExamples.c_recorded
     [("h", Examples.h_select)] MoreExamples.h_recorded) /\
  exists w',
    get_state_variables
      (Examples.variant Examples.single_match MoreExamples.loop_handlers)
      MoreExamples.masked_body = Returned true w' /\
    state_variable_handler w' = Some (length [MoreExamples.lstm_handler]) /\
    nth_error ([MoreExamples.lstm_handler] ++
               MoreExamples.gru_handler :: [MoreExamples.spare_handler])
      (length [MoreExamples.lstm_handler]) =
      Some MoreExamples.gru_handler /\
    context w' = context MoreExamples.h_recorded /\
    g w' = g MoreExamples.h_recorded /\
    forall V' later',
      state_variable_handlers V' =
        Some ([MoreExamples.lstm_handler] ++
              MoreExamples.gru_handler :: later') ->
      get_state_variables V' MoreExamples.masked_body = Returned true w'.
Proof.
  split; [split; [reflexivity|];
          split; [exact loop_handlers_run | exact gru_handler_resolves_from]|].
  exact (first_fully_resolving_handler_wins
           (Examples.variant Examples.single_match MoreExamples.loop_handlers)
           [MoreExamples.lstm_handler] MoreExamples.gru_handler
           [MoreExamples.spare_handler] MoreExamples.masked_body
           MoreExamples.c_recorded [("h", Examples.h_select)]
           MoreExamples.h_recorded eq_refl loop_handlers_run
           gru_handler_resolves_from).
Defined.

(** ** State variables found by a handler that fails are kept *)

Lemma set_state_variable_handler_recorded i :
  preserves recorded (set_state_variable_handler i).
Proof. now intros w. Qed.





Lemma resolves_from_keys handler w found w' :
  resolves_from handler w found w' -> keys found = keys handler.
Proof.
  induction 1 as [w|var_name finder connector rest w sv w1 found w' _ _ IH];
    [reflexivity|].
  unfold keys in *. cbn [map fst]. now rewrite IH.
Qed.




Lemma fails_from_keys handler w found w' :
  fails_from handler w found w' -> incl (keys found) (keys handler).
Proof.
  intros (before & var_name & finder & connector & after & wm & -> & Hres
          & _).
  rewrite (resolves_from_keys _ _ _ _ Hres).
  unfold keys. rewrite map_app. apply incl_appl, incl_refl.
Qed.



(** ** The single-scan-input check *)
















(** The same loop without masking is turned down with [False], and so is a
    loop with no scan input at all: nothing is indexed. *)
Example need_rewrite_two_inputs_unmasked :
  exists w',
    need_rewrite Examples.single_match Examples.unmasked_variant
      Examples.two_inputs = Returned false w'.
Proof. eexists. vm_compute. reflexivity. Qed.

Example need_rewrite_no_inputs_unmasked :
  exists w',
    need_rewrite Examples.single_match Examples.unmasked_variant
      Examples.no_inputs = Returned false w' /\
    onnx_input_ids (context w') = [].
Proof. eexists. split; [vm_compute; reflexivity | reflexivity]. Qed.

(** ** Sequence-length operand: the nodes that are built *)

Lemma added_nodes_app (w w' : World) (ns : list Node) :
  nodes (g w') = nodes (g w) ++ ns -> added_nodes w w' = ns.
Proof.
  intros H. unfold added_nodes. rewrite H.
  rewrite skipn_app, skipn_all, Nat.sub_diag. reflexivity.
Qed.

Ltac run_process_seq_length HX Hnone :=
  unfold process_seq_length, process_seq_length_with, bind at 1,
    get_context at 1;
  rewrite Hnone;
  unfold bind at 1, lookup at 1; rewrite HX;
  cbv [bind ret make_slice make_node first update_context get_graph
       add_node set_shape];
  cbn [output data axes starts ends g context state_variable_handler
       INTERNAL_NAME nodes output_shapes output_dtypes].

(** What one call of [make_node] that returned has done to the graph. *)
Lemma make_node_returned op ins attrs shapes dtypes w n w' :
  make_node op ins attrs shapes dtypes w = Returned n w' ->
  type n = op /\
  (exists o, output n = [o]) /\
  nodes (g w') = nodes (g w) ++ [n].
Proof.
  unfold make_node. intros H. injection H as <- <-.
  split; [reflexivity|]. split; [now eexists|].
  destruct shapes, dtypes; reflexivity.
Qed.

(** One statement of [process_seq_length] that returned. *)
Ltac made H n w Htype Hout Hnodes :=
  let o := fresh "o" in
  apply bind_inversion in H as (n & w & Hmade & H);
  apply make_node_returned in Hmade as (Htype & (o & Hout) & Hnodes);
  try (rewrite Hout in H; cbn [first] in H; rewrite bind_ret_l in H).

(** The synthesis path over any slice builder that only appends nodes:
    five nodes of [process_seq_length]'s own, and between them what the
    two calls of the builder add. *)
Lemma process_seq_length_with_synthesis make_slice w w' x :
  seq_len_node (context w) = None ->
  get "X" (onnx_input_ids (context w)) = Some x ->
  (forall a w0 o w1,
     make_slice a w0 = Returned o w1 ->
     exists extra, nodes (g w1) = nodes (g w0) ++ extra) ->
  process_seq_length_with make_slice w = Returned tt w' ->
  exists shape_node cast_shape_node batch_slice repeat_node time_slice
         tile_node cast_node,
    nodes (g w') =
      nodes (g w) ++
      [shape_node; cast_shape_node] ++ batch_slice ++
      [repeat_node] ++ time_slice ++ [tile_node; cast_node] /\
    map type [shape_node; cast_shape_node; repeat_node; tile_node; cast_node]
      = ["Shape"; "Cast"; "Cast"; "Tile"; "Cast"].
Proof.
  intros Hnone HX Happends Hrun.
  unfold process_seq_length_with, bind at 1, get_context at 1 in Hrun.
  rewrite Hnone in Hrun.
  unfold bind at 1, lookup at 1 in Hrun. rewrite HX in Hrun.
  made Hrun n1 w1 Ht1 Ho1 Hn1.
  unfold bind at 1, get_graph at 1 in Hrun.
  made Hrun n2 w2 Ht2 Ho2 Hn2.
  apply bind_inversion in Hrun as (b & w3 & Hslice1 & Hrun).
  apply Happends in Hslice1 as (extra1 & Hn3).
  apply bind_inversion in Hrun as (n7 & w8 & Hsynth & Hrun).
  made Hsynth n4 w4 Ht4 Ho4 Hn4.
  apply bind_inversion in Hsynth as (t & w5 & Hslice2 & Hsynth).
  apply Happends in Hslice2 as (extra2 & Hn5).
  rewrite bind_ret_l in Hsynth.
  made Hsynth n6 w6 Ht6 Ho6 Hn6.
  apply make_node_returned in Hsynth as (Ht7 & (o7 & Ho7) & Hn7).
  rewrite Ho7 in Hrun. cbn [first] in Hrun. rewrite bind_ret_l in Hrun.
  unfold update_context in Hrun. injection Hrun as <-.
  exists n1, n2, extra1, n4, extra2, n6, n7. split.
  - cbn [g nodes]. rewrite Hn7, Hn6, Hn5, Hn4, Hn3, Hn2, Hn1.
    repeat rewrite <- app_assoc. reflexivity.
  - cbn [map]. now rewrite Ht1, Ht2, Ht4, Ht6, Ht7.
Qed.

(** The slice builder in its attribute form adds its one node. *)
Lemma make_slice_appends a w0 o w1 :
  make_slice a w0 = Returned o w1 ->
  exists extra, nodes (g w1) = nodes (g w0) ++ extra.
Proof.
  unfold make_slice. intros H.
  apply bind_inversion in H as (n & w & Hmade & H).
  apply make_node_returned in Hmade as (_ & (o' & Hout) & Hnodes).
  rewrite Hout in H. injection H as _ <-. now exists [n].
Qed.

(** C7, as the code has it.  With no sequence-length node found and ["X"]
    bound, [process_seq_length] adds five nodes of its own -- Shape, Cast,
    Cast, Tile, Cast, in this order -- and, after the second and after the
    third of them, the nodes its two calls of [make_slice] add; the nodes
    that were in the graph stay in front of them as they were.  Whatever
    the slice builder adds, that is five nodes and more, never 4.  With the
    slice builder in its attribute form, one Slice node a call, it is
    exactly 7 nodes: Shape, Cast, Slice, Cast, Slice, Tile, Cast. *)
Theorem process_seq_length_synthesis_node_count :
  (forall make_slice w w' x,
     seq_len_node (context w) = None ->
     get "X" (onnx_input_ids (context w)) = Some x ->
     (forall a w0 o w1,
        make_slice a w0 = Returned o w1 ->
        exists extra, nodes (g w1) = nodes (g w0) ++ extra) ->
     process_seq_length_with make_slice w = Returned tt w' ->
     exists shape_node cast_shape_node batch_slice repeat_node time_slice
            tile_node cast_node,
       nodes (g w') = nodes (g w) ++ added_nodes w w' /\
       added_nodes w w' =
         [shape_node; cast_shape_node] ++ batch_slice ++
         [repeat_node] ++ time_slice ++ [tile_node; cast_node] /\
       map type
         [shape_node; cast_shape_node; repeat_node; tile_node; cast_node] =
         ["Shape"; "Cast"; "Cast"; "Tile"; "Cast"] /\
       length (added_nodes w w') =
         5 + length batch_slice + length time_slice /\
       length (added_nodes w w') <> 4)
  /\
  (forall w x,
     seq_len_node (context w) = None ->
     get "X" (onnx_input_ids (context w)) = Some x ->
     exists w',
       process_seq_length w = Returned tt w' /\
       nodes (g w') = nodes (g w) ++ added_nodes w w' /\
       length (added_nodes w w') = 7 /\
       map type (added_nodes w w') =
         ["Shape"; "Cast"; "Slice"; "Cast"; "Slice"; "Tile"; "Cast"]).
Proof.
  split.
  - intros make_slice w w' x Hnone HX Happends Hrun.
    destruct (process_seq_length_with_synthesis make_slice w w' x Hnone HX
                Happends Hrun)
      as (n1 & n2 & extra1 & n4 & extra2 & n6 & n7 & Hnodes & Htypes).
    exists n1, n2, extra1, n4, extra2, n6, n7.
    rewrite (added_nodes_app _ _ _ Hnodes).
    split; [exact Hnodes|]. split; [reflexivity|]. split; [exact Htypes|].
    assert (Hlen : length ([n1; n2] ++ extra1 ++ [n4] ++ extra2 ++ [n6; n7])
                   = 5 + length extra1 + length extra2).
    { repeat rewrite length_app. cbn [length]. lia. }
    split; [exact Hlen | lia].
  - intros w x Hnone HX.
    run_process_seq_length HX Hnone.
    eexists. split; [reflexivity|].
    match goal with
    | |- nodes (g ?w') = _ /\ _ =>
        assert (Happ : exists ns,
                  nodes (g w') = nodes (g w) ++ ns /\
                  map type ns =
                    ["Shape"; "Cast"; "Slice"; "Cast"; "Slice"; "Tile";
                     "Cast"])
    end.
    { eexists. split.
      - cbn [g nodes]. repeat rewrite <- app_assoc. cbn [app]. reflexivity.
      - reflexivity. }
    destruct Happ as (ns & Happ & Htypes).
    rewrite (added_nodes_app _ _ _ Happ).
    split; [exact Happ|]. split; [|exact Htypes].
    rewrite <- (length_map type), Htypes. reflexivity.
Qed.

Lemma process_seq_length_synthesis_node_count_witness :
  (seq_len_node (context Examples.ready) = None /\
   get "X" (onnx_input_ids (context Examples.ready)) =
     Some "rnn/transpose:0") /\
  (forall w',
     process_seq_length_with MoreExamples.slice_over_constants
       Examples.ready = Returned tt w' ->
     length (added_nodes Examples.ready w') <> 4) /\
  exists w',
    process_seq_length Examples.ready = Returned tt w' /\
    nodes (g w') = nodes (g Examples.ready) ++ added_nodes Examples.ready w' /\
    length (added_nodes Examples.ready w') = 7 /\
    map type (added_nodes Examples.ready w') =
      ["Shape"; "Cast"; "Slice"; "Cast"; "Slice"; "Tile"; "Cast"].
Proof.
  split; [split; reflexivity|]. split.
  - intros w' Hrun.
    assert (Happends : forall a w0 o w1,
      MoreExamples.slice_over_constants a w0 = Returned o w1 ->
      exists extra, nodes (g w1) = nodes (g w0) ++ extra).
    { intros a w0 o w1 H. injection H as _ <-. eexists.
      cbv [add_node]. cbn [g nodes]. repeat rewrite <- app_assoc.
      reflexivity. }
    destruct (proj1 process_seq_length_synthesis_node_count
                MoreExamples.slice_over_constants Examples.ready w'
                "rnn/transpose:0" eq_refl eq_refl Happends Hrun)
      as (? & ? & ? & ? & ? & ? & ? & _ & _ & _ & _ & Hnot). exact Hnot.
  - exact (proj2 process_seq_length_synthesis_node_count Examples.ready
             "rnn/transpose:0" eq_refl eq_refl).
Defined.

(** On a loop without masking the synthesized subgraph does not have 4
    nodes. *)
Lemma process_seq_length_synthesis_not_four_nodes :
  seq_len_node (context Examples.ready) = None /\
  exists w',
    process_seq_length Examples.ready = Returned tt w' /\
    length (added_nodes Examples.ready w') = 7 /\
    length (added_nodes Examples.ready w') <> 4.
Proof.
  split; [reflexivity|]. eexists. split; [vm_compute; reflexivity|].
  split; [reflexivity|]. vm_compute. discriminate.
Qed.

(** With a slice builder that passes the bounds as constant inputs, the
    same loop gets 13 nodes. *)
Example process_seq_length_over_constants :
  exists w',
    process_seq_length_with MoreExamples.slice_over_constants
      Examples.ready = Returned tt w' /\
    map type (added_nodes Examples.ready w') =
      ["Shape"; "Cast"; "Const"; "Const"; "Const"; "Slice"; "Cast";
       "Const"; "Const"; "Const"; "Slice"; "Tile"; "Cast"].
Proof. eexists. split; vm_compute; reflexivity. Qed.

(** With a sequence-length node found, the node's first output is bound to
    role ["sequence_lens"] -- and the graph still grows by the three nodes
    that are built before the test at line 240: Shape, Cast and Slice,
    which nothing consumes. *)
Lemma process_seq_length_explicit_source :
  forall w x n o outs,
    seq_len_node (context w) = Some n ->
    output n = o :: outs ->
    get "X" (onnx_input_ids (context w)) = Some x ->
    exists w',
      process_seq_length w = Returned tt w' /\
      onnx_input_ids (context w') =
        set "sequence_lens" o (onnx_input_ids (context w)) /\
      nodes (g w') = nodes (g w) ++ added_nodes w w' /\
      map type (added_nodes w w') = ["Shape"; "Cast"; "Slice"] /\
      map input (added_nodes w w') =
        [[x];
         [output_name (make_name "Shape" (1 + INTERNAL_NAME w)) 0];
         [output_name (make_name "Cast" (2 + INTERNAL_NAME w)) 0]].
Proof.
  intros w x n o outs Hsome Hout HX.
  run_process_seq_length HX Hsome. rewrite Hout.
  eexists. split; [reflexivity|].
  match goal with
  | |- _ /\ nodes (g ?w') = _ /\ _ =>
      assert (Happ : exists ns,
                nodes (g w') = nodes (g w) ++ ns /\
                map type ns = ["Shape"; "Cast"; "Slice"] /\
                map input ns =
                  [[x];
                   [output_name (make_name "Shape" (1 + INTERNAL_NAME w)) 0];
                   [output_name (make_name "Cast" (2 + INTERNAL_NAME w)) 0]])
  end.
  { eexists. split.
    - cbn [g nodes]. repeat rewrite <- app_assoc. cbn [app]. reflexivity.
    - split; reflexivity. }
  destruct Happ as (ns & Happ & Htypes & Hinputs).
  rewrite (added_nodes_app _ _ _ Happ).
  split; [reflexivity|]. now repeat split.
Qed.

(** C9 at a concrete loop whose sequence-length node was found: the
    explicit source is bound to ["sequence_lens"], and three new nodes
    (Shape, Cast, Slice) are added to the graph all the same. *)
Theorem process_seq_length_explicit_source_still_adds_nodes :
  seq_len_node (context Examples.ready_with_lengths) =
    Some Examples.seq_len_producer /\
  exists w',
    process_seq_length Examples.ready_with_lengths = Returned tt w' /\
    get "sequence_lens" (onnx_input_ids (context w')) =
      Some "rnn/sequence_length:0" /\
    length (added_nodes Examples.ready_with_lengths w') = 3 /\
    map type (added_nodes Examples.ready_with_lengths w') =
      ["Shape"; "Cast"; "Slice"] /\
    forall n i,
      In n (nodes (g w')) ->
      In i (flat_map output (added_nodes Examples.ready_with_lengths w')) ->
      In i (input n) -> In n (added_nodes Examples.ready_with_lengths w').
Proof.
  split; [reflexivity|]. eexists. split; [vm_compute; reflexivity|].
  split; [reflexivity|]. split; [reflexivity|]. split; [reflexivity|].
  intros n i Hn Hi Hin.
  change (added_nodes _ _) with
    (skipn 4 [Examples.transpose_node; Examples.seq_len_producer;
              Examples.add_node_h; Examples.select_node] ++
     [ {| name := "Shape__1"; type := "Shape"; input := ["rnn/transpose:0"];
          output := ["Shape__1:0"]; attr := [] |};
       {| name := "Cast__2"; type := "Cast"; input := ["Shape__1:0"];
          output := ["Cast__2:0"];
          attr := [("to", AInt TensorProto.FLOAT)] |};
       {| name := "Slice__3"; type := "Slice"; input := ["Cast__2:0"];
          output := ["Slice__3:0"];
          attr := [("starts", AInts [1%Z]); ("ends", AInts [2%Z]);
                   ("axes", AInts [0%Z])] |} ]) in *.
  cbn [skipn app flat_map output] in *.
  cbn [g nodes] in Hn.
  repeat (destruct Hn as [<-|Hn]; [|]); try contradiction;
    cbn [input In] in Hin;
    repeat (destruct Hi as [<-|Hi]; [|]); try contradiction;
    repeat (destruct Hin as [Hin|Hin]; try discriminate Hin);
    try contradiction; cbn; tauto.
Qed.

(** ** Output reconciliation *)

Lemma rewire_all (ops : list Node) (old new : Id) :
  map (fun n =>
         if existsb (fun o => String.eqb (name o) (name n)) ops
         then replace_input old new n else n) ops =
  map (replace_input old new) ops.
Proof.
  apply map_ext_in. intros n Hn.
  assert (H : existsb (fun o => String.eqb (name o) (name n)) ops = true).
  { apply existsb_exists. exists n. split; [exact Hn|].
    apply String.eqb_refl. }
  now rewrite H.
Qed.

Lemma replace_input_removes old new n :
  old <> new -> ~ In old (input (replace_input old new n)).
Proof.
  intros Hne Hin. cbn [replace_input input] in Hin.
  apply in_map_iff in Hin as (i & Hi & _).
  destruct (String.eqb_spec i old); congruence.
Qed.

(** Position by position, the inputs of a rewired node are those of the
    node, with [new] where [old] was. *)
Lemma replace_input_at old new n j i :
  nth_error (input n) j = Some i ->
  (i = old -> nth_error (input (replace_input old new n)) j = Some new) /\
  (i <> old -> nth_error (input (replace_input old new n)) j = Some i).
Proof.
  intros Hj. cbn [replace_input input]. rewrite nth_error_map.
  unfold Id in Hj. rewrite Hj. cbn [option_map].
  destruct (String.eqb_spec i old); split; intros; congruence.
Qed.

(** How [connect_unit_rnn_output_to_graph] runs when the loop has an exit
    and the fused node's first output has a shape of four or more
    dimensions. *)
Lemma connect_unit_rnn_output_run w first_exit exits rnn out outs
  d0 d1 d2 d3 more :
  scan_outputs_exits (loop_properties (context w)) = first_exit :: exits ->
  rnn_node (context w) = Some rnn ->
  output rnn = out :: outs ->
  get_shape (g w) out = Some (d0 :: d1 :: d2 :: d3 :: more) ->
  let squeeze_name := make_name "Squeeze" (S (INTERNAL_NAME w)) in
  let squeeze_out := output_name squeeze_name 0 in
  let squeeze_node :=
    {| name := squeeze_name; type := "Squeeze"; input := [out];
       output := [squeeze_out]; attr := [("axes", AInts [1%Z])] |} in
  exists w',
    connect_unit_rnn_output_to_graph w = Returned tt w' /\
    nodes (g w') =
      map (replace_input (id first_exit) squeeze_out)
        (nodes (g w) ++ [squeeze_node]) /\
    get_shape (g w') squeeze_out = Some [d0; d2; d3] /\
    context w' = context w /\
    state_variable_handler w' = state_variable_handler w /\
    get_dtype (g w') squeeze_out = get_dtype (g w) out.
Proof.
  intros Hexits Hrnn Hout Hshape squeeze_name squeeze_out squeeze_node.
  unfold connect_unit_rnn_output_to_graph, bind at 1, get_context at 1.
  rewrite Hexits, Hrnn.
  unfold bind at 1, ret at 1. rewrite Hout.
  unfold bind at 1, first at 1, ret at 1.
  unfold bind at 1, get_graph at 1. rewrite Hshape.
  cbv [bind ret index nth_error make_node first get_graph
       replace_all_inputs get_nodes add_node set_shape set_dtype].
  cbn [output g context state_variable_handler INTERNAL_NAME nodes
       output_shapes output_dtypes].
  fold squeeze_name. fold squeeze_out. fold squeeze_node.
  eexists. split; [reflexivity|].
  cbn [g nodes context state_variable_handler]. rewrite rewire_all.
  split; [reflexivity|]. split.
  { unfold get_shape. cbn [output_shapes]. now rewrite get_set_same. }
  split; [reflexivity|]. split; [reflexivity|].
  unfold get_dtype at 1. cbn [output_dtypes]. now rewrite get_set_same.
Qed.

(** C8.  When the loop's scan output has an exit, and the fused node's
    first output [out] -- another tensor than the exit -- has the recorded
    shape [T, 1, B, H], [connect_unit_rnn_output_to_graph] adds one node
    after those of the graph, a Squeeze of [out] over axis 1 alone, and
    records shape [T, B, H] and the dtype of [out] for its output.  Every
    node that was in the graph is still at its place with its name, type,
    outputs and attributes and as many inputs as before; each input that
    was the identifier of the first exit is now the Squeeze output, and
    each other input is what it was: every consumer of the exit reads the
    Squeeze output instead, and no node consumes the exit any more.  When
    the loop has no scan-output exit, nothing happens: no node is added and
    nothing is rewired. *)
Theorem connect_unit_rnn_output_squeezes_direction_axis :
  forall w,
    (forall first_exit exits rnn out outs T B H,
       scan_outputs_exits (loop_properties (context w)) =
         first_exit :: exits ->
       rnn_node (context w) = Some rnn ->
       output rnn = out :: outs ->
       get_shape (g w) out = Some [T; 1%Z; B; H] ->
       id first_exit <> out ->
       let squeeze_name := make_name "Squeeze" (S (INTERNAL_NAME w)) in
       let squeeze_out := output_name squeeze_name 0 in
       let squeeze_node :=
         {| name := squeeze_name; type := "Squeeze"; input := [out];
            output := [squeeze_out]; attr := [("axes", AInts [1%Z])] |} in
       exists w',
         connect_unit_rnn_output_to_graph w = Returned tt w' /\
         length (nodes (g w')) = S (length (nodes (g w))) /\
         nth_error (nodes (g w')) (length (nodes (g w))) =
           Some squeeze_node /\
         (forall k n,
            nth_error (nodes (g w)) k = Some n ->
            exists n',
              nth_error (nodes (g w')) k = Some n' /\
              name n' = name n /\ type n' = type n /\
              output n' = output n /\ attr n' = attr n /\
              length (input n') = length (input n) /\
              forall j i,
                nth_error (input n) j = Some i ->
                (i = id first_exit ->
                 nth_error (input n') j = Some squeeze_out) /\
                (i <> id first_exit ->
                 nth_error (input n') j = Some i)) /\
         get_shape (g w') squeeze_out = Some [T; B; H] /\
         get_dtype (g w') squeeze_out = get_dtype (g w) out /\
         context w' = context w /\
         (id first_exit <> squeeze_out ->
          forall n, In n (nodes (g w')) -> ~ In (id first_exit) (input n)))
    /\
    (scan_outputs_exits (loop_properties (context w)) = [] ->
     connect_unit_rnn_output_to_graph w = Returned tt w).
Proof.
  intros w. split.
  - intros first_exit exits rnn out outs T B H Hexits Hrnn Hout Hshape
      Hother squeeze_name squeeze_out squeeze_node.
    destruct (connect_unit_rnn_output_run w first_exit exits rnn out outs
                T 1%Z B H [] Hexits Hrnn Hout Hshape)
      as (w' & Hrun & Hnodes & Hsq & Hctx & _ & Hdtype).
    fold squeeze_name squeeze_out squeeze_node in Hnodes, Hsq, Hdtype.
    exists w'. split; [exact Hrun|]. rewrite Hnodes.
    split.
    { rewrite length_map, length_app. cbn [length]. apply Nat.add_1_r. }
    split.
    { rewrite nth_error_map, nth_error_app2 by apply Nat.le_refl.
      rewrite Nat.sub_diag. cbn [nth_error option_map]. f_equal.
      unfold replace_input, squeeze_node. cbn [input map name type output
        attr].
      destruct (String.eqb_spec out (id first_exit)) as [Heq|_];
        [now symmetry in Heq|reflexivity]. }
    split.
    { intros k n Hk. exists (replace_input (id first_exit) squeeze_out n).
      split.
      { rewrite nth_error_map, nth_error_app1
          by (apply nth_error_Some; congruence).
        now rewrite Hk. }
      repeat split; try reflexivity.
      - cbn [replace_input input]. apply length_map.
      - now apply replace_input_at.
      - now apply replace_input_at. }
    split; [exact Hsq|]. split; [exact Hdtype|]. split; [exact Hctx|].
    intros Hne n Hn. apply in_map_iff in Hn as (n0 & <- & _).
    now apply replace_input_removes.
  - intros Hexits.
    unfold connect_unit_rnn_output_to_graph, bind at 1, get_context at 1.
    now rewrite Hexits.
Qed.

Lemma connect_unit_rnn_output_squeezes_direction_axis_witness :
  ((scan_outputs_exits
      (loop_properties
         (context (Examples.rewritten [Examples.gather_exit]))) =
      [Examples.gather_exit] /\
    rnn_node (context (Examples.rewritten [Examples.gather_exit])) =
      Some Examples.gru_node /\
    output Examples.gru_node = ["GRU__8:0"; "GRU__8:1"] /\
    get_shape (g (Examples.rewritten [Examples.gather_exit])) "GRU__8:0" =
      Some [20; 1; 4; 16]%Z /\
    id Examples.gather_exit <> "GRU__8:0") /\
   exists w',
     connect_unit_rnn_output_to_graph
       (Examples.rewritten [Examples.gather_exit]) = Returned tt w' /\
     nth_error (nodes (g w')) 3 =
       Some {| name := "Squeeze__9"; type := "Squeeze";
               input := ["GRU__8:0"]; output := ["Squeeze__9:0"];
               attr := [("axes", AInts [1%Z])] |} /\
     (exists consumer,
        nth_error (nodes (g w')) 2 = Some consumer /\
        name consumer = "dense/Tensordot" /\
        nth_error (input consumer) 0 = Some "Squeeze__9:0" /\
        nth_error (input consumer) 1 = Some "dense/kernel:0") /\
     get_shape (g w') "Squeeze__9:0" = Some [20; 4; 16]%Z /\
     get_dtype (g w') "Squeeze__9:0" = Some TensorProto.FLOAT /\
     context w' = context (Examples.rewritten [Examples.gather_exit]) /\
     forall n,
       In n (nodes (g w')) ->
       ~ In "rnn/TensorArrayStack/TensorArrayGatherV3:0" (input n)) /\
  (scan_outputs_exits
     (loop_properties (context (Examples.rewritten []))) = [] /\
   connect_unit_rnn_output_to_graph (Examples.rewritten []) =
     Returned tt (Examples.rewritten [])).
Proof.
  assert (Hother : id Examples.gather_exit <> "GRU__8:0") by discriminate.
  split.
  - split; [repeat split; exact Hother|].
    destruct (proj1 (connect_unit_rnn_output_squeezes_direction_axis
                       (Examples.rewritten [Examples.gather_exit]))
                Examples.gather_exit [] Examples.gru_node
                "GRU__8:0" ["GRU__8:1"] 20%Z 4%Z 16%Z
                eq_refl eq_refl eq_refl eq_refl Hother)
      as (w' & Hrun & Hlen & Hsqueeze & Hkept & Hshape & Hdtype & Hctx
          & Hgone).
    exists w'. split; [exact Hrun|]. split; [exact Hsqueeze|]. split.
    { destruct (Hkept 2 Examples.gather_consumer eq_refl)
        as (consumer & Hat & Hname & _ & _ & _ & _ & Hinputs).
      exists consumer. split; [exact Hat|]. split; [exact Hname|]. split.
      - now apply (Hinputs 0 "rnn/TensorArrayStack/TensorArrayGatherV3:0").
      - apply (Hinputs 1 "dense/kernel:0"); [reflexivity | discriminate]. }
    split; [exact Hshape|]. split; [exact Hdtype|]. split; [exact Hctx|].
    apply Hgone. discriminate.
  - split; [reflexivity|].
    exact (proj2 (connect_unit_rnn_output_squeezes_direction_axis
                    (Examples.rewritten [])) eq_refl).
Defined.

(** ** Sequence-length operand: the tensor that is computed *)

(** *** Names of inserted nodes are distinct *)

Lemma string_length_append (a b : string) :
  String.length (a ++ b) = String.length a + String.length b.
Proof. induction a as [|c a IH]; cbn; [reflexivity | now rewrite IH]. Qed.

Lemma append_inj_l (a x y : string) :
  (a ++ x)%string = (a ++ y)%string -> x = y.
Proof.
  induction a as [|c a IH]; cbn; [trivial|].
  intros H. injection H as H. now apply IH.
Qed.

Lemma append_inj_r (x y s : string) :
  (x ++ s)%string = (y ++ s)%string -> x = y.
Proof.
  revert y. induction x as [|c x IH]; intros [|d y] H; cbn in H.
  - reflexivity.
  - apply (f_equal String.length) in H. cbn in H.
    rewrite string_length_append in H. lia.
  - apply (f_equal String.length) in H. cbn in H.
    rewrite string_length_append in H. lia.
  - injection H as -> H. f_equal. now apply IH.
Qed.

Lemma string_of_nat_inj n m : string_of_nat n = string_of_nat m -> n = m.
Proof.
  unfold string_of_nat. intros H.
  apply (f_equal NilEmpty.uint_of_string) in H.
  rewrite !NilEmpty.usu in H. injection H as H.
  apply (f_equal Nat.of_uint) in H. now rewrite !Unsigned.of_to in H.
Qed.

Lemma made_output_inj op n m :
  output_name (make_name op n) 0 = output_name (make_name op m) 0 -> n = m.
Proof.
  unfold output_name, make_name. intros H.
  apply append_inj_r, append_inj_l, append_inj_l in H.
  now apply string_of_nat_inj.
Qed.

Lemma made_output_same_op op n m :
  n <> m ->
  String.eqb (output_name (make_name op n) 0)
             (output_name (make_name op m) 0) = false.
Proof.
  intros Hne. apply String.eqb_neq. intros H. now apply made_output_inj in H.
Qed.

Lemma made_output_Cast_Slice n m :
  String.eqb (output_name (make_name "Cast" n) 0)
             (output_name (make_name "Slice" m) 0) = false.
Proof. reflexivity. Qed.

(** *** What [process_seq_length] leaves behind *)

Lemma process_seq_length_synthesis :
  forall w x,
    seq_len_node (context w) = None ->
    get "X" (onnx_input_ids (context w)) = Some x ->
    exists w',
      process_seq_length w = Returned tt w' /\
      nodes (g w') =
        nodes (g w) ++ synthesized_subgraph x (INTERNAL_NAME w) /\
      onnx_input_ids (context w') =
        set "sequence_lens"
          (output_name (make_name "Cast" (7 + INTERNAL_NAME w)) 0)
          (onnx_input_ids (context w)).
Proof.
  intros w x Hnone HX.
  run_process_seq_length HX Hnone.
  eexists. split; [reflexivity|]. split; [|reflexivity].
  cbn [g nodes]. repeat rewrite <- app_assoc. reflexivity.
Qed.

(** *** One node at a time *)

Lemma eval_step_Shape env nm x o attrs t :
  get x env = Some t ->
  eval_step env {| name := nm; type := "Shape"; input := [x];
                   output := [o]; attr := attrs |} =
  (o, onnx_Shape t) :: env.
Proof.
  intros Hx. unfold eval_step, eval_node. cbn [type input output].
  cbn [String.eqb Ascii.eqb Bool.eqb]. now rewrite Hx.
Qed.

Lemma eval_step_Cast env nm x o to t t' :
  get x env = Some t ->
  onnx_Cast to t = Some t' ->
  eval_step env {| name := nm; type := "Cast"; input := [x];
                   output := [o]; attr := [("to", AInt to)] |} =
  (o, t') :: env.
Proof.
  intros Hx Hcast. unfold eval_step, eval_node, attr_int.
  cbn [type input output attr get].
  cbn [String.eqb Ascii.eqb Bool.eqb]. now rewrite Hx, Hcast.
Qed.

Lemma eval_step_Slice env nm x o a s e t t' :
  get x env = Some t ->
  onnx_Slice a s e t = Some t' ->
  eval_step env {| name := nm; type := "Slice"; input := [x];
                   output := [o];
                   attr := [("starts", AInts s); ("ends", AInts e);
                            ("axes", AInts a)] |} =
  (o, t') :: env.
Proof.
  intros Hx Hslice. unfold eval_step, eval_node, attr_ints.
  cbn [type input output attr get].
  cbn [String.eqb Ascii.eqb Bool.eqb]. now rewrite Hx, Hslice.
Qed.

Lemma eval_step_Tile env nm x r o t rt t' :
  get x env = Some t ->
  get r env = Some rt ->
  onnx_Tile t rt = Some t' ->
  eval_step env {| name := nm; type := "Tile"; input := [x; r];
                   output := [o]; attr := [] |} =
  (o, t') :: env.
Proof.
  intros Hx Hr Htile. unfold eval_step, eval_node.
  cbn [type input output].
  cbn [String.eqb Ascii.eqb Bool.eqb]. now rewrite Hx, Hr, Htile.
Qed.

(** *** Casts that change nothing *)

Lemma f32_round_small z : (Z.abs z <= 2 ^ 24)%Z -> f32_round z = z.
Proof.
  intros H. unfold f32_round.
  destruct (Z.ltb_spec (Z.abs z) (2 ^ 24)) as [_|Hge]; [reflexivity|].
  assert (Habs : Z.abs z = (2 ^ 24)%Z) by lia.
  rewrite Habs.
  destruct (Z.abs_eq_or_opp z) as [Hz|Hz]; rewrite Hz in Habs.
  - subst z. reflexivity.
  - assert (z = (- 2 ^ 24)%Z) by lia. subst z. reflexivity.
Qed.

Lemma cast_elem_INT64 v :
  (- 2 ^ 63 <= v < 2 ^ 63)%Z -> cast_elem TensorProto.INT64 v = Some v.
Proof.
  intros [Hlo Hhi]. unfold cast_elem.
  change (TensorProto.INT64 =? TensorProto.FLOAT)%Z with false.
  change (TensorProto.INT64 =? TensorProto.INT32)%Z with false.
  change (TensorProto.INT64 =? TensorProto.INT64)%Z with true.
  cbv iota.
  destruct (Z.leb_spec (- 2 ^ 63) v); [|lia].
  destruct (Z.ltb_spec v (2 ^ 63)); [reflexivity | lia].
Qed.

Lemma cast_elem_INT32 v :
  (- 2 ^ 31 <= v < 2 ^ 31)%Z -> cast_elem TensorProto.INT32 v = Some v.
Proof.
  intros [Hlo Hhi]. unfold cast_elem.
  change (TensorProto.INT32 =? TensorProto.FLOAT)%Z with false.
  change (TensorProto.INT32 =? TensorProto.INT32)%Z with true.
  cbv iota.
  destruct (Z.leb_spec (- 2 ^ 31) v); [|lia].
  destruct (Z.ltb_spec v (2 ^ 31)); [reflexivity | lia].
Qed.

Lemma cast_elems_INT32_repeat v k :
  (- 2 ^ 31 <= v < 2 ^ 31)%Z ->
  cast_elems TensorProto.INT32 (repeat v k) = Some (repeat v k).
Proof.
  intros Hv. induction k as [|k IH]; cbn [repeat cast_elems].
  - reflexivity.
  - now rewrite cast_elem_INT32, IH.
Qed.

Lemma concat_repeat_singleton {A} (a : A) k :
  concat (repeat [a] k) = repeat a k.
Proof. induction k as [|k IH]; cbn; [reflexivity | now rewrite IH]. Qed.

(** *** The subgraph computes [B] copies of [T] *)

Ltac next_node :=
  match goal with
  | |- context [fold_left eval_step (?n :: ?ns) ?e] =>
      change (fold_left eval_step (n :: ns) e)
        with (fold_left eval_step ns (eval_step e n))
  end.

Ltac find_tensor :=
  cbn [get];
  rewrite ?made_output_Cast_Slice;
  rewrite ?made_output_same_op by lia;
  rewrite ?String.eqb_refl;
  reflexivity.

Lemma eval_synthesized_subgraph x c env tx T B F :
  get x env = Some tx ->
  dims tx = [T; B; F] ->
  (0 <= T < 2 ^ 31)%Z ->
  (0 <= B < 2 ^ 63)%Z ->
  f32_round T = T ->
  f32_round B = B ->
  get (output_name (make_name "Cast" (7 + c)) 0)
      (eval_nodes (synthesized_subgraph x c) env) =
  Some {| dtype := TensorProto.INT32;
          dims := [B];
          elems := repeat T (Z.to_nat B) |}.
Proof.
  intros Hx Hdims HT HB HfT HfB.
  unfold eval_nodes, synthesized_subgraph.
  (* Shape *)
  next_node. rewrite (eval_step_Shape _ _ _ _ _ _ Hx).
  unfold onnx_Shape. rewrite Hdims. cbn [length Z.of_nat Pos.of_succ_nat
    Pos.succ].
  (* Cast to float32 *)
  next_node.
  erewrite eval_step_Cast;
    [ | find_tensor
      | unfold onnx_Cast, cast_elems; cbn [elems dims];
        change (cast_elem TensorProto.FLOAT) with
          (fun v => Some (f32_round v));
        cbv beta; rewrite HfT, HfB; reflexivity ].
  (* Slice: the batch size *)
  next_node.
  erewrite eval_step_Slice
    with (t' := {| dtype := TensorProto.FLOAT; dims := [1%Z];
                   elems := [B] |});
    [ | find_tensor | reflexivity ].
  (* Cast of the batch size to int64 *)
  next_node.
  erewrite eval_step_Cast;
    [ | find_tensor
      | unfold onnx_Cast, cast_elems; cbn [elems dims];
        rewrite cast_elem_INT64 by lia; reflexivity ].
  (* Slice: the number of time steps *)
  next_node.
  erewrite eval_step_Slice
    with (t' := {| dtype := TensorProto.FLOAT; dims := [1%Z];
                   elems := [T] |});
    [ | find_tensor | reflexivity ].
  (* Tile *)
  next_node.
  erewrite eval_step_Tile;
    [ | find_tensor | find_tensor
      | unfold onnx_Tile; cbn [dims elems dtype];
        change (TensorProto.INT64 =? TensorProto.INT64)%Z with true;
        destruct (Z.leb_spec 0 B) as [_|Hneg]; [|lia];
        cbn [andb]; rewrite concat_repeat_singleton, repeat_length,
          Z2Nat.id by lia; reflexivity ].
  (* Cast to int32 *)
  next_node.
  erewrite eval_step_Cast;
    [ | find_tensor
      | unfold onnx_Cast; cbn [elems dims];
        rewrite cast_elems_INT32_repeat by lia; reflexivity ].
  cbn [fold_left]. find_tensor.
Qed.

(** C6, as the code has it.  With no sequence-length node found and an
    input ["X"] of shape [T, B, F] -- of whatever element type and
    contents -- the tensor [process_seq_length] binds to role
    ["sequence_lens"] is an int32 tensor of [B] elements, each equal to
    [T], provided [T] and [B] survive the cast of the shape to float32
    (line 231) unchanged and [T] fits int32.  The shape passes through
    float32 because, as line 230 says, Slice cannot take int64 there. *)
Theorem synthesized_lengths_are_B_copies_of_T :
  forall w env x tx T B F,
    seq_len_node (context w) = None ->
    get "X" (onnx_input_ids (context w)) = Some x ->
    get x env = Some tx ->
    dims tx = [T; B; F] ->
    (0 <= T < 2 ^ 31)%Z ->
    (0 <= B < 2 ^ 63)%Z ->
    f32_round T = T ->
    f32_round B = B ->
    synthesized_lengths w env =
      Some {| dtype := TensorProto.INT32;
              dims := [B];
              elems := repeat T (Z.to_nat B) |}.
Proof.
  intros w env x tx T B F Hnone HX Hx Hdims HT HB HfT HfB.
  destruct (process_seq_length_synthesis w x Hnone HX)
    as (w' & Hrun & Hnodes & Hids).
  unfold synthesized_lengths. rewrite Hrun, Hids, get_set_same.
  rewrite (added_nodes_app _ _ _ Hnodes).
  now apply eval_synthesized_subgraph with (tx := tx) (F := F).
Qed.

Lemma synthesized_lengths_are_B_copies_of_T_witness :
  (seq_len_node (context Examples.ready) = None /\
   get "X" (onnx_input_ids (context Examples.ready)) =
     Some "rnn/transpose:0" /\
   get "rnn/transpose:0" Examples.x_small =
     Some {| dtype := TensorProto.FLOAT; dims := [5; 2; 3]%Z;
             elems := [] |} /\
   dims {| dtype := TensorProto.FLOAT; dims := [5; 2; 3]%Z; elems := [] |} =
     [5; 2; 3]%Z /\
   (0 <= 5 < 2 ^ 31)%Z /\
   (0 <= 2 < 2 ^ 63)%Z /\
   f32_round 5 = 5%Z /\
   f32_round 2 = 2%Z) /\
  synthesized_lengths Examples.ready Examples.x_small =
    Some {| dtype := TensorProto.INT32;
            dims := [2%Z];
            elems := repeat 5%Z (Z.to_nat 2) |}.
Proof.
  assert (HT : (0 <= 5 < 2 ^ 31)%Z) by lia.
  assert (HB : (0 <= 2 < 2 ^ 63)%Z) by lia.
  split; [repeat split; try reflexivity; lia|].
  exact (synthesized_lengths_are_B_copies_of_T Examples.ready
           Examples.x_small "rnn/transpose:0"
           {| dtype := TensorProto.FLOAT; dims := [5; 2; 3]%Z;
              elems := [] |}
           5%Z 2%Z 3%Z eq_refl eq_refl eq_refl eq_refl HT HB
           eq_refl eq_refl).
Defined.

(** Every length up to [2 ^ 24] survives the cast to float32. *)
Corollary synthesized_lengths_up_to_2_pow_24 :
  forall w env x tx T B F,
    seq_len_node (context w) = None ->
    get "X" (onnx_input_ids (context w)) = Some x ->
    get x env = Some tx ->
    dims tx = [T; B; F] ->
    (0 <= T <= 2 ^ 24)%Z ->
    (0 <= B <= 2 ^ 24)%Z ->
    synthesized_lengths w env =
      Some {| dtype := TensorProto.INT32;
              dims := [B];
              elems := repeat T (Z.to_nat B) |}.
Proof.
  intros w env x tx T B F Hnone HX Hx Hdims HT HB.
  assert (H31 : (2 ^ 24 < 2 ^ 31)%Z) by reflexivity.
  assert (H63 : (2 ^ 24 < 2 ^ 63)%Z) by reflexivity.
  destruct (process_seq_length_synthesis w x Hnone HX)
    as (w' & Hrun & Hnodes & Hids).
  unfold synthesized_lengths. rewrite Hrun, Hids, get_set_same.
  rewrite (added_nodes_app _ _ _ Hnodes).
  apply eval_synthesized_subgraph with (tx := tx) (F := F);
    trivial; try lia;
    apply f32_round_small; rewrite Z.abs_eq; lia.
Qed.

(** For an input of 16777217 time steps ([2 ^ 24 + 1], which float32
    cannot represent) and batch size 2, the synthesized lengths are
    [16777216, 16777216], not two copies of 16777217. *)
Lemma synthesized_lengths_long_sequence :
  seq_len_node (context Examples.ready) = None /\
  get "X" (onnx_input_ids (context Examples.ready)) =
    Some "rnn/transpose:0" /\
  option_map dims (get "rnn/transpose:0" Examples.x_long) =
    Some [16777217; 2; 3]%Z /\
  synthesized_lengths Examples.ready Examples.x_long =
    Some {| dtype := TensorProto.INT32;
            dims := [2%Z];
            elems := [16777216; 16777216]%Z |} /\
  synthesized_lengths Examples.ready Examples.x_long <>
    Some {| dtype := TensorProto.INT32;
            dims := [2%Z];
            elems := repeat 16777217%Z (Z.to_nat 2) |}.
Proof.
  assert (H : synthesized_lengths Examples.ready Examples.x_long =
    Some {| dtype := TensorProto.INT32;
            dims := [2%Z];
            elems := [16777216; 16777216]%Z |}) by (vm_compute; reflexivity).
  repeat split; try reflexivity; try exact H.
  rewrite H. vm_compute. discriminate.
Qed.

(** * Further properties of the rewriter *)

(** ** The select-aware state-variable finder *)

Lemma existsb_eqb_In (i : Id) (l : list Id) :
  existsb (String.eqb i) l = true <-> In i l.
Proof.
  rewrite existsb_exists. split.
  - intros (x & Hx & Heq). apply String.eqb_eq in Heq. now subst.
  - intros H. exists i. split; [exact H | apply String.eqb_refl].
Qed.

Lemma find_output_consumers_spec gr i n :
  In n (find_output_consumers gr i) <-> In n (nodes gr) /\ In i (input n).
Proof.
  unfold find_output_consumers. rewrite filter_In, existsb_eqb_In. tauto.
Qed.

(** The select nodes the loop keeps: each is one of the consumers, is a
    select, has an output, and no TensorArrayWrite reads that output. *)
Lemma selects_without_writer_run E Q gr consumers w :
  (exists e, selects_without_writer E Q gr consumers w = Raised e w) \/
  (exists select,
     selects_without_writer E Q gr consumers w = Returned select w /\
     forall s, In s select ->
       In s consumers /\
       is_tf_select_op E s = true /\
       exists o outs,
         output s = o :: outs /\
         filter (is_tf_tensor_array_write_op Q)
                (find_output_consumers gr o) = []).
Proof.
  induction consumers as [|c rest IH]; cbn [selects_without_writer].
  - right. exists []. split; [reflexivity|]. intros s [].
  - destruct (is_tf_select_op E c) eqn:Hsel; cbn [negb].
    + destruct (output c) as [|o outs] eqn:Hout.
      * left. exists IndexError. reflexivity.
      * cbn [first]. rewrite bind_ret_l.
        destruct (filter (is_tf_tensor_array_write_op Q)
                         (find_output_consumers gr o)) as [|t ts] eqn:Hta.
        -- destruct IH as [[e He]|(select & Hrun & Hall)].
           ++ left. exists e. unfold bind. now rewrite He.
           ++ right. exists (c :: select). split.
              ** unfold bind. now rewrite Hrun.
              ** intros s [<-|Hs].
                 --- split; [now left|]. split; [exact Hsel|].
                     now exists o, outs.
                 --- destruct (Hall s Hs) as (Hin & Hrest).
                     split; [now right | exact Hrest].
        -- destruct IH as [[e He]|(select & Hrun & Hall)].
           ++ left. now exists e.
           ++ right. exists select. split; [exact Hrun|].
              intros s Hs. destruct (Hall s Hs) as (Hin & Hrest).
              split; [now right | exact Hrest].
    + destruct IH as [[e He]|(select & Hrun & Hall)].
      * left. now exists e.
      * right. exists select. split; [exact Hrun|].
        intros s Hs. destruct (Hall s Hs) as (Hin & Hrest).
        split; [now right | exact Hrest].
Qed.

(** How a call that returns has run. *)
Lemma find_state_variable_with_select_run E Q next_id consumers w r
  consumers' w' :
  _find_state_variable_with_select E Q next_id consumers w =
    Returned (r, consumers') w' ->
  w' = w /\
  exists next_id',
    ((next_id' = next_id /\ consumers' = consumers) \/
     (exists s outs,
        consumers' = consumers ++ [s] /\
        In s (find_output_consumers (g w) next_id) /\
        is_tf_select_op E s = true /\
        output s = next_id' :: outs /\
        filter (is_tf_tensor_array_write_op Q)
               (find_output_consumers (g w) next_id') = [])) /\
    r = match filter (checker next_id' consumers')
                (all_variables Q (loop_properties (context w))) with
        | [sv] => Some sv
        | _ => None
        end.
Proof.
  unfold _find_state_variable_with_select, bind at 1, get_graph at 1.
  destruct (selects_without_writer_run E Q (g w)
              (find_output_consumers (g w) next_id) w)
    as [[e He]|(select & Hrun & Hall)].
  { unfold bind at 1. rewrite He. discriminate. }
  unfold bind at 1. rewrite Hrun.
  assert (Hfin : forall nid cs,
    (ctx <- get_context ;;
     (let state_variables :=
        get_variables Q (loop_properties ctx) (checker nid cs) in
      if negb (length state_variables =? 1)%nat then ret (None, cs)
      else (sv <- first state_variables ;; ret (Some sv, cs)))) w =
    Returned (match filter (checker nid cs)
                      (all_variables Q (loop_properties (context w))) with
              | [sv] => Some sv
              | _ => None
              end, cs) w).
  { intros nid cs. unfold bind at 1, get_context at 1, get_variables.
    destruct (filter (checker nid cs)
                (all_variables Q (loop_properties (context w))))
      as [|sv [|sv2 rest]]; reflexivity. }
  destruct select as [|s [|s2 rest]]; cbn [length Nat.eqb].
  - unfold bind at 1, ret at 1. cbn [fst snd]. rewrite Hfin.
    intros H. injection H as <- <- <-. split; [reflexivity|].
    exists next_id. split; [now left | reflexivity].
  - destruct (Hall s (or_introl eq_refl))
      as (Hin & Hsel & o & outs & Hout & Hta).
    unfold bind at 1. unfold bind at 1. cbn [first ret].
    unfold bind at 1. rewrite Hout. cbn [first ret fst snd]. rewrite Hfin.
    intros H. injection H as <- <- <-. split; [reflexivity|].
    exists o. split; [|reflexivity]. right. now exists s, outs.
  - unfold bind at 1, ret at 1. cbn [fst snd]. rewrite Hfin.
    intros H. injection H as <- <- <-. split; [reflexivity|].
    exists next_id. split; [now left | reflexivity].
Qed.

Lemma checker_spec next_id consumers sv :
  checker next_id consumers sv = true <->
  id (next_iteration_input sv) = next_id /\
  forall c, In c consumers ->
    In (id (switch_true_identity_output sv)) (input c).
Proof.
  unfold checker.
  destruct (String.eqb_spec (id (next_iteration_input sv)) next_id)
    as [Heq|Hne]; cbn [negb].
  - rewrite forallb_forall. split.
    + intros H. split; [exact Heq|]. intros c Hc.
      now apply existsb_eqb_In, H.
    + intros [_ H] c Hc. now apply existsb_eqb_In, H.
  - split; [discriminate | tauto].
Qed.

Lemma selects_without_writer_complete E Q gr consumers w select w' :
  selects_without_writer E Q gr consumers w = Returned select w' ->
  forall c o outs,
    In c consumers ->
    is_tf_select_op E c = true ->
    output c = o :: outs ->
    filter (is_tf_tensor_array_write_op Q) (find_output_consumers gr o) = [] ->
    In c select.
Proof.
  revert select.
  induction consumers as [|c0 rest IH]; intros select Hrun c o outs Hin Hsel
    Hout Hta; [destruct Hin|].
  cbn [selects_without_writer] in Hrun.
  destruct (is_tf_select_op E c0) eqn:Hsel0; cbn [negb] in Hrun.
  - destruct (output c0) as [|o0 outs0] eqn:Hout0; [discriminate Hrun|].
    cbn [first] in Hrun. rewrite bind_ret_l in Hrun.
    destruct (filter (is_tf_tensor_array_write_op Q)
                     (find_output_consumers gr o0)) as [|t ts] eqn:Hta0.
    + unfold bind in Hrun.
      destruct (selects_without_writer E Q gr rest w) as [sel w1|e w1] eqn:Hr;
        [|discriminate Hrun].
      injection Hrun as <- <-.
      destruct Hin as [<-|Hin]; [now left|].
      right. now apply (IH sel eq_refl c o outs).
    + destruct Hin as [<-|Hin].
      * rewrite Hout in Hout0. injection Hout0 as <- <-.
        rewrite Hta in Hta0. discriminate Hta0.
      * now apply (IH select Hrun c o outs).
  - destruct Hin as [<-|Hin]; [congruence|].
    now apply (IH select Hrun c o outs).
Qed.

(** X1.  When [_find_state_variable_with_select] returns a state variable,
    that variable is one of the loop's variables; its
    switch-true-identity output is an input of every consumer the caller
    listed; its next-iteration input is the identifier asked for, or the
    output of a select node that consumes that identifier; and it is the
    only variable of the loop with that next-iteration input that all the
    consumers in the final list read. *)
Theorem find_state_variable_with_select_sound :
  forall E Q next_id consumers w sv consumers' w',
    _find_state_variable_with_select E Q next_id consumers w =
      Returned (Some sv, consumers') w' ->
    let variables := all_variables Q (loop_properties (context w)) in
    In sv variables /\
    (forall c, In c consumers ->
       In (id (switch_true_identity_output sv)) (input c)) /\
    (id (next_iteration_input sv) = next_id \/
     exists s outs,
       In s (nodes (g w)) /\ In next_id (input s) /\
       is_tf_select_op E s = true /\
       output s = id (next_iteration_input sv) :: outs /\
       In (id (switch_true_identity_output sv)) (input s)) /\
    forall sv',
      In sv' variables ->
      id (next_iteration_input sv') = id (next_iteration_input sv) ->
      (forall c, In c consumers' ->
         In (id (switch_true_identity_output sv')) (input c)) ->
      sv' = sv.
Proof.
  intros E Q next_id consumers w sv consumers' w' Hrun variables.
  apply find_state_variable_with_select_run in Hrun
    as (-> & next_id' & Hredirect & Hresult).
  fold variables in Hresult.
  destruct (filter (checker next_id' consumers') variables)
    as [|sv0 [|sv1 rest]] eqn:Hfilter; try discriminate Hresult.
  injection Hresult as ->.
  assert (Hin : In sv0 (filter (checker next_id' consumers') variables))
    by (rewrite Hfilter; now left).
  apply filter_In in Hin as (Hvar & Hcheck).
  apply checker_spec in Hcheck as (Hnext & Hconsumed).
  split; [exact Hvar|]. split; [|split].
  - intros c Hc. apply Hconsumed.
    destruct Hredirect as [[_ ->]|(s & outs & -> & _)]; [exact Hc|].
    apply in_or_app. now left.
  - destruct Hredirect as [[-> _]|(s & outs & -> & Hs & Hsel & Hout & _)].
    + now left.
    + right. exists s, outs. apply find_output_consumers_spec in Hs as [? ?].
      repeat split; trivial.
      * now rewrite Hnext.
      * apply Hconsumed, in_or_app. right. now left.
  - intros sv' Hvar' Hsame Hcons'.
    assert (Hin' : In sv' (filter (checker next_id' consumers') variables)).
    { apply filter_In. split; [exact Hvar'|]. apply checker_spec.
      split; [congruence | exact Hcons']. }
    rewrite Hfilter in Hin'. destruct Hin' as [<-|[]]. reflexivity.
Qed.

Lemma find_state_variable_with_select_sound_witness :
  _find_state_variable_with_select Examples.single_match MoreExamples.queries
    "rnn/while/gru_cell/add:0" [MoreExamples.switch_consumer]
    MoreExamples.masked_body =
    Returned (Some Examples.h_select,
              [MoreExamples.switch_consumer; MoreExamples.masking_select])
      MoreExamples.masked_body /\
  In Examples.h_select
     (all_variables MoreExamples.queries
        (loop_properties (context MoreExamples.masked_body))) /\
  (forall c, In c [MoreExamples.switch_consumer] ->
     In (id (switch_true_identity_output Examples.h_select)) (input c)).
Proof.
  assert (H : _find_state_variable_with_select Examples.single_match
    MoreExamples.queries "rnn/while/gru_cell/add:0"
    [MoreExamples.switch_consumer] MoreExamples.masked_body =
    Returned (Some Examples.h_select,
              [MoreExamples.switch_consumer; MoreExamples.masking_select])
      MoreExamples.masked_body) by reflexivity.
  split; [exact H|].
  pose proof (find_state_variable_with_select_sound _ _ _ _ _ _ _ _ H)
    as (H1 & H2 & _).
  split; [exact H1 | exact H2].
Defined.

(** X2.  The consumer list the caller passes in is extended, by at most one
    node and whether or not a state variable is found: after a call that
    returns, the list is as it was, or it has one more node at its end,
    which is then the only select node of the graph that consumes the
    given identifier and whose first output no TensorArrayWrite reads; in
    that case a variable that is returned has that output as its
    next-iteration input. *)
Theorem find_state_variable_with_select_extends_consumers :
  forall E Q next_id consumers w r consumers' w',
    _find_state_variable_with_select E Q next_id consumers w =
      Returned (r, consumers') w' ->
    let unmasked s o :=
      In s (nodes (g w)) /\ In next_id (input s) /\
      is_tf_select_op E s = true /\
      (exists outs, output s = o :: outs) /\
      forall n, In n (nodes (g w)) -> In o (input n) ->
                is_tf_tensor_array_write_op Q n = false in
    (consumers' = consumers /\
     forall sv, r = Some sv -> id (next_iteration_input sv) = next_id) \/
    (exists s o,
       consumers' = consumers ++ [s] /\
       unmasked s o /\
       (forall s' o', unmasked s' o' -> s' = s) /\
       forall sv, r = Some sv -> id (next_iteration_input sv) = o).
Proof.
  intros E Q next_id consumers w r consumers' w' Hrun unmasked.
  assert (Hno_writer : forall o,
    filter (is_tf_tensor_array_write_op Q)
           (find_output_consumers (g w) o) = [] <->
    forall n, In n (nodes (g w)) -> In o (input n) ->
              is_tf_tensor_array_write_op Q n = false).
  { intros o. split.
    - intros Hnil n Hn Hi.
      destruct (is_tf_tensor_array_write_op Q n) eqn:Hw; [|reflexivity].
      assert (Hin : In n (filter (is_tf_tensor_array_write_op Q)
                            (find_output_consumers (g w) o))).
      { apply filter_In. split; [|exact Hw].
        now apply find_output_consumers_spec. }
      rewrite Hnil in Hin. destruct Hin.
    - intros Hall.
      destruct (filter (is_tf_tensor_array_write_op Q)
                  (find_output_consumers (g w) o)) as [|n l] eqn:Hf;
        [reflexivity|].
      assert (Hin : In n (filter (is_tf_tensor_array_write_op Q)
                            (find_output_consumers (g w) o)))
        by (rewrite Hf; now left).
      apply filter_In in Hin as (Hc & Hw).
      apply find_output_consumers_spec in Hc as (Hn & Hi).
      rewrite (Hall n Hn Hi) in Hw. discriminate Hw. }
  pose proof Hrun as Hrun0.
  apply find_state_variable_with_select_run in Hrun
    as (-> & next_id' & Hredirect & Hresult).
  assert (Hnext : forall sv, r = Some sv ->
                             id (next_iteration_input sv) = next_id').
  { intros sv ->.
    destruct (filter (checker next_id' consumers')
                (all_variables Q (loop_properties (context w))))
      as [|sv0 [|sv1 rest]] eqn:Hfilter; try discriminate Hresult.
    injection Hresult as <-.
    assert (Hin : In sv (filter (checker next_id' consumers')
                           (all_variables Q (loop_properties (context w)))))
      by (rewrite Hfilter; now left).
    apply filter_In in Hin as (_ & Hcheck).
    now apply checker_spec in Hcheck as (Hn & _). }
  destruct Hredirect as [[-> ->]|(s & outs & -> & Hs & Hsel & Hout & Hta)].
  - left. split; [reflexivity | exact Hnext].
  - right. exists s, next_id'. split; [reflexivity|].
    apply find_output_consumers_spec in Hs as (Hn & Hi).
    split; [|split; [|exact Hnext]].
    + repeat split; trivial; [now exists outs | now apply Hno_writer].
    + intros s' o' (Hn' & Hi' & Hsel' & (outs' & Hout') & Hw').
      (* the loop kept exactly one node, so [s'] is that node *)
      revert Hrun0.
      unfold _find_state_variable_with_select, bind at 1, get_graph at 1.
      destruct (selects_without_writer_run E Q (g w)
                  (find_output_consumers (g w) next_id) w)
        as [[e He]|(select & Hsels & Hall)].
      { unfold bind at 1. rewrite He. discriminate. }
      assert (Hs' : In s' select).
      { eapply selects_without_writer_complete; eauto.
        - now apply find_output_consumers_spec.
        - now apply Hno_writer. }
      assert (Hs0 : In s select).
      { eapply selects_without_writer_complete; eauto.
        now apply find_output_consumers_spec. }
      unfold bind at 1. rewrite Hsels.
      destruct select as [|s1 [|s2 rest]].
      * destruct Hs'.
      * intros _. destruct Hs' as [<-|[]]. destruct Hs0 as [<-|[]].
        reflexivity.
      * cbn [length Nat.eqb]. unfold bind at 1, ret at 1. cbn [fst snd].
        unfold bind at 1, get_context at 1.
        destruct (negb _); [|unfold bind at 1; destruct (first _ _)];
          intros H; try discriminate H; injection H as _ Hlist;
          apply (f_equal (@length Node)) in Hlist;
          rewrite length_app in Hlist; cbn in Hlist; lia.
Qed.

Lemma find_state_variable_with_select_extends_consumers_witness :
  _find_state_variable_with_select Examples.single_match MoreExamples.queries
    "rnn/while/gru_cell/add:0" [MoreExamples.switch_consumer]
    MoreExamples.masked_body =
    Returned (Some Examples.h_select,
              [MoreExamples.switch_consumer; MoreExamples.masking_select])
      MoreExamples.masked_body /\
  exists s o,
    [MoreExamples.switch_consumer; MoreExamples.masking_select] =
      [MoreExamples.switch_consumer] ++ [s] /\
    In s (nodes (g MoreExamples.masked_body)) /\
    is_tf_select_op Examples.single_match s = true /\
    (exists outs, output s = o :: outs) /\
    id (next_iteration_input Examples.h_select) = o.
Proof.
  assert (H : _find_state_variable_with_select Examples.single_match
    MoreExamples.queries "rnn/while/gru_cell/add:0"
    [MoreExamples.switch_consumer] MoreExamples.masked_body =
    Returned (Some Examples.h_select,
              [MoreExamples.switch_consumer; MoreExamples.masking_select])
      MoreExamples.masked_body) by reflexivity.
  split; [exact H|].
  destruct (find_state_variable_with_select_extends_consumers
              _ _ _ _ _ _ _ _ H)
    as [[Heq _]|(s & o & Hl & (Hn & _ & Hsel & Hout & _) & _ & Hnext)].
  - discriminate Heq.
  - exists s, o. repeat split; trivial. now apply Hnext.
Defined.

Lemma selects_without_writer_reads_only E Q gr consumers :
  preserves (fun w => w) (selects_without_writer E Q gr consumers).
Proof.
  intros w.
  destruct (selects_without_writer_run E Q gr consumers w)
    as [[e ->]|(select & -> & _)]; reflexivity.
Qed.

(** X3.  [_find_state_variable_with_select] only reads: whether it returns
    or raises, the graph, the context and the rewriter's fields are what
    they were.  A finder built on it therefore leaves every part of the
    state as it finds it. *)
Theorem find_state_variable_with_select_reads_only :
  forall E Q next_id consumers,
    (forall w,
       world_of (_find_state_variable_with_select E Q next_id consumers w)
       = w) /\
    (forall (B : Type) (f : World -> B),
       preserves f (select_finder E Q next_id consumers)).
Proof.
  intros E Q next_id consumers.
  assert (Hread : preserves (fun w => w)
            (_find_state_variable_with_select E Q next_id consumers)).
  { unfold _find_state_variable_with_select.
    apply preserves_bind; [apply preserves_get_graph|]. intros gr.
    apply preserves_bind; [apply selects_without_writer_reads_only|].
    intros select. apply preserves_bind.
    { destruct (length select =? 1)%nat; [|apply preserves_ret].
      apply preserves_bind; [apply preserves_first|]. intros s.
      apply preserves_bind; [apply preserves_first|]. intros o.
      apply preserves_ret. }
    intros redirected.
    apply preserves_bind; [apply preserves_get_context|]. intros ctx.
    destruct (negb _); [apply preserves_ret|].
    apply preserves_bind; [apply preserves_first|]. intros sv.
    apply preserves_ret. }
  split; [exact Hread|].
  intros B f w. unfold select_finder, bind.
  specialize (Hread w).
  destruct (_find_state_variable_with_select E Q next_id consumers w)
    as [r w'|e w']; cbn [world_of ret] in *; now subst.
Qed.

(** ** The feasibility check *)

(** What a run of the loops that answered [False] was. *)
Lemma try_handler_false handler :
  forall w w',
    try_handler handler w = Returned false w' ->
    exists found, fails_from handler w found w'.
Proof.
  induction handler as [|[var_name [finder connector]] rest IH];
    intros w w' Hrun; cbn [try_handler] in Hrun; [discriminate Hrun|].
  apply bind_inversion in Hrun as ([sv|] & w1 & Hfind & Hrun).
  - unfold bind at 1, update_context at 1 in Hrun.
    apply IH in Hrun
      as (found & before & name0 & finder0 & connector0 & after & wm & ->
          & Hres & Hnone).
    exists ((var_name, sv) :: found),
      ((var_name, (finder, connector)) :: before), name0, finder0,
      connector0, after, wm.
    split; [reflexivity|]. split; [|exact Hnone].
    eapply resolves_from_cons; eassumption.
  - injection Hrun as <-.
    exists [], [], var_name, finder, connector, rest, w.
    split; [reflexivity|]. split; [apply resolves_from_nil | exact Hfind].
Qed.

Lemma try_handlers_false handlers :
  forall i w w',
    try_handlers handlers i w = Returned false w' ->
    all_fail_from handlers w w'.
Proof.
  induction handlers as [|h rest IH]; intros i w w' Hrun;
    cbn [try_handlers] in Hrun.
  - injection Hrun as <-. apply all_fail_from_nil.
  - apply bind_inversion in Hrun as ([|] & w1 & Htry & Hrun).
    + apply bind_inversion in Hrun as ([] & w2 & _ & Hret).
      discriminate Hret.
    + apply try_handler_false in Htry as (found & Hfail).
      eapply all_fail_from_cons; [exact Hfail | now apply (IH (S i))].
Qed.

Lemma try_handlers_all_fail handlers i w w' :
  all_fail_from handlers w w' ->
  try_handlers handlers i w = Returned false w'.
Proof.
  intros Hfail. rewrite <- (app_nil_r handlers).
  now rewrite (try_handlers_all_fail_from _ _ _ Hfail).
Qed.

Lemma all_fail_from_preserves {B} (f : World -> B) handlers w w' :
  (forall k sv,
     preserves f
       (update_context
          (fun c => with_state_variables (set k sv (state_variables c)) c)))
  ->
  all_fail_from handlers w w' ->
  Forall (preserves f) (finders_of_handlers handlers) ->
  f w' = f w.
Proof.
  intros Hupd.
  induction 1 as [w|handler handlers w found w1 w' Hfail _ IH];
    intros Hall; [reflexivity|].
  cbn [finders_of_handlers flat_map] in Hall.
  apply Forall_app in Hall as [Hh Hrest].
  rewrite (IH Hrest).
  pose proof (try_handler_preserves f handler Hupd Hh w) as Hstep.
  now rewrite (try_handler_fails_from _ _ _ _ Hfail) in Hstep.
Qed.

(** X5.  [get_state_variables] returns [False] exactly on the runs in
    which every handler, tried in its turn, comes to a variable whose
    finder returns [None]; the state it leaves is the one the last failing
    finder left, and -- finders not writing it themselves --
    [self.state_variable_handler] keeps the value it had: no handler is
    selected. *)
Theorem get_state_variables_no_handler_resolves :
  forall V handlers w w',
    state_variable_handlers V = Some handlers ->
    (get_state_variables V w = Returned false w' <->
     all_fail_from handlers w w') /\
    (Forall (preserves state_variable_handler)
       (finders_of_handlers handlers) ->
     all_fail_from handlers w w' ->
     state_variable_handler w' = state_variable_handler w).
Proof.
  intros V handlers w w' HV. unfold get_state_variables. rewrite HV.
  split; [split|].
  - apply try_handlers_false.
  - apply try_handlers_all_fail.
  - intros Hframe Hfail.
    apply (all_fail_from_preserves state_variable_handler handlers w w');
      [now intros k sv w0 | exact Hfail | exact Hframe].
Qed.

Lemma get_state_variables_no_handler_resolves_witness :
  (state_variable_handlers
     (Examples.variant Examples.single_match [MoreExamples.lstm_handler]) =
     Some [MoreExamples.lstm_handler] /\
   Forall (preserves state_variable_handler)
     (finders_of_handlers [MoreExamples.lstm_handler]) /\
   all_fail_from [MoreExamples.lstm_handler] MoreExamples.masked_body
     MoreExamples.c_recorded) /\
  get_state_variables
    (Examples.variant Examples.single_match [MoreExamples.lstm_handler])
    MoreExamples.masked_body = Returned false MoreExamples.c_recorded /\
  state_variable_handler MoreExamples.c_recorded =
    state_variable_handler MoreExamples.masked_body.
Proof.
  assert (H2 : Forall (preserves state_variable_handler)
     (finders_of_handlers [MoreExamples.lstm_handler])).
  { repeat constructor; apply select_finder_preserves. }
  split; [split; [reflexivity|]; split; [exact H2 | exact loop_handlers_run]|].
  destruct (get_state_variables_no_handler_resolves
              (Examples.variant Examples.single_match
                 [MoreExamples.lstm_handler])
              [MoreExamples.lstm_handler] MoreExamples.masked_body
              MoreExamples.c_recorded eq_refl) as [Hiff Hsame].
  split; [apply Hiff, loop_handlers_run | exact (Hsame H2 loop_handlers_run)].
Defined.

(** X6.  When no state-variable handler resolves fully, [need_rewrite]
    returns [False]: the loop is skipped, not failed.  Take a run in which
    the cell finder returns a match and the weight extraction returns
    weights, and in which every handler then comes to a variable whose
    finder returns [None]: the call returns [False] in the state the last
    failing finder left (or, when the loop parser turns the loop down, at
    once, with only the scope recorded). *)
Theorem need_rewrite_no_handler_resolves :
  forall E V handlers w m w1 ws ws' w2 w3,
    state_variable_handlers V = Some handlers ->
    let scope := get_rnn_scope_name E (while_context_scope (context w)) in
    let scoped := world_of (update_context (with_rnn_scope (Some scope)) w) in
    find_cell V scoped = Returned (Some m) w1 ->
    get_weight_and_bias V
      (world_of (update_context (with_cell_match (Some m)) w1)) =
      Returned ws w2 ->
    has_weights ws = Some ws' ->
    all_fail_from handlers
      (world_of (update_context (with_weights ws') w2)) w3 ->
    need_rewrite E V w =
    Returned false
      (if parse_rnn_loop E (g w) (loop_properties (context w)) scope
            (while_context_scope (context w))
       then w3 else scoped).
Proof.
  intros E V handlers w m w1 ws ws' w2 w3 HV scope scoped Hcell Hweights
    Hhas Hfail.
  unfold need_rewrite, bind at 1, get_context at 1.
  unfold bind at 1, update_context at 1.
  unfold bind at 1, get_graph at 1. cbn [g].
  fold scope.
  destruct (parse_rnn_loop E (g w) (loop_properties (context w)) scope
              (while_context_scope (context w))); cbn [negb];
    [|reflexivity].
  assert (Hparse : parse_unit_rnn E V scoped = Returned false w3).
  { unfold parse_unit_rnn.
    rewrite (bind_returned _ _ _ _ _ Hcell).
    unfold bind at 1. cbn [update_context].
    rewrite (bind_returned _ _ _ _ _ Hweights). rewrite Hhas.
    unfold bind at 1. cbn [update_context].
    unfold get_state_variables. rewrite HV.
    now rewrite (bind_returned _ _ _ _ _
                   (try_handlers_all_fail handlers 0 _ _ Hfail)). }
  exact (bind_returned _ _ _ _ _ Hparse).
Qed.

Lemma need_rewrite_no_handler_resolves_witness :
  (state_variable_handlers
     (Examples.variant Examples.single_match [MoreExamples.lstm_handler]) =
     Some [MoreExamples.lstm_handler] /\
   find_cell
     (Examples.variant Examples.single_match [MoreExamples.lstm_handler])
     MoreExamples.masked_body =
     Returned (Some Examples.one_match) MoreExamples.masked_body /\
   get_weight_and_bias
     (Examples.variant Examples.single_match [MoreExamples.lstm_handler])
     MoreExamples.masked_body =
     Returned (Some [("gate_kernel", "rnn/gru_cell/gates/kernel/read:0")])
       MoreExamples.masked_body /\
   all_fail_from [MoreExamples.lstm_handler] MoreExamples.masked_body
     MoreExamples.c_recorded) /\
  need_rewrite Examples.single_match
    (Examples.variant Examples.single_match [MoreExamples.lstm_handler])
    MoreExamples.masked_body = Returned false MoreExamples.c_recorded.
Proof.
  split; [split; [reflexivity|]; split; [reflexivity|];
          split; [reflexivity | exact loop_handlers_run]|].
  exact (need_rewrite_no_handler_resolves Examples.single_match
           (Examples.variant Examples.single_match
              [MoreExamples.lstm_handler])
           [MoreExamples.lstm_handler] MoreExamples.masked_body
           Examples.one_match MoreExamples.masked_body
           (Some [("gate_kernel", "rnn/gru_cell/gates/kernel/read:0")])
           [("gate_kernel", "rnn/gru_cell/gates/kernel/read:0")]
           MoreExamples.masked_body MoreExamples.c_recorded
           eq_refl eq_refl eq_refl eq_refl loop_handlers_run).
Defined.

Lemma try_handlers_true handlers :
  forall i w w',
    try_handlers handlers i w = Returned true w' ->
    exists j handler,
      nth_error handlers j = Some handler /\
      state_variable_handler w' = Some (i + j).
Proof.
  induction handlers as [|h rest IH]; intros i w w' Hrun;
    cbn [try_handlers] in Hrun; [discriminate Hrun|].
  apply bind_inversion in Hrun as ([|] & w1 & Htry & Hrun).
  - apply bind_inversion in Hrun as ([] & w2 & Hset & Hret).
    injection Hret as <-. injection Hset as <-.
    exists 0, h. split; [reflexivity|]. cbn. f_equal. lia.
  - apply IH in Hrun as (j & handler & Hnth & Hsel).
    exists (S j), handler. split; [exact Hnth|]. rewrite Hsel. f_equal. lia.
Qed.

(** X7.  What [need_rewrite] guarantees when it returns [True] (attribute
    parsing and the validity predicate not undoing it): the loop has
    exactly one scan input, role ["X"] is bound to it, and
    [self.state_variable_handler] refers to one of the variant's handlers
    -- so [process_seq_length] finds ["X"] and [process_outputs] finds its
    handler. *)
Theorem need_rewrite_true_binds_input_and_handler :
  forall E V w w',
    need_rewrite E V w = Returned true w' ->
    preserves operands_and_handler (parse_attributes V) ->
    preserves operands_and_handler (is_valid V) ->
    exists x handlers i handler,
      scan_inputs_initial_values (loop_properties (context w')) = [x] /\
      get "X" (onnx_input_ids (context w')) = Some x /\
      state_variable_handlers V = Some handlers /\
      state_variable_handler w' = Some i /\
      nth_error handlers i = Some handler.
Proof.
  intros E V w w' Hrun Hattr Hvalid.
  unfold need_rewrite in Hrun.
  apply bind_inversion in Hrun as (ctx & w0 & Hctx & Hrun).
  apply bind_inversion in Hrun as ([] & w1 & _ & Hrun).
  apply bind_inversion in Hrun as (gr & w2 & Hg & Hrun).
  injection Hg as <- <-.
  destruct (negb _); [discriminate Hrun|].
  apply bind_inversion in Hrun as ([|] & w3 & Hparse & Hrun);
    cbn [negb] in Hrun; [|discriminate Hrun].
  apply bind_inversion in Hrun as ([|] & w4 & Hv & Hrun);
    cbn [negb] in Hrun; [|discriminate Hrun].
  injection Hrun as <-.
  (* inside parse_unit_rnn *)
  unfold parse_unit_rnn in Hparse.
  apply bind_inversion in Hparse as ([m|] & wa & _ & Hparse);
    [|discriminate Hparse].
  apply bind_inversion in Hparse as ([] & wb & _ & Hparse).
  apply bind_inversion in Hparse as (ws & wc & _ & Hparse).
  destruct (has_weights ws) as [ws'|]; [|discriminate Hparse].
  apply bind_inversion in Hparse as ([] & wd & _ & Hparse).
  apply bind_inversion in Hparse as ([|] & we & Hget & Hparse);
    cbn [negb] in Hparse; [|discriminate Hparse].
  apply bind_inversion in Hparse as (sl & wf & Hseq & Hparse).
  apply bind_inversion in Hparse as ([] & wg & Hsl & Hparse).
  apply bind_inversion in Hparse as (ctx' & wh & Hc' & Hparse).
  injection Hc' as <- <-.
  destruct (scan_inputs_initial_values (loop_properties (context wg)))
    as [|x [|x2 rest]] eqn:Hinputs; cbn [length Nat.eqb negb] in Hparse;
    try discriminate Hparse.
  apply bind_inversion in Hparse as (x' & wi & Hx & Hparse).
  injection Hx as <- <-.
  apply bind_inversion in Hparse as ([] & wj & Hset & Hparse).
  injection Hset as <-.
  apply bind_inversion in Hparse as ([|] & wk & Ha & Hparse);
    cbn [negb] in Hparse; [|discriminate Hparse].
  injection Hparse as <-.
  (* the chosen handler *)
  unfold get_state_variables in Hget.
  destruct (state_variable_handlers V) as [handlers|] eqn:HV;
    [|discriminate Hget].
  apply try_handlers_true in Hget as (j & handler & Hnth & Hsel).
  (* sequence-length detection and its assignment keep what matters *)
  pose proof (find_sequence_length_node_preserves (fun w => w) E we)
    as Hsame.
  rewrite Hseq in Hsame. cbn [world_of] in Hsame. subst wf.
  assert (Hg : operands_and_handler wg = operands_and_handler we).
  { destruct sl; injection Hsl as <-; reflexivity. }
  (* attribute parsing and the validity predicate *)
  pose proof (Hattr
    {| g := g wg;
       context := with_onnx_input_ids (set "X" x (onnx_input_ids (context wg)))
                    (context wg);
       state_variable_handler := state_variable_handler wg;
       INTERNAL_NAME := INTERNAL_NAME wg |}) as Hk.
  rewrite Ha in Hk. cbn [world_of] in Hk.
  pose proof (Hvalid wk) as Hl. rewrite Hv in Hl. cbn [world_of] in Hl.
  unfold operands_and_handler in Hk, Hl, Hg.
  cbn [context with_onnx_input_ids loop_properties onnx_input_ids
       state_variable_handler] in Hk.
  injection Hk as Hk1 Hk2 Hk3. injection Hl as Hl1 Hl2 Hl3.
  injection Hg as Hg1 Hg2 Hg3.
  exists x, handlers, j, handler.
  rewrite Hl1, Hl2, Hl3, Hk1, Hk2, Hk3.
  split; [exact Hinputs|]. split; [apply get_set_same|].
  split; [reflexivity|]. split; [|exact Hnth].
  rewrite Hg3. exact Hsel.
Qed.

Lemma need_rewrite_true_binds_input_and_handler_witness :
  exists w',
    (need_rewrite Examples.single_match Examples.unmasked_variant
       (Examples.fresh_world Examples.body ["rnn/transpose:0"]) =
       Returned true w' /\
     preserves operands_and_handler
       (parse_attributes Examples.unmasked_variant) /\
     preserves operands_and_handler (is_valid Examples.unmasked_variant)) /\
    exists x handlers i handler,
      scan_inputs_initial_values (loop_properties (context w')) = [x] /\
      get "X" (onnx_input_ids (context w')) = Some x /\
      state_variable_handlers Examples.unmasked_variant = Some handlers /\
      state_variable_handler w' = Some i /\
      nth_error handlers i = Some handler.
Proof.
  assert (H : exists w',
    need_rewrite Examples.single_match Examples.unmasked_variant
      (Examples.fresh_world Examples.body ["rnn/transpose:0"]) =
      Returned true w') by (eexists; vm_compute; reflexivity).
  destruct H as (w' & H). exists w'.
  assert (H1 : preserves operands_and_handler
                 (parse_attributes Examples.unmasked_variant))
    by (intros w; reflexivity).
  assert (H2 : preserves operands_and_handler
                 (is_valid Examples.unmasked_variant))
    by (intros w; reflexivity).
  split; [now repeat split|].
  exact (need_rewrite_true_binds_input_and_handler _ _ _ _ H H1 H2).
Defined.

(** ** The sequence-length operand: errors and frame *)

(** The three ways [process_seq_length] runs once ["X"] is bound. *)
Lemma process_seq_length_run_no_output w x n :
  get "X" (onnx_input_ids (context w)) = Some x ->
  seq_len_node (context w) = Some n ->
  output n = [] ->
  exists w',
    process_seq_length w = Raised IndexError w' /\
    context w' = context w /\
    state_variable_handler w' = state_variable_handler w /\
    nodes (g w') =
      nodes (g w) ++ firstn 3 (synthesized_subgraph x (INTERNAL_NAME w)).
Proof.
  intros HX Hsl Hout. run_process_seq_length HX Hsl. rewrite Hout.
  eexists. split; [reflexivity|].
  cbn [g nodes context state_variable_handler].
  split; [reflexivity|]. split; [reflexivity|].
  repeat rewrite <- app_assoc. reflexivity.
Qed.

Lemma process_seq_length_run_explicit w x n o outs :
  get "X" (onnx_input_ids (context w)) = Some x ->
  seq_len_node (context w) = Some n ->
  output n = o :: outs ->
  exists w',
    process_seq_length w = Returned tt w' /\
    context w' =
      with_onnx_input_ids
        (set "sequence_lens" o (onnx_input_ids (context w))) (context w) /\
    state_variable_handler w' = state_variable_handler w /\
    nodes (g w') =
      nodes (g w) ++ firstn 3 (synthesized_subgraph x (INTERNAL_NAME w)).
Proof.
  intros HX Hsl Hout. run_process_seq_length HX Hsl. rewrite Hout.
  eexists. split; [reflexivity|].
  cbn [g nodes context state_variable_handler].
  split; [reflexivity|]. split; [reflexivity|].
  repeat rewrite <- app_assoc. reflexivity.
Qed.

Lemma process_seq_length_run_synthesis w x :
  get "X" (onnx_input_ids (context w)) = Some x ->
  seq_len_node (context w) = None ->
  exists w',
    process_seq_length w = Returned tt w' /\
    context w' =
      with_onnx_input_ids
        (set "sequence_lens"
           (output_name (make_name "Cast" (7 + INTERNAL_NAME w)) 0)
           (onnx_input_ids (context w))) (context w) /\
    state_variable_handler w' = state_variable_handler w /\
    nodes (g w') =
      nodes (g w) ++ synthesized_subgraph x (INTERNAL_NAME w).
Proof.
  intros HX Hsl. run_process_seq_length HX Hsl.
  eexists. split; [reflexivity|].
  cbn [g nodes context state_variable_handler].
  split; [reflexivity|]. split; [reflexivity|].
  repeat rewrite <- app_assoc. reflexivity.
Qed.

Lemma process_seq_length_without_X w :
  get "X" (onnx_input_ids (context w)) = None ->
  process_seq_length w = Raised (KeyError "X") w.
Proof.
  intros HX.
  unfold process_seq_length, process_seq_length_with, bind at 1,
    get_context at 1.
  unfold bind at 1, lookup at 1. now rewrite HX.
Qed.

(** X8.  Where [process_seq_length] raises.  Without role ["X"] in the
    operand table it raises [KeyError] before anything is built, whatever
    the slice builder, and the state is untouched.  With a sequence-length
    node that has no output it raises [IndexError] at its last line, after
    the Shape, Cast and Slice nodes were added to the graph, which stay
    there; the context is untouched. *)
Theorem process_seq_length_errors :
  forall w,
    (forall make_slice,
       get "X" (onnx_input_ids (context w)) = None ->
       process_seq_length_with make_slice w = Raised (KeyError "X") w) /\
    (forall x n,
       get "X" (onnx_input_ids (context w)) = Some x ->
       seq_len_node (context w) = Some n ->
       output n = [] ->
       exists w',
         process_seq_length w = Raised IndexError w' /\
         context w' = context w /\
         nodes (g w') = nodes (g w) ++ added_nodes w w' /\
         map type (added_nodes w w') = ["Shape"; "Cast"; "Slice"]).
Proof.
  intros w. split.
  - intros make_slice HX.
    unfold process_seq_length_with, bind at 1, get_context at 1.
    unfold bind at 1, lookup at 1. now rewrite HX.
  - intros x n HX Hsl Hout.
    destruct (process_seq_length_run_no_output w x n HX Hsl Hout)
      as (w' & Hrun & Hctx & _ & Hnodes).
    exists w'. split; [exact Hrun|]. split; [exact Hctx|].
    rewrite (added_nodes_app _ _ _ Hnodes).
    split; [exact Hnodes | reflexivity].
Qed.

Lemma process_seq_length_errors_witness :
  (get "X" (onnx_input_ids
              (context (Examples.fresh_world Examples.body
                          ["rnn/transpose:0"]))) = None /\
   process_seq_length (Examples.fresh_world Examples.body ["rnn/transpose:0"])
     = Raised (KeyError "X")
         (Examples.fresh_world Examples.body ["rnn/transpose:0"])) /\
  (get "X" (onnx_input_ids (context MoreExamples.no_lengths_output)) =
     Some "rnn/transpose:0" /\
   seq_len_node (context MoreExamples.no_lengths_output) =
     Some MoreExamples.outputless /\
   output MoreExamples.outputless = []) /\
  exists w',
    process_seq_length MoreExamples.no_lengths_output =
      Raised IndexError w' /\
    context w' = context MoreExamples.no_lengths_output /\
    map type (added_nodes MoreExamples.no_lengths_output w') =
      ["Shape"; "Cast"; "Slice"].
Proof.
  split.
  { split; [reflexivity|].
    exact (proj1 (process_seq_length_errors
                    (Examples.fresh_world Examples.body ["rnn/transpose:0"]))
             make_slice eq_refl). }
  split; [now repeat split|].
  destruct (proj2 (process_seq_length_errors MoreExamples.no_lengths_output)
              "rnn/transpose:0" MoreExamples.outputless
              eq_refl eq_refl eq_refl)
    as (w' & Hrun & Hctx & _ & Htypes).
  now exists w'.
Defined.

(** X9.  When [process_seq_length] returns, the context differs from the
    one it was given in the entry ["sequence_lens"] of the operand table
    and in nothing else: every other role, ["X"] included, keeps its
    value, and so does every other field.  The nodes that were in the
    graph are still there, unchanged and in place, before the new ones;
    [self.state_variable_handler] is as it was. *)
Theorem process_seq_length_frame :
  forall w w',
    process_seq_length w = Returned tt w' ->
    (exists o,
       context w' =
         with_onnx_input_ids
           (set "sequence_lens" o (onnx_input_ids (context w)))
           (context w)) /\
    (forall k, k <> "sequence_lens" ->
       get k (onnx_input_ids (context w')) =
       get k (onnx_input_ids (context w))) /\
    nodes (g w') = nodes (g w) ++ added_nodes w w' /\
    state_variable_handler w' = state_variable_handler w.
Proof.
  intros w w' Hrun.
  assert (Hcases : exists o added,
    context w' =
      with_onnx_input_ids
        (set "sequence_lens" o (onnx_input_ids (context w))) (context w) /\
    state_variable_handler w' = state_variable_handler w /\
    nodes (g w') = nodes (g w) ++ added).
  { destruct (get "X" (onnx_input_ids (context w))) as [x|] eqn:HX.
    - destruct (seq_len_node (context w)) as [n|] eqn:Hsl.
      + destruct (output n) as [|o outs] eqn:Hout.
        * destruct (process_seq_length_run_no_output w x n HX Hsl Hout)
            as (w0 & Hrun0 & _).
          rewrite Hrun0 in Hrun. discriminate Hrun.
        * destruct (process_seq_length_run_explicit w x n o outs HX Hsl Hout)
            as (w0 & Hrun0 & Hctx & Hh & Hnodes).
          rewrite Hrun0 in Hrun. injection Hrun as <-.
          eexists _, _. split; [exact Hctx|]. split; [exact Hh|exact Hnodes].
      + destruct (process_seq_length_run_synthesis w x HX Hsl)
          as (w0 & Hrun0 & Hctx & Hh & Hnodes).
        rewrite Hrun0 in Hrun. injection Hrun as <-.
        eexists _, _. split; [exact Hctx|]. split; [exact Hh|exact Hnodes].
    - rewrite (process_seq_length_without_X w HX) in Hrun.
      discriminate Hrun. }
  destruct Hcases as (o & added & Hctx & Hh & Hnodes).
  split; [now exists o|]. split.
  - intros k Hk. rewrite Hctx. cbn [with_onnx_input_ids onnx_input_ids].
    now apply get_set_other.
  - split; [|exact Hh].
    now rewrite (added_nodes_app _ _ _ Hnodes).
Qed.

Lemma process_seq_length_frame_witness :
  exists w',
    process_seq_length Examples.ready_with_lengths = Returned tt w' /\
    get "X" (onnx_input_ids (context w')) = Some "rnn/transpose:0" /\
    nodes (g w') =
      nodes (g Examples.ready_with_lengths) ++
      added_nodes Examples.ready_with_lengths w' /\
    state_variable_handler w' =
      state_variable_handler Examples.ready_with_lengths.
Proof.
  assert (H : exists w',
    process_seq_length Examples.ready_with_lengths = Returned tt w')
    by (eexists; vm_compute; reflexivity).
  destruct H as (w' & H). exists w'. split; [exact H|].
  destruct (process_seq_length_frame _ _ H) as (_ & Hother & Hnodes & Hh).
  split; [|split; assumption].
  rewrite Hother; [reflexivity | discriminate].
Defined.

(** ** The nodes of the sequence-length operand form a well-formed
    subgraph *)

Lemma make_name_inj op n m : make_name op n = make_name op m -> n = m.
Proof.
  unfold make_name. intros H.
  apply append_inj_l, append_inj_l in H. now apply string_of_nat_inj.
Qed.

Ltac distinct_names :=
  repeat constructor; cbn [In]; intros H;
  repeat (destruct H as [H|H]);
  first
    [ contradiction
    | apply make_name_inj in H; lia
    | apply made_output_inj in H; lia
    | unfold output_name, make_name in H; cbn [append] in H;
      discriminate H ].

Lemma synthesized_subgraph_wellformed x c l :
  l = synthesized_subgraph x c \/ l = firstn 3 (synthesized_subgraph x c) ->
  NoDup (map name l) /\
  NoDup (flat_map output l) /\
  forall k n,
    nth_error l k = Some n ->
    forall i, In i (input n) ->
      i = x \/ In i (flat_map output (firstn k l)).
Proof.
  intros [->| ->]; unfold synthesized_subgraph; cbn [firstn];
    (split; [|split]).
  - cbn [map name]. distinct_names.
  - cbn [flat_map output app]. distinct_names.
  - intros k n Hn i Hi.
    do 7 (destruct k as [|k];
          [ injection Hn as <-; cbn [input In] in Hi;
            cbn [firstn flat_map output app In]; intuition | ]).
    destruct k; discriminate Hn.
  - cbn [map name]. distinct_names.
  - cbn [flat_map output app]. distinct_names.
  - intros k n Hn i Hi.
    do 3 (destruct k as [|k];
          [ injection Hn as <-; cbn [input In] in Hi;
            cbn [firstn flat_map output app In]; intuition | ]).
    destruct k; discriminate Hn.
Qed.

(** X10.  The nodes [process_seq_length] adds form a well-formed piece of
    graph: their names are pairwise distinct, their outputs are pairwise
    distinct, and each of them reads only the input ["X"] or outputs of
    nodes added before it. *)
Theorem process_seq_length_adds_wellformed_nodes :
  forall w w' x,
    process_seq_length w = Returned tt w' ->
    get "X" (onnx_input_ids (context w)) = Some x ->
    NoDup (map name (added_nodes w w')) /\
    NoDup (flat_map output (added_nodes w w')) /\
    forall k n,
      nth_error (added_nodes w w') k = Some n ->
      forall i, In i (input n) ->
        i = x \/ In i (flat_map output (firstn k (added_nodes w w'))).
Proof.
  intros w w' x Hrun HX.
  destruct (seq_len_node (context w)) as [n0|] eqn:Hsl.
  - destruct (output n0) as [|o outs] eqn:Hout.
    + destruct (process_seq_length_run_no_output w x n0 HX Hsl Hout)
        as (w0 & Hrun0 & _).
      rewrite Hrun0 in Hrun. discriminate Hrun.
    + destruct (process_seq_length_run_explicit w x n0 o outs HX Hsl Hout)
        as (w0 & Hrun0 & _ & _ & Hnodes).
      rewrite Hrun0 in Hrun. injection Hrun as <-.
      rewrite (added_nodes_app _ _ _ Hnodes).
      apply synthesized_subgraph_wellformed with (c := INTERNAL_NAME w).
      now right.
  - destruct (process_seq_length_run_synthesis w x HX Hsl)
      as (w0 & Hrun0 & _ & _ & Hnodes).
    rewrite Hrun0 in Hrun. injection Hrun as <-.
    rewrite (added_nodes_app _ _ _ Hnodes).
    apply synthesized_subgraph_wellformed with (c := INTERNAL_NAME w).
    now left.
Qed.

Lemma process_seq_length_adds_wellformed_nodes_witness :
  exists w',
    (process_seq_length Examples.ready = Returned tt w' /\
     get "X" (onnx_input_ids (context Examples.ready)) =
       Some "rnn/transpose:0") /\
    NoDup (map name (added_nodes Examples.ready w')) /\
    NoDup (flat_map output (added_nodes Examples.ready w')) /\
    forall k n,
      nth_error (added_nodes Examples.ready w') k = Some n ->
      forall i, In i (input n) ->
        i = "rnn/transpose:0" \/
        In i (flat_map output (firstn k (added_nodes Examples.ready w'))).
Proof.
  assert (H : exists w', process_seq_length Examples.ready = Returned tt w')
    by (eexists; vm_compute; reflexivity).
  destruct H as (w' & H). exists w'.
  split; [split; [exact H | reflexivity]|].
  exact (process_seq_length_adds_wellformed_nodes _ _ _ H eq_refl).
Defined.

(** ** Output reconciliation: errors, ranks and what is kept *)

(** X11.  [connect_unit_rnn_output_to_graph] accepts any recorded shape of
    four or more dimensions for the fused node's first output: the Squeeze
    output is recorded with dimensions 0, 2 and 3 of it.  The size of the
    axis that is squeezed is not looked at, and dimensions beyond the
    fourth are dropped. *)
Theorem connect_unit_rnn_output_does_not_check_the_shape :
  forall w first_exit exits rnn out outs d0 d1 d2 d3 more,
    scan_outputs_exits (loop_properties (context w)) = first_exit :: exits ->
    rnn_node (context w) = Some rnn ->
    output rnn = out :: outs ->
    get_shape (g w) out = Some (d0 :: d1 :: d2 :: d3 :: more) ->
    exists w',
      connect_unit_rnn_output_to_graph w = Returned tt w' /\
      get_shape (g w')
        (output_name (make_name "Squeeze" (S (INTERNAL_NAME w))) 0) =
        Some [d0; d2; d3] /\
      length (nodes (g w')) = S (length (nodes (g w))).
Proof.
  intros w first_exit exits rnn out outs d0 d1 d2 d3 more
    Hexits Hrnn Hout Hshape.
  destruct (connect_unit_rnn_output_run w first_exit exits rnn out outs
              d0 d1 d2 d3 more Hexits Hrnn Hout Hshape)
    as (w' & Hrun & Hnodes & Hsq & _).
  exists w'. split; [exact Hrun|]. split; [exact Hsq|].
  rewrite Hnodes, length_map, length_app. cbn [length]. lia.
Qed.

(** X12.  Where [connect_unit_rnn_output_to_graph] raises.  When the loop
    has a scan-output exit, the call raises [AttributeError] if
    [context.rnn_node] is unset, [IndexError] if the fused node has no
    outputs, [TypeError] if its first output has no recorded shape and
    [IndexError] if that shape has fewer than four dimensions.  Each of
    these tests comes before the Squeeze node is made: the state is left
    as it was. *)
Theorem connect_unit_rnn_output_errors :
  forall w first_exit exits,
    scan_outputs_exits (loop_properties (context w)) = first_exit :: exits ->
    (rnn_node (context w) = None ->
     connect_unit_rnn_output_to_graph w = Raised AttributeError w) /\
    (forall rnn,
       rnn_node (context w) = Some rnn ->
       (output rnn = [] ->
        connect_unit_rnn_output_to_graph w = Raised IndexError w) /\
       (forall out outs,
          output rnn = out :: outs ->
          (get_shape (g w) out = None ->
           connect_unit_rnn_output_to_graph w = Raised TypeError w) /\
          (forall s,
             get_shape (g w) out = Some s ->
             length s < 4 ->
             connect_unit_rnn_output_to_graph w = Raised IndexError w))).
Proof.
  intros w first_exit exits Hexits.
  assert (Hstart : connect_unit_rnn_output_to_graph w =
    (rnn_node <- match rnn_node (context w) with
                 | Some n => ret n
                 | None => raise AttributeError
                 end ;;
     output_id <- first (output rnn_node) ;;
     gr <- get_graph ;;
     rnn_output_shape <- match get_shape gr output_id with
                         | Some s => ret s
                         | None => raise TypeError
                         end ;;
     d0 <- index rnn_output_shape 0 ;;
     d2 <- index rnn_output_shape 2 ;;
     d3 <- index rnn_output_shape 3 ;;
     squeeze_node <-
       make_node "Squeeze" [output_id] [("axes", AInts [1%Z])]
         [Some [d0; d2; d3]] [get_dtype gr output_id] ;;
     gr <- get_graph ;;
     squeeze_out <- first (output squeeze_node) ;;
     replace_all_inputs (get_nodes gr) (id first_exit) squeeze_out) w).
  { unfold connect_unit_rnn_output_to_graph, bind at 1, get_context at 1.
    now rewrite Hexits. }
  rewrite Hstart. clear Hstart. split.
  { intros Hrnn. now rewrite Hrnn. }
  intros rnn Hrnn. rewrite Hrnn. rewrite bind_ret_l. split.
  { intros Hout. now rewrite Hout. }
  intros out outs Hout. rewrite Hout. cbn [first]. rewrite bind_ret_l.
  split.
  { intros Hshape. unfold bind at 1, get_graph at 1. now rewrite Hshape. }
  intros s Hshape Hlen. unfold bind at 1, get_graph at 1. rewrite Hshape.
  destruct s as [|d0 [|d1 [|d2 [|d3 more]]]];
    [reflexivity | reflexivity | reflexivity | reflexivity|].
  cbn [length] in Hlen. lia.
Qed.

Lemma connect_unit_rnn_output_does_not_check_the_shape_witness :
  (scan_outputs_exits
     (loop_properties
        (context (MoreExamples.fused (Some [20; 2; 4; 16; 7]%Z)))) =
     [Examples.gather_exit] /\
   rnn_node (context (MoreExamples.fused (Some [20; 2; 4; 16; 7]%Z))) =
     Some Examples.gru_node /\
   output Examples.gru_node = ["GRU__8:0"; "GRU__8:1"] /\
   get_shape (g (MoreExamples.fused (Some [20; 2; 4; 16; 7]%Z))) "GRU__8:0" =
     Some [20; 2; 4; 16; 7]%Z) /\
  exists w',
    connect_unit_rnn_output_to_graph
      (MoreExamples.fused (Some [20; 2; 4; 16; 7]%Z)) = Returned tt w' /\
    get_shape (g w') "Squeeze__9:0" = Some [20; 4; 16]%Z /\
    length (nodes (g w')) = 4.
Proof.
  split; [repeat split|].
  exact (connect_unit_rnn_output_does_not_check_the_shape
           (MoreExamples.fused (Some [20; 2; 4; 16; 7]%Z))
           Examples.gather_exit [] Examples.gru_node "GRU__8:0" ["GRU__8:1"]
           20%Z 2%Z 4%Z 16%Z [7%Z] eq_refl eq_refl eq_refl eq_refl).
Defined.

Lemma connect_unit_rnn_output_errors_witness :
  (scan_outputs_exits
     (loop_properties (context (MoreExamples.fused (Some [20; 4; 16]%Z)))) =
     [Examples.gather_exit] /\
   rnn_node (context (MoreExamples.fused (Some [20; 4; 16]%Z))) =
     Some Examples.gru_node /\
   output Examples.gru_node = ["GRU__8:0"; "GRU__8:1"] /\
   get_shape (g (MoreExamples.fused (Some [20; 4; 16]%Z))) "GRU__8:0" =
     Some [20; 4; 16]%Z /\
   length [20; 4; 16]%Z < 4) /\
  connect_unit_rnn_output_to_graph (MoreExamples.fused (Some [20; 4; 16]%Z))
    = Raised IndexError (MoreExamples.fused (Some [20; 4; 16]%Z)).
Proof.
  assert (Hlen : length [20; 4; 16]%Z < 4) by (cbn; lia).
  split; [repeat split; exact Hlen|].
  exact (proj2 (proj2 (proj2 (connect_unit_rnn_output_errors
                                (MoreExamples.fused (Some [20; 4; 16]%Z))
                                Examples.gather_exit [] eq_refl)
                               Examples.gru_node eq_refl)
                  "GRU__8:0" ["GRU__8:1"] eq_refl)
           [20; 4; 16]%Z eq_refl Hlen).
Defined.

(** ** What is never removed *)

Lemma keeps_nodes_refl w : keeps_nodes w w.
Proof. exists []. now rewrite app_nil_r. Qed.

Lemma keeps_nodes_trans w1 w2 w3 :
  keeps_nodes w1 w2 -> keeps_nodes w2 w3 -> keeps_nodes w1 w3.
Proof.
  intros (e1 & H1) (e2 & H2). exists (e1 ++ e2).
  now rewrite H2, H1, app_assoc.
Qed.

Lemma only_adds_of_graph_kept {A} (m : M A) :
  preserves g m -> only_adds_nodes m.
Proof.
  intros H w. unfold keeps_nodes. rewrite (H w). exists [].
  now rewrite app_nil_r.
Qed.

Lemma only_adds_bind {A B} (m : M A) (k : A -> M B) :
  only_adds_nodes m -> (forall a, only_adds_nodes (k a)) ->
  only_adds_nodes (bind m k).
Proof.
  intros Hm Hk w. unfold bind. specialize (Hm w).
  destruct (m w) as [a w1|e w1]; cbn [world_of] in *; [|exact Hm].
  eapply keeps_nodes_trans; [exact Hm | apply Hk].
Qed.

Lemma only_adds_ret {A} (a : A) : only_adds_nodes (ret a).
Proof. intros w. apply keeps_nodes_refl. Qed.

Lemma only_adds_raise {A} e : only_adds_nodes (@raise A e).
Proof. intros w. apply keeps_nodes_refl. Qed.

Lemma only_adds_first {A} (l : list A) : only_adds_nodes (first l).
Proof. destruct l; [apply only_adds_raise | apply only_adds_ret]. Qed.

Lemma only_adds_make_node op ins attrs shapes dtypes :
  only_adds_nodes (make_node op ins attrs shapes dtypes).
Proof.
  intros w. unfold keeps_nodes.
  destruct shapes, dtypes;
    cbv [make_node world_of add_node set_shape set_dtype];
    cbn [g nodes]; eexists; rewrite map_app; reflexivity.
Qed.

Lemma only_adds_make_slice a : only_adds_nodes (make_slice a).
Proof.
  unfold make_slice. apply only_adds_bind; [apply only_adds_make_node|].
  intros n. apply only_adds_first.
Qed.

Lemma node_header_replace_input old new n :
  node_header (replace_input old new n) = node_header n.
Proof. reflexivity. Qed.

Lemma only_adds_replace_all_inputs ops old new :
  only_adds_nodes (replace_all_inputs ops old new).
Proof.
  intros w. exists []. rewrite app_nil_r.
  unfold replace_all_inputs. cbn [world_of g nodes].
  rewrite map_map. apply map_ext. intros n.
  now destruct (existsb _ ops).
Qed.

Lemma only_adds_process_seq_length : only_adds_nodes process_seq_length.
Proof.
  unfold process_seq_length, process_seq_length_with.
  apply only_adds_bind; [now apply only_adds_of_graph_kept|]. intros ctx.
  apply only_adds_bind.
  { unfold lookup. destruct (get "X" _);
      [apply only_adds_ret | apply only_adds_raise]. }
  intros x. apply only_adds_bind; [apply only_adds_make_node|]. intros n1.
  apply only_adds_bind; [apply only_adds_first|]. intros o1.
  apply only_adds_bind; [now apply only_adds_of_graph_kept|]. intros gr.
  apply only_adds_bind; [apply only_adds_make_node|]. intros n2.
  apply only_adds_bind; [apply only_adds_first|]. intros o2.
  apply only_adds_bind; [apply only_adds_make_slice|]. intros b.
  apply only_adds_bind.
  { destruct (seq_len_node ctx); [apply only_adds_ret|].
    apply only_adds_bind; [apply only_adds_make_node|]. intros n3.
    apply only_adds_bind; [apply only_adds_first|]. intros o3.
    apply only_adds_bind; [apply only_adds_make_slice|]. intros t.
    apply only_adds_bind; [apply only_adds_first|]. intros o4.
    apply only_adds_bind; [apply only_adds_make_node|]. intros n4.
    apply only_adds_bind; [apply only_adds_first|]. intros o5.
    apply only_adds_make_node. }
  intros sl. apply only_adds_bind; [apply only_adds_first|]. intros o.
  apply only_adds_of_graph_kept, update_context_graph.
Qed.

Lemma only_adds_connect_unit_rnn_output :
  only_adds_nodes connect_unit_rnn_output_to_graph.
Proof.
  unfold connect_unit_rnn_output_to_graph.
  apply only_adds_bind; [now apply only_adds_of_graph_kept|]. intros ctx.
  destruct (scan_outputs_exits (loop_properties ctx));
    [apply only_adds_ret|].
  apply only_adds_bind.
  { destruct (rnn_node ctx); [apply only_adds_ret | apply only_adds_raise]. }
  intros rnn. apply only_adds_bind; [apply only_adds_first|]. intros out.
  apply only_adds_bind; [now apply only_adds_of_graph_kept|]. intros gr.
  apply only_adds_bind.
  { destruct (get_shape gr out);
      [apply only_adds_ret | apply only_adds_raise]. }
  intros s.
  assert (Hindex : forall i, only_adds_nodes (index s i)).
  { intros i. unfold index. destruct (nth_error s i);
      [apply only_adds_ret | apply only_adds_raise]. }
  apply only_adds_bind; [apply Hindex|]. intros d0.
  apply only_adds_bind; [apply Hindex|]. intros d2.
  apply only_adds_bind; [apply Hindex|]. intros d3.
  apply only_adds_bind; [apply only_adds_make_node|]. intros sq.
  apply only_adds_bind; [now apply only_adds_of_graph_kept|]. intros gr'.
  apply only_adds_bind; [apply only_adds_first|]. intros o.
  apply only_adds_replace_all_inputs.
Qed.

Lemma only_adds_connect_outputs handler :
  Forall only_adds_nodes (map (fun e => snd (snd e)) handler) ->
  only_adds_nodes (connect_outputs handler).
Proof.
  induction handler as [|[var_name [finder connector]] rest IH];
    intros Hall; cbn [connect_outputs].
  - apply only_adds_ret.
  - cbn [map snd] in Hall. inversion Hall as [|? ? Hc Hrest]; subst.
    apply only_adds_bind; [exact Hc|]. intros _. now apply IH.
Qed.

(** X13.  [rewrite] never removes, reorders or renames a node of the graph,
    and never changes the type, the outputs or the attributes of one: the
    nodes of the original loop are all still there afterwards, whether
    [rewrite] returns or raises.  This holds as soon as the operations the
    variant supplies (weight processing, initial states, the fused node,
    the output connectors) only add nodes themselves; the steps of the
    base class -- the sequence-length operand and the output
    reconciliation -- add nodes and rewire inputs, nothing else. *)
Theorem rewrite_only_adds_nodes :
  forall V,
    only_adds_nodes (process_weights_and_bias V) ->
    only_adds_nodes (process_var_init_nodes V) ->
    only_adds_nodes (create_rnn_node V) ->
    (forall handlers handler,
       state_variable_handlers V = Some handlers ->
       In handler handlers ->
       Forall only_adds_nodes (map (fun e => snd (snd e)) handler)) ->
    only_adds_nodes process_seq_length /\
    only_adds_nodes connect_unit_rnn_output_to_graph /\
    only_adds_nodes (rewrite V).
Proof.
  intros V Hweights Hinit Hcreate Hconnectors.
  split; [apply only_adds_process_seq_length|].
  split; [apply only_adds_connect_unit_rnn_output|].
  unfold rewrite.
  apply only_adds_bind; [exact Hweights|]. intros _.
  apply only_adds_bind; [apply only_adds_process_seq_length|]. intros _.
  apply only_adds_bind; [exact Hinit|]. intros _.
  apply only_adds_bind; [exact Hcreate|]. intros rnn.
  apply only_adds_bind;
    [apply only_adds_of_graph_kept, update_context_graph|]. intros _.
  apply only_adds_bind; [|intros _; apply only_adds_ret].
  intros w. unfold process_outputs.
  destruct (state_variable_handler w) as [i|];
    [|apply keeps_nodes_refl].
  destruct (state_variable_handlers V) as [handlers|] eqn:HV;
    [|apply keeps_nodes_refl].
  destruct (nth_error handlers i) as [handler|] eqn:Hnth;
    [|apply keeps_nodes_refl].
  apply only_adds_bind.
  - apply only_adds_connect_outputs.
    apply (Hconnectors handlers handler eq_refl).
    eapply nth_error_In; exact Hnth.
  - intros _. apply only_adds_connect_unit_rnn_output.
Qed.

Lemma rewrite_only_adds_nodes_witness :
  (only_adds_nodes (process_weights_and_bias Examples.unmasked_variant) /\
   only_adds_nodes (process_var_init_nodes Examples.unmasked_variant) /\
   only_adds_nodes (create_rnn_node Examples.unmasked_variant) /\
   (forall handlers handler,
      state_variable_handlers Examples.unmasked_variant = Some handlers ->
      In handler handlers ->
      Forall only_adds_nodes (map (fun e => snd (snd e)) handler))) /\
  (exists w',
     rewrite Examples.unmasked_variant MoreExamples.accepted =
       Returned OK w') /\
  keeps_nodes MoreExamples.accepted
    (world_of (rewrite Examples.unmasked_variant MoreExamples.accepted)).
Proof.
  assert (H1 : only_adds_nodes
                 (process_weights_and_bias Examples.unmasked_variant))
    by apply only_adds_ret.
  assert (H2 : only_adds_nodes
                 (process_var_init_nodes Examples.unmasked_variant))
    by apply only_adds_ret.
  assert (H3 : only_adds_nodes (create_rnn_node Examples.unmasked_variant))
    by apply only_adds_make_node.
  assert (H4 : forall handlers handler,
      state_variable_handlers Examples.unmasked_variant = Some handlers ->
      In handler handlers ->
      Forall only_adds_nodes (map (fun e => snd (snd e)) handler)).
  { intros handlers handler Hh Hin. injection Hh as <-.
    destruct Hin as [<-|[]]. constructor; [apply only_adds_ret|constructor]. }
  split; [now repeat split|].
  split; [eexists; vm_compute; reflexivity|].
  exact (proj2 (proj2 (rewrite_only_adds_nodes Examples.unmasked_variant
                         H1 H2 H3 H4)) MoreExamples.accepted).
Defined.

(** ** What ends up in [context.state_variables] *)

Lemma set_keeps_head {V} k (v : V) k0 v0 tail :
  exists v' tail', set k v ((k0, v0) :: tail) = (k0, v') :: tail'.
Proof.
  cbn [set]. destruct (String.eqb_spec k k0) as [->|_]; now eexists _, _.
Qed.

Lemma try_handler_keeps_head handler :
  Forall (preserves recorded) (finders handler) ->
  forall w k0 sv tail,
    recorded w = (k0, sv) :: tail ->
    exists sv' tail',
      recorded (world_of (try_handler handler w)) = (k0, sv') :: tail'.
Proof.
  induction handler as [|[var_name [finder connector]] rest IH];
    intros Hall w k0 sv tail Hhead; cbn [try_handler].
  - now exists sv, tail.
  - cbn [finders map fst snd] in Hall.
    inversion Hall as [|? ? Hf Hrest]; subst.
    unfold bind at 1. specialize (Hf w).
    destruct (finder w) as [[sv1|] w1|e w1]; cbn [world_of] in *.
    + unfold bind at 1, update_context at 1.
      destruct (set_keeps_head var_name sv1 k0 sv tail) as (v' & t' & Hset).
      apply (IH Hrest _ k0 v' t').
      unfold recorded in *.
      cbn [context with_state_variables state_variables].
      now rewrite Hf, Hhead.
    + unfold ret. cbn [world_of]. rewrite Hf. now exists sv, tail.
    + rewrite Hf. now exists sv, tail.
Qed.

Lemma try_handlers_keeps_head handlers :
  Forall (preserves recorded) (finders_of_handlers handlers) ->
  forall i w k0 sv tail,
    recorded w = (k0, sv) :: tail ->
    exists sv' tail',
      recorded (world_of (try_handlers handlers i w)) = (k0, sv') :: tail'.
Proof.
  induction handlers as [|handler rest IH]; intros Hall i w k0 sv tail Hhead;
    cbn [try_handlers].
  - now exists sv, tail.
  - cbn [finders_of_handlers flat_map] in Hall.
    apply Forall_app in Hall as [Hh Hrest].
    destruct (try_handler_keeps_head handler Hh w k0 sv tail Hhead)
      as (sv1 & tail1 & Hstep).
    unfold bind at 1.
    destruct (try_handler handler w) as [[|] w1|e w1]; cbn [world_of] in *.
    + now exists sv1, tail1.
    + now apply (IH Hrest (S i) w1 k0 sv1 tail1).
    + now exists sv1, tail1.
Qed.

(** X15.  The state variable that [find_sequence_length_node] inspects,
    the first value of [context.state_variables], is the one recorded
    under the first name of the first handler -- whichever handler ends up
    selected.  Starting from an empty dictionary, in a run in which the
    first finder of the first handler returns a variable, the first entry
    of the dictionary stays under that name through all later attempts,
    however they end. *)
Theorem first_state_variable_is_the_first_handlers :
  forall V first_name finder connector rest others w sv0 w1,
    state_variable_handlers V =
      Some (((first_name, (finder, connector)) :: rest) :: others) ->
    finder w = Returned (Some sv0) w1 ->
    Forall (preserves recorded) (finders_of V) ->
    recorded w = [] ->
    exists sv tail,
      recorded (world_of (get_state_variables V w)) =
        (first_name, sv) :: tail.
Proof.
  intros V first_name finder connector rest others w sv0 w1 HV Hfind Hframe
    Hempty.
  unfold finders_of in Hframe. rewrite HV in Hframe.
  cbn [finders_of_handlers flat_map finders map fst snd app] in Hframe.
  inversion Hframe as [|? ? Hf Hframe']; subst.
  apply Forall_app in Hframe' as [Hfrest Hfothers].
  unfold get_state_variables. rewrite HV. cbn [try_handlers try_handler].
  pose proof (Hf w) as Hsame. rewrite Hfind in Hsame. cbn [world_of] in Hsame.
  unfold bind at 1. unfold bind at 1. rewrite Hfind.
  unfold bind at 1, update_context at 1.
  match goal with
  | |- context [try_handler rest ?w2] =>
      assert (Hhead : recorded w2 = [(first_name, sv0)])
  end.
  { unfold recorded in *.
    cbn [context with_state_variables state_variables].
    now rewrite Hsame, Hempty. }
  match goal with
  | |- context [try_handler rest ?w2] =>
      destruct (try_handler_keeps_head rest Hfrest w2 first_name sv0 []
                  Hhead) as (sv1 & tail1 & Hstep);
      destruct (try_handler rest w2) as [[|] w3|e w3]
  end; cbn [world_of] in *.
  - unfold bind at 1, set_state_variable_handler at 1. cbn [world_of ret].
    now exists sv1, tail1.
  - now apply (try_handlers_keeps_head others Hfothers 1 w3 first_name
                 sv1 tail1).
  - now exists sv1, tail1.
Qed.

Lemma first_state_variable_is_the_first_handlers_witness :
  (state_variable_handlers
     (Examples.variant Examples.single_match MoreExamples.loop_handlers) =
     Some ((("c", (MoreExamples.find_c [], Examples.no_connector))
            :: [("h", (MoreExamples.find_h [Examples.add_node_h],
                       Examples.no_connector))])
           :: [MoreExamples.gru_handler; MoreExamples.spare_handler]) /\
   MoreExamples.find_c [] MoreExamples.masked_body =
     Returned (Some Examples.c_plain) MoreExamples.masked_body /\
   Forall (preserves recorded)
     (finders_of
        (Examples.variant Examples.single_match MoreExamples.loop_handlers))
   /\
   recorded MoreExamples.masked_body = []) /\
  exists sv tail,
    recorded
      (world_of
         (get_state_variables
            (Examples.variant Examples.single_match
               MoreExamples.loop_handlers)
            MoreExamples.masked_body)) =
    ("c", sv) :: tail.
Proof.
  assert (H3 : Forall (preserves recorded)
     (finders_of
        (Examples.variant Examples.single_match
           MoreExamples.loop_handlers))).
  { repeat constructor; apply select_finder_preserves. }
  split; [now repeat split|].
  exact (first_state_variable_is_the_first_handlers
           (Examples.variant Examples.single_match
              MoreExamples.loop_handlers)
           "c" (MoreExamples.find_c []) Examples.no_connector
           [("h", (MoreExamples.find_h [Examples.add_node_h],
                   Examples.no_connector))]
           [MoreExamples.gru_handler; MoreExamples.spare_handler]
           MoreExamples.masked_body Examples.c_plain
           MoreExamples.masked_body eq_refl eq_refl H3 eq_refl).
Defined.

(** X16.  A handler with no variables resolves at once.  A variant whose
    first handler is empty therefore has it selected without any state
    variable recorded, and [parse_unit_rnn] does not answer [False]: in a
    run in which the cell finder returns a match and the weight extraction
    returns weights, [context.state_variables] being empty then, the
    sequence-length detection that follows has no variable to look at and
    raises [IndexError]. *)
Theorem parse_unit_rnn_empty_handler_raises :
  forall E V others w m w1 ws ws' w2,
    state_variable_handlers V = Some ([] :: others) ->
    find_cell V w = Returned (Some m) w1 ->
    get_weight_and_bias V
      (world_of (update_context (with_cell_match (Some m)) w1)) =
      Returned ws w2 ->
    has_weights ws = Some ws' ->
    recorded w2 = [] ->
    exists w',
      parse_unit_rnn E V w = Raised IndexError w' /\
      state_variable_handler w' = Some 0.
Proof.
  intros E V others w m w1 ws ws' w2 HV Hcell Hweights Hhas Hempty.
  unfold parse_unit_rnn.
  rewrite (bind_returned _ _ _ _ _ Hcell).
  unfold bind at 1. cbn [update_context].
  rewrite (bind_returned _ _ _ _ _ Hweights). rewrite Hhas.
  unfold bind at 1, update_context at 1.
  unfold get_state_variables. rewrite HV.
  cbn [try_handlers try_handler].
  unfold bind at 1. unfold bind at 1, ret at 1.
  unfold bind at 1, set_state_variable_handler at 1. unfold ret at 1.
  cbn [negb].
  unfold bind at 1, find_sequence_length_node, bind at 1, get_context at 1.
  cbn [context with_weights state_variables].
  unfold recorded in Hempty.
  rewrite Hempty. cbn [values map first]. unfold bind at 1, raise.
  eexists. split; reflexivity.
Qed.

Lemma parse_unit_rnn_empty_handler_raises_witness :
  (state_variable_handlers
     (Examples.variant Examples.single_match
        [[]; MoreExamples.gru_handler]) =
     Some ([] :: [MoreExamples.gru_handler]) /\
   find_cell
     (Examples.variant Examples.single_match [[]; MoreExamples.gru_handler])
     MoreExamples.masked_body =
     Returned (Some Examples.one_match) MoreExamples.masked_body /\
   get_weight_and_bias
     (Examples.variant Examples.single_match [[]; MoreExamples.gru_handler])
     MoreExamples.masked_body =
     Returned (Some [("gate_kernel", "rnn/gru_cell/gates/kernel/read:0")])
       MoreExamples.masked_body /\
   recorded MoreExamples.masked_body = []) /\
  exists w',
    parse_unit_rnn Examples.single_match
      (Examples.variant Examples.single_match
         [[]; MoreExamples.gru_handler])
      MoreExamples.masked_body = Raised IndexError w' /\
    state_variable_handler w' = Some 0.
Proof.
  split; [now repeat split|].
  exact (parse_unit_rnn_empty_handler_raises Examples.single_match
           (Examples.variant Examples.single_match
              [[]; MoreExamples.gru_handler])
           [MoreExamples.gru_handler] MoreExamples.masked_body
           Examples.one_match MoreExamples.masked_body
           (Some [("gate_kernel", "rnn/gru_cell/gates/kernel/read:0")])
           [("gate_kernel", "rnn/gru_cell/gates/kernel/read:0")]
           MoreExamples.masked_body eq_refl eq_refl eq_refl eq_refl eq_refl).
Defined.

Lemma keys_set_incl {V} k (v : V) d : incl (keys (set k v d)) (k :: keys d).
Proof.
  induction d as [|[k' v'] r IH]; cbn [set keys map fst].
  - apply incl_refl.
  - destruct (String.eqb_spec k k') as [->|Hne]; cbn [keys map fst].
    + intros x [<-|Hx]; [now left | right; now right].
    + intros x [<-|Hx]; [right; now left|].
      destruct (IH x Hx) as [<-|Hin]; [now left | right; now right].
Qed.

Lemma try_handler_records_only_its_names handler :
  Forall (preserves recorded) (finders handler) ->
  forall w,
    incl (keys (recorded (world_of (try_handler handler w))))
         (keys (recorded w) ++ keys handler).
Proof.
  induction handler as [|[var_name [finder connector]] rest IH];
    intros Hall w; cbn [try_handler].
  - cbn [world_of ret keys map]. rewrite app_nil_r. apply incl_refl.
  - cbn [finders map fst snd] in Hall.
    inversion Hall as [|? ? Hf Hrest]; subst.
    unfold bind at 1. specialize (Hf w).
    destruct (finder w) as [[sv|] w1|e w1]; cbn [world_of] in *.
    + unfold bind at 1, update_context at 1.
      eapply incl_tran; [apply (IH Hrest)|].
      unfold recorded at 1.
      cbn [context with_state_variables state_variables].
      intros x Hx. apply in_app_or in Hx as [Hx|Hx].
      * apply keys_set_incl in Hx. unfold recorded in Hf.
        rewrite Hf in Hx. destruct Hx as [<-|Hx].
        -- apply in_or_app. right. now left.
        -- apply in_or_app. now left.
      * apply in_or_app. right. now right.
    + unfold ret. cbn [world_of]. rewrite Hf. apply incl_appl, incl_refl.
    + rewrite Hf. apply incl_appl, incl_refl.
Qed.

Lemma try_handlers_true_records handlers :
  Forall (preserves recorded) (finders_of_handlers handlers) ->
  forall i w w',
    try_handlers handlers i w = Returned true w' ->
    exists j handler,
      nth_error handlers j = Some handler /\
      state_variable_handler w' = Some (i + j) /\
      incl (keys (recorded w'))
           (keys (recorded w) ++ flat_map keys (firstn (S j) handlers)).
Proof.
  induction handlers as [|h rest IH]; intros Hall i w w' Hrun;
    cbn [try_handlers] in Hrun; [discriminate Hrun|].
  cbn [finders_of_handlers flat_map] in Hall.
  apply Forall_app in Hall as [Hh Hrest].
  apply bind_inversion in Hrun as ([|] & w1 & Htry & Hrun).
  - apply bind_inversion in Hrun as ([] & w2 & Hset & Hret).
    injection Hret as <-. injection Hset as <-.
    exists 0, h. split; [reflexivity|]. split.
    { cbn [state_variable_handler]. now rewrite Nat.add_0_r. }
    pose proof (try_handler_records_only_its_names h Hh w) as Hstep.
    rewrite Htry in Hstep. cbn [world_of] in Hstep.
    cbn [firstn flat_map]. rewrite app_nil_r. exact Hstep.
  - pose proof (try_handler_records_only_its_names h Hh w) as Hstep.
    rewrite Htry in Hstep. cbn [world_of] in Hstep.
    destruct (IH Hrest (S i) w1 w' Hrun) as (j & handler & Hnth & Hsel & Hk).
    exists (S j), handler. split; [exact Hnth|]. split.
    { rewrite Hsel. now rewrite Nat.add_succ_r. }
    change (firstn (S (S j)) (h :: rest)) with (h :: firstn (S j) rest).
    cbn [flat_map].
    intros x Hx. apply Hk, in_app_or in Hx as [Hx|Hx].
    + apply Hstep, in_app_or in Hx as [Hx|Hx].
      * apply in_or_app. now left.
      * apply in_or_app. right. apply in_or_app. now left.
    + apply in_or_app. right. apply in_or_app. now right.
Qed.

(** X17.  Handlers that are not tried leave no trace.  Whenever
    [get_state_variables] returns [True] (finders not writing
    [context.state_variables] themselves), the handler selected is one of
    the list, and every name in [context.state_variables] was there before
    the call or is a variable name of the selected handler or of a handler
    before it in the list; no name comes from a handler after it. *)
Theorem untried_handlers_record_nothing :
  forall V handlers w w',
    state_variable_handlers V = Some handlers ->
    Forall (preserves recorded) (finders_of_handlers handlers) ->
    get_state_variables V w = Returned true w' ->
    exists j handler,
      nth_error handlers j = Some handler /\
      state_variable_handler w' = Some j /\
      incl (keys (recorded w'))
           (keys (recorded w) ++ flat_map keys (firstn (S j) handlers)).
Proof.
  intros V handlers w w' HV Hframe Hrun.
  unfold get_state_variables in Hrun. rewrite HV in Hrun.
  exact (try_handlers_true_records handlers Hframe 0 w w' Hrun).
Qed.

Lemma untried_handlers_record_nothing_witness :
  (state_variable_handlers
     (Examples.variant Examples.single_match
        [MoreExamples.gru_handler; MoreExamples.lstm_handler]) =
     Some [MoreExamples.gru_handler; MoreExamples.lstm_handler] /\
   Forall (preserves recorded)
     (finders_of_handlers
        [MoreExamples.gru_handler; MoreExamples.lstm_handler]) /\
   get_state_variables
     (Examples.variant Examples.single_match
        [MoreExamples.gru_handler; MoreExamples.lstm_handler])
     MoreExamples.masked_body =
     Returned true
       {| g := g MoreExamples.masked_body;
          context :=
            context (with_state_variable "h" Examples.h_select
                       MoreExamples.masked_body);
          state_variable_handler := Some 0;
          INTERNAL_NAME := INTERNAL_NAME MoreExamples.masked_body |}) /\
  exists j handler,
    nth_error [MoreExamples.gru_handler; MoreExamples.lstm_handler] j =
      Some handler /\
    j = 0 /\
    incl
      (keys (recorded (with_state_variable "h" Examples.h_select
                         MoreExamples.masked_body)))
      (keys (recorded MoreExamples.masked_body) ++
       flat_map keys
         (firstn (S j)
            [MoreExamples.gru_handler; MoreExamples.lstm_handler])).
Proof.
  assert (H2 : Forall (preserves recorded)
     (finders_of_handlers
        [MoreExamples.gru_handler; MoreExamples.lstm_handler])).
  { repeat constructor; apply select_finder_preserves. }
  split; [split; [reflexivity|]; split; [exact H2 | reflexivity]|].
  destruct (untried_handlers_record_nothing
              (Examples.variant Examples.single_match
                 [MoreExamples.gru_handler; MoreExamples.lstm_handler])
              [MoreExamples.gru_handler; MoreExamples.lstm_handler]
              MoreExamples.masked_body _ eq_refl H2 eq_refl)
    as (j & handler & Hnth & Hsel & Hincl).
  exists j, handler. split; [exact Hnth|]. split; [|exact Hincl].
  cbn [state_variable_handler] in Hsel. now injection Hsel as <-.
Defined.
